(** * JfrMemorySpace: the buffer pool of the flight recorder

    A shallow embedding of
    [src/hotspot/share/jfr/recorder/storage/jfrMemorySpace.inline.hpp]
    and the properties of it that the specification states.

    Conventions of the embedding.
    - The target is LP64: [size_t], [u8] and [intx] are 64 bits wide, [int]
      is 32 bits wide.  Integers are [Z] with the wrap-around written out.
    - A [T*] is an address ([positive]); [NULL] is [None].  The buffers that
      are alive are the keys of [objects]; the pools that are alive are the
      keys of [pools].  Dereferencing anything else is a [Fault].
    - HotSpot's [assert] is compiled in debug builds only.  Every function
      takes the build flavour [ASSERT : bool] and runs its assertions when
      it is [true]; [PRODUCT] is [false].  A failed assertion carries the
      line of the source it stands on.  Assertions that a pointer is not
      [NULL] have nothing to say here and are left out.
    - The heap primitive may refuse any request: [heap_oracle] says which
      requests succeed, [heap_requests] counts the requests made so far.
    - One thread runs at a time.  A lock or a buffer that is held when
      somebody tries to take it makes the model stop with [Blocked].
    - A traversal visits the nodes that the list has when it begins;
      the processor may unlink the node it is handed. *)

From stdpp Require Import base numbers list gmap strings.
From Stdlib Require Import Strings.Byte.
Local Open Scope Z_scope.

(** ** Machine integers *)

Definition to_size_t (x : Z) : Z := Z.land x (Z.ones 64).
Definition to_u8 (x : Z) : Z := Z.land x (Z.ones 64).
Definition to_int (x : Z) : Z :=
  let y := Z.land x (Z.ones 32) in
  if Z.testbit y 31 then y - 2 ^ 32 else y.

(** Modelled from the spec: [min_intx] of
    [utilities/globalDefinitions.hpp], which is not in this file.  The
    spec has [static_cast<size_t>(min_intx)] as the maximum representable
    allocation size; on LP64 [min_intx] is [(intx)1 << 63]. *)
Definition min_intx : Z := - 2 ^ 63.

(** ** Outcomes of a run *)

Inductive failure : Type :=
| AssertionFailed (line : Z) (msg : string)
| Fault
| Blocked
| Diverges.

Inductive res (A : Type) : Type :=
| Ok (a : A)
| Fail (f : failure).
Arguments Ok {A} a.
Arguments Fail {A} f.

#[global] Instance res_ret : MRet res := λ A a, Ok a.
#[global] Instance res_bind : MBind res := λ A B f r,
  match r with Ok a => f a | Fail e => Fail e end.

(** ** Data model *)

Abbreviation ptr := positive (only parsing).
Abbreviation Thread := positive (only parsing).

(** Modelled from the spec: the buffer type [T] is a template parameter
    whose class is not in this file.  The record has what section 3 and
    the capability interface of section 6 name: capacity, cursor, owner
    and the three flags.  Positions are offsets from the beginning of the
    buffer's allocation block, whose first [buf_header_size] bytes are the
    header; [buf_data] is the payload, indexed from [start]. *)
Record Buffer : Type := mkBuffer {
  buf_header_size : Z;
  buf_size : Z;
  buf_pos : Z;
  buf_top : Z;
  buf_identity : option Thread;
  buf_transient : bool;
  buf_lease : bool;
  buf_retired : bool;
  buf_data : list byte
}.

(** Modelled from the spec: the queries and updates of the capability
    interface of section 6, on that record. *)
Definition start (b : Buffer) : Z := buf_header_size b.
Definition end_ (b : Buffer) : Z := buf_header_size b + buf_size b.
Definition pos (b : Buffer) : Z := buf_pos b.
Definition free_size (b : Buffer) : Z := end_ b - pos b.
Definition unflushed_size (b : Buffer) : Z := pos b - buf_top b.
Definition total_size (b : Buffer) : Z := buf_header_size b + buf_size b.
Definition empty (b : Buffer) : bool := pos b =? start b.
Definition transient (b : Buffer) : bool := buf_transient b.
Definition lease (b : Buffer) : bool := buf_lease b.
Definition retired (b : Buffer) : bool := buf_retired b.
Definition identity (b : Buffer) : option Thread := buf_identity b.
Definition acquired_by (thread : Thread) (b : Buffer) : bool :=
  bool_decide (buf_identity b = Some thread).

Definition set_transient (b : Buffer) : Buffer :=
  mkBuffer (buf_header_size b) (buf_size b) (buf_pos b) (buf_top b)
           (buf_identity b) true (buf_lease b) (buf_retired b) (buf_data b).
Definition set_lease (b : Buffer) : Buffer :=
  mkBuffer (buf_header_size b) (buf_size b) (buf_pos b) (buf_top b)
           (buf_identity b) (buf_transient b) true (buf_retired b) (buf_data b).
Definition set_identity (o : option Thread) (b : Buffer) : Buffer :=
  mkBuffer (buf_header_size b) (buf_size b) (buf_pos b) (buf_top b)
           o (buf_transient b) (buf_lease b) (buf_retired b) (buf_data b).
Definition set_data (d : list byte) (b : Buffer) : Buffer :=
  mkBuffer (buf_header_size b) (buf_size b) (buf_pos b) (buf_top b)
           (buf_identity b) (buf_transient b) (buf_lease b) (buf_retired b) d.

(** Modelled from the spec: [reinitialize()] of the capability
    interface, which section 4.3 has reset the write cursor to the
    start, and [release()], which gives up the ownership. *)
Definition reinitialize (b : Buffer) : Buffer :=
  mkBuffer (buf_header_size b) (buf_size b) (start b) (start b)
           (buf_identity b) (buf_transient b) (buf_lease b) (buf_retired b)
           (buf_data b).
Definition release (b : Buffer) : Buffer := set_identity None b.

(** Modelled from the spec: what [new (allocation) T] leaves at the
    address, for the buffer type that is not in this file: no owner and
    no flag set. *)
Definition T_new : Buffer :=
  mkBuffer 0 0 0 0 None false false false [].
(** Modelled from the spec: [T::initialize(header_size, size)] of the
    capability interface of section 6, which makes an empty buffer of
    the given capacity and reports success.  Fresh storage is taken to
    be zero-filled; nothing below depends on its contents. *)
Definition T_initialize (header_size size : Z) (b : Buffer) : bool * Buffer :=
  (true,
   mkBuffer header_size size header_size header_size
            (buf_identity b) (buf_transient b) (buf_lease b) (buf_retired b)
            (replicate (Z.to_nat size) x00)).

(** Modelled from the spec: the intrusive list of
    [jfrDoubleLinkedList.hpp], which is not in this file.  Section 3
    gives it prepend-at-head, removal of a member, a membership test and
    a count.  A node that sits in a list cannot sit in it twice.
    Unlinking a node that is not in the list corrupts it: [None]. *)
Module JfrDoubleLinkedList.
Definition in_list (t : ptr) (l : list ptr) : bool := bool_decide (t ∈ l).
Definition prepend (t : ptr) (l : list ptr) : list ptr := t :: l.
Definition remove (t : ptr) (l : list ptr) : option (list ptr) :=
  if in_list t l then Some (filter (λ x, x ≠ t) l) else None.
Definition count (l : list ptr) : Z := Z.of_nat (length l).
End JfrDoubleLinkedList.

(** Modelled from the spec: the direction of a traversal and the
    iterator of [jfrIterator.hpp], which is not in this file.  Section
    4.1 has a traversal visit the selected list in the given direction;
    the nodes visited are those of the list when the traversal begins,
    from the head forward or from the tail backward.  [next()] steps
    past a node before it hands it out, so that the node may be unlinked
    while it is processed. *)
Inductive jfr_iter_direction : Type := forward | backward.
Definition Iterator (l : list ptr) (direction : jfr_iter_direction) : list ptr :=
  match direction with
  | forward => l
  | backward => reverse l
  end.

(** The fields of [JfrMemorySpace].  [_locked] stands for the critical
    section that [lock()], [unlock()] and [is_locked()] reach through the
    callback object. *)
Record Mspace : Type := mkMspace {
  _free : list ptr;
  _full : list ptr;
  _min_elem_size : Z;
  _limit_size : Z;
  _cache_count : Z;
  _locked : bool
}.

Definition with_free (l : list ptr) (ms : Mspace) : Mspace :=
  mkMspace l (_full ms) (_min_elem_size ms) (_limit_size ms)
           (_cache_count ms) (_locked ms).
Definition with_full (l : list ptr) (ms : Mspace) : Mspace :=
  mkMspace (_free ms) l (_min_elem_size ms) (_limit_size ms)
           (_cache_count ms) (_locked ms).
Definition with_locked (b : bool) (ms : Mspace) : Mspace :=
  mkMspace (_free ms) (_full ms) (_min_elem_size ms) (_limit_size ms)
           (_cache_count ms) b.

(** The constructor. *)
Definition JfrMemorySpace (min_elem_size limit_size cache_count : Z) : Mspace :=
  mkMspace [] [] min_elem_size limit_size cache_count false.

(** The machine: the live buffers, the live pools, the heap primitive and
    the function-local [static] of [size_adjustment].  The pools of a
    machine are of one type, so that they share the one instance of
    [size_adjustment] and its [static]. *)
Record Env : Type := mkEnv {
  objects : gmap ptr Buffer;
  pools : gmap ptr Mspace;
  heap_requests : nat;
  heap_oracle : nat → bool;
  size_adjustment_static : option Z
}.

Definition with_objects (o : gmap ptr Buffer) (env : Env) : Env :=
  mkEnv o (pools env) (heap_requests env) (heap_oracle env)
        (size_adjustment_static env).
Definition with_pools (p : gmap ptr Mspace) (env : Env) : Env :=
  mkEnv (objects env) p (heap_requests env) (heap_oracle env)
        (size_adjustment_static env).
Definition with_heap_requests (n : nat) (env : Env) : Env :=
  mkEnv (objects env) (pools env) n (heap_oracle env)
        (size_adjustment_static env).
Definition with_static (s : option Z) (env : Env) : Env :=
  mkEnv (objects env) (pools env) (heap_requests env) (heap_oracle env) s.

(** ** The monad of the embedding: state and failure *)

Definition M (A : Type) : Type := Env → res (A * Env).

#[global] Instance M_ret : MRet M := λ A a env, Ok (a, env).
#[global] Instance M_bind : MBind M := λ A B f c env,
  match c env with
  | Ok (a, env') => f a env'
  | Fail e => Fail e
  end.

#[global] Instance M_fmap : FMap M := λ A B f c env,
  match c env with
  | Ok (a, env') => Ok (f a, env')
  | Fail e => Fail e
  end.

Definition fail {A : Type} (e : failure) : M A := λ _, Fail e.
Definition lift {A : Type} (r : res A) : M A := λ env,
  match r with Ok a => Ok (a, env) | Fail e => Fail e end.

Definition deref (t : ptr) : M Buffer := λ env,
  match objects env !! t with
  | Some b => Ok (b, env)
  | None => Fail Fault
  end.
Definition modify (t : ptr) (f : Buffer → Buffer) : M unit := λ env,
  match objects env !! t with
  | Some b => Ok ((), with_objects (<[t := f b]> (objects env)) env)
  | None => Fail Fault
  end.
Definition load_mspace (m : ptr) : M Mspace := λ env,
  match pools env !! m with
  | Some ms => Ok (ms, env)
  | None => Fail Fault
  end.
Definition modify_mspace (m : ptr) (f : Mspace → Mspace) : M unit := λ env,
  match pools env !! m with
  | Some ms => Ok ((), with_pools (<[m := f ms]> (pools env)) env)
  | None => Fail Fault
  end.

(** ** What the file takes from elsewhere

    [os::vm_page_size()], [sizeof(T)], the retrieval policy behind
    [mspace->get(size, thread)] (the template parameter [RetrievalType])
    and the cache policy [should_populate_cache()] are declared outside
    this file.  The retrieval policy reads the pool and may write buffer
    headers. *)
Class Platform : Type := {
  vm_page_size : Z;
  sizeof_T : Z;
  Retrieval_get :
    Z → Thread → Mspace → gmap ptr Buffer → option ptr * gmap ptr Buffer;
  should_populate_cache : Mspace → bool
}.

Abbreviation PRODUCT := false (only parsing).
Abbreviation DEBUG := true (only parsing).

(** ** The code *)

(** The loop of [align_allocation_size]: [alloc_size_bytes <<= 1] while
    [requested_size > alloc_size_bytes].  [fuel] bounds the number of
    shifts; [None] when it does not suffice. *)
Fixpoint align_loop (fuel : nat) (requested_size alloc_size_bytes : Z) : option Z :=
  if requested_size >? alloc_size_bytes then
    match fuel with
    | O => None
    | S fuel' =>
        align_loop fuel' requested_size (to_u8 (Z.shiftl alloc_size_bytes 1))
    end
  else Some alloc_size_bytes.

Section Code.
Context `{P : Platform}.
Variable ASSERT : bool.

(** [assert(cond, msg)]: the condition is evaluated in debug builds
    only. *)
Definition assert_ (line : Z) (cond : M bool) (msg : string) : M unit :=
  if ASSERT then
    c ← cond;
    if c : bool then mret () else fail (AssertionFailed line msg)
  else mret ().
Definition check (line : Z) (cond : bool) (msg : string) : res unit :=
  if ASSERT && negb cond then Fail (AssertionFailed line msg) else Ok ().

(** *** The heap primitive, [JfrCHeapObj] *)

(** Modelled from the spec: [JfrCHeapObj::new_array<u1>(size)], the
    [alloc(bytes) -> ptr?] of section 6.  A granted request returns an
    address that no live buffer has. *)
Definition JfrCHeapObj_new_array (size : Z) : M (option ptr) := λ env,
  let n := heap_requests env in
  let env' := with_heap_requests (S n) env in
  if heap_oracle env n
  then Ok (Some (fresh (dom (objects env))), env')
  else Ok (None, env').
(** [new (allocation) T]. *)
Definition placement_new (t : ptr) : M unit := λ env,
  Ok ((), with_objects (<[t := T_new]> (objects env)) env).
(** Modelled from the spec: [JfrCHeapObj::free(t, size)], the
    [free(ptr, bytes)] of section 6.  Freeing what is not alive is a
    [Fault]. *)
Definition JfrCHeapObj_free (t : ptr) (size : Z) : M unit := λ env,
  match objects env !! t with
  | Some _ => Ok ((), with_objects (delete t (objects env)) env)
  | None => Fail Fault
  end.
(** [new Mspace(...)]: the pool is a [JfrCHeapObj], its storage comes
    from the same heap primitive, which may refuse. *)
Definition new_Mspace (ms : Mspace) : M (option ptr) := λ env,
  let n := heap_requests env in
  let env' := with_heap_requests (S n) env in
  if heap_oracle env n
  then let m := fresh (dom (pools env)) in
       Ok (Some m, with_pools (<[m := ms]> (pools env)) env')
  else Ok (None, env').

(** *** Members of [JfrMemorySpace] that the class declaration defines

    [jfrMemorySpace.hpp] is not in this file. *)

(** Modelled from the spec: the accessor of the pool parameter
    [min_elem_size] of section 3. *)
Definition min_elem_size (m : ptr) : M Z :=
  this ← load_mspace m; mret (_min_elem_size this).
(** Modelled from the spec: [is_locked()] of the critical-section lock
    of section 2. *)
Definition is_locked (m : ptr) : M bool :=
  this ← load_mspace m; mret (_locked this).
(** Modelled from the spec: [lock()], which waits for a lock that is
    held. *)
Definition lock (m : ptr) : M unit :=
  this ← load_mspace m;
  if _locked this then fail Blocked else modify_mspace m (with_locked true).
(** Modelled from the spec: [unlock()]. *)
Definition unlock (m : ptr) : M unit :=
  modify_mspace m (with_locked false).
(** Modelled from the spec: [_free.in_list(t)], the membership test of
    section 3. *)
Definition in_free_list (m t : ptr) : M bool :=
  this ← load_mspace m; mret (JfrDoubleLinkedList.in_list t (_free this)).
(** Modelled from the spec: [_full.in_list(t)]. *)
Definition in_full_list (m t : ptr) : M bool :=
  this ← load_mspace m; mret (JfrDoubleLinkedList.in_list t (_full this)).
(** Modelled from the spec: [insert_free_head(t)], prepend at the head
    of the free list. *)
Definition insert_free_head (m t : ptr) : M unit :=
  modify_mspace m (λ this,
    with_free (JfrDoubleLinkedList.prepend t (_free this)) this).
(** Modelled from the spec: [insert_full_head(t)], prepend at the head
    of the full list. *)
Definition insert_full_head (m t : ptr) : M unit :=
  modify_mspace m (λ this,
    with_full (JfrDoubleLinkedList.prepend t (_full this)) this).
(** Modelled from the spec: [remove_free(t)], removal of a member of
    the free list. *)
Definition remove_free (m t : ptr) : M unit :=
  this ← load_mspace m;
  match JfrDoubleLinkedList.remove t (_free this) with
  | Some l => modify_mspace m (with_free l)
  | None => fail Fault
  end.
(** Modelled from the spec: [remove_full(t)], removal of a member of
    the full list. *)
Definition remove_full (m t : ptr) : M unit :=
  this ← load_mspace m;
  match JfrDoubleLinkedList.remove t (_full this) with
  | Some l => modify_mspace m (with_full l)
  | None => fail Fault
  end.
(** Modelled from the spec: [get(size, thread)], which hands the
    request to the retrieval policy of the platform. *)
Definition get (m : ptr) (size : Z) (thread : Thread) : M (option ptr) :=
  this ← load_mspace m;
  (λ env,
     let '(t, o) := Retrieval_get size thread this (objects env) in
     Ok (t, with_objects o env)) : M (option ptr).
(** Modelled from the spec: [should_populate_cache()], the cache
    policy of section 4.1, on the pool as it is at the call. *)
Definition populate_cache (m : ptr) : M bool :=
  this ← load_mspace m; mret (should_populate_cache this).

(** *** [align_allocation_size] *)

Definition align_allocation_size (requested_size min_elem_size : Z) : res Z :=
  check 75 (Z.rem (to_int min_elem_size) vm_page_size =? 0) "invariant";;
  if requested_size >? to_size_t min_intx then
    check 77 false "requested size: SIZE_FORMAT is too large";;
    mret 0
  else
    match align_loop 64 requested_size (to_u8 min_elem_size) with
    | None => Fail Diverges
    | Some alloc_size_bytes =>
        check 84 (Z.rem (to_int alloc_size_bytes) vm_page_size =? 0) "invariant";;
        check 85 (alloc_size_bytes <=? to_size_t min_intx) "invariant";;
        mret (to_size_t alloc_size_bytes)
    end.

(** *** [JfrMemorySpace::allocate] and [deallocate] *)

Definition allocate (m : ptr) (size : Z) : M (option ptr) :=
  this ← load_mspace m;
  aligned_size_bytes ← lift (align_allocation_size size (_min_elem_size this));
  if negb (size =? 0) && (aligned_size_bytes =? 0) then mret None else
  allocation ← JfrCHeapObj_new_array (to_size_t (aligned_size_bytes + sizeof_T));
  match allocation with
  | None => mret None
  | Some t =>
      placement_new t;;
      b ← deref t;
      let '(ok, b') := T_initialize sizeof_T aligned_size_bytes b in
      modify t (λ _, b');;
      if negb ok then
        JfrCHeapObj_free t (to_size_t (aligned_size_bytes + sizeof_T));;
        mret None
      else mret (Some t)
  end.

Definition deallocate (m t : ptr) : M unit :=
  assert_ 111 (negb <$> in_free_list m t) "invariant";;
  assert_ 112 (negb <$> in_full_list m t) "invariant";;
  b ← deref t;
  JfrCHeapObj_free t (total_size b).

(** *** [JfrMemorySpace::initialize] *)

Fixpoint initialize_loop (m : ptr) (n : nat) : M bool :=
  match n with
  | O => mret true
  | S n' =>
      this ← load_mspace m;
      t ← allocate m (_min_elem_size this);
      match t with
      | None => mret false
      | Some t => insert_free_head m t;; initialize_loop m n'
      end
  end.

Definition initialize (m : ptr) : M bool :=
  assert_ 59 (this ← load_mspace m;
           mret (Z.rem (_min_elem_size this) (to_size_t vm_page_size) =? 0))
          "invariant";;
  assert_ 60 (this ← load_mspace m;
           mret (Z.rem (_limit_size this) (to_size_t vm_page_size) =? 0))
          "invariant";;
  this ← load_mspace m;
  completed ← initialize_loop m (Z.to_nat (_cache_count this));
  if completed : bool then
    assert_ 69 (this ← load_mspace m;
             mret (JfrDoubleLinkedList.count (_free this) =? _cache_count this))
            "invariant";;
    mret true
  else mret false.

(** *** [release_full] and [release_free] *)

Definition release_full (m t : ptr) : M unit :=
  assert_ 119 (is_locked m) "invariant";;
  assert_ 121 (in_full_list m t) "invariant";;
  remove_full m t;;
  assert_ 123 (negb <$> in_full_list m t) "invariant";;
  b ← deref t;
  if transient b then deallocate m t
  else
    assert_ 128 (mret (empty b)) "invariant";;
    assert_ 129 (mret (negb (retired b))) "invariant";;
    assert_ 130 (mret (bool_decide (identity b = None))) "invariant";;
    c ← populate_cache m;
    if c : bool then
      assert_ 132 (negb <$> in_free_list m t) "invariant";;
      insert_free_head m t
    else deallocate m t.

Definition release_free (m t : ptr) : M unit :=
  assert_ 141 (is_locked m) "invariant";;
  assert_ 143 (in_free_list m t) "invariant";;
  b ← deref t;
  if transient b then
    remove_free m t;;
    assert_ 146 (negb <$> in_free_list m t) "invariant";;
    deallocate m t
  else
    assert_ 150 (mret (empty b)) "invariant";;
    assert_ 151 (mret (negb (retired b))) "invariant";;
    assert_ 152 (mret (bool_decide (identity b = None))) "invariant";;
    c ← populate_cache m;
    if negb c then
      remove_free m t;;
      assert_ 155 (negb <$> in_free_list m t) "invariant";;
      deallocate m t
    else mret ().

(** *** The free functions over a pool *)

Definition create_mspace (buffer_size limit cache_count : Z) : M (option ptr) :=
  mspace ← new_Mspace (JfrMemorySpace buffer_size limit cache_count);
  match mspace with
  | Some m => initialize m;; mret (Some m)
  | None => mret None
  end.

(** [static const size_t min_elem_size = mspace->min_elem_size();]
    is initialised by the first call that reaches it and read by every
    later one. *)
Definition size_adjustment_min_elem_size (m : ptr) : M Z := λ env,
  match size_adjustment_static env with
  | Some v => Ok (v, env)
  | None =>
      match min_elem_size m env with
      | Ok (v, env') => Ok (v, with_static (Some v) env')
      | Fail e => Fail e
      end
  end.

Definition size_adjustment (size : Z) (m : ptr) : M Z :=
  min_elem_size ← size_adjustment_min_elem_size m;
  mret (if size <? min_elem_size then min_elem_size else size).

Definition mspace_allocate (size : Z) (m : ptr) : M (option ptr) :=
  size' ← size_adjustment size m;
  allocate m size'.

(** Modelled from the spec: [t->acquire(thread)] of the capability
    interface, which spins until the buffer is unowned and then makes
    [thread] its owner. *)
Definition acquire (t : ptr) (thread : Thread) : M unit :=
  b ← deref t;
  match identity b with
  | None => modify t (set_identity (Some thread))
  | Some _ => fail Blocked
  end.
(** Modelled from the spec: [t->acquired_by_self()], on the thread that
    runs the function. *)
Definition acquired_by_self (t : ptr) (thread : Thread) : M bool :=
  b ← deref t; mret (acquired_by thread b).

Definition mspace_allocate_acquired (size : Z) (m : ptr) (thread : Thread)
  : M (option ptr) :=
  t ← mspace_allocate size m;
  match t with
  | None => mret None
  | Some t => acquire t thread;; mret (Some t)
  end.

Definition mspace_allocate_transient (size : Z) (m : ptr) (thread : Thread)
  : M (option ptr) :=
  t ← mspace_allocate_acquired size m thread;
  match t with
  | None => mret None
  | Some t =>
      assert_ 206 (acquired_by_self t thread) "invariant";;
      modify t set_transient;;
      mret (Some t)
  end.

Definition mspace_allocate_transient_lease (size : Z) (m : ptr) (thread : Thread)
  : M (option ptr) :=
  t ← mspace_allocate_transient size m thread;
  match t with
  | None => mret None
  | Some t =>
      assert_ 215 (acquired_by_self t thread) "invariant";;
      assert_ 216 (transient <$> deref t) "invaiant";;
      modify t set_lease;;
      mret (Some t)
  end.

Definition mspace_allocate_to_full (size : Z) (m : ptr) (thread : Thread)
  : M (option ptr) :=
  assert_ 223 (is_locked m) "invariant";;
  t ← mspace_allocate_acquired size m thread;
  match t with
  | None => mret None
  | Some t => insert_full_head m t;; mret (Some t)
  end.

(** [MspaceLock<Mspace> lock(mspace);] takes the lock where it is
    declared and gives it back on every way out of the scope. *)
Definition MspaceLock {A : Type} (m : ptr) (scope : M A) : M A :=
  lock m;;
  r ← scope;
  unlock m;;
  mret r.

Definition mspace_allocate_transient_to_full (size : Z) (m : ptr) (thread : Thread)
  : M (option ptr) :=
  t ← mspace_allocate_transient size m thread;
  match t with
  | None => mret None
  | Some t => MspaceLock m (insert_full_head m t;; mret (Some t))
  end.

Definition mspace_allocate_transient_lease_to_full
  (size : Z) (m : ptr) (thread : Thread) : M (option ptr) :=
  t ← mspace_allocate_transient_lease size m thread;
  match t with
  | None => mret None
  | Some t =>
      assert_ 252 (acquired_by_self t thread) "invariant";;
      assert_ 253 (transient <$> deref t) "invaiant";;
      assert_ 254 (lease <$> deref t) "invariant";;
      MspaceLock m (insert_full_head m t;; mret (Some t))
  end.

Definition mspace_allocate_transient_lease_to_free
  (size : Z) (m : ptr) (thread : Thread) : M (option ptr) :=
  t ← mspace_allocate_transient_lease size m thread;
  match t with
  | None => mret None
  | Some t =>
      assert_ 264 (acquired_by_self t thread) "invariant";;
      assert_ 265 (transient <$> deref t) "invaiant";;
      assert_ 266 (lease <$> deref t) "invariant";;
      MspaceLock m (insert_free_head m t;; mret (Some t))
  end.

Definition mspace_get_free (size : Z) (m : ptr) (thread : Thread)
  : M (option ptr) :=
  get m size thread.

Fixpoint mspace_get_free_with_retry_loop
  (size : Z) (m : ptr) (retries : nat) (thread : Thread) : M (option ptr) :=
  match retries with
  | O => mret None
  | S retries' =>
      t ← mspace_get_free size m thread;
      match t with
      | Some t => mret (Some t)
      | None => mspace_get_free_with_retry_loop size m retries' thread
      end
  end.

Definition mspace_get_free_with_retry
  (size : Z) (m : ptr) (retry_count : Z) (thread : Thread) : M (option ptr) :=
  assert_ 279 (min ← min_elem_size m; mret (size <=? min)) "invariant";;
  mspace_get_free_with_retry_loop size m (Z.to_nat retry_count) thread.

Definition mspace_get_free_with_detach (size : Z) (m : ptr) (thread : Thread)
  : M (option ptr) :=
  t ← mspace_get_free size m thread;
  match t with
  | Some t => remove_free m t;; mret (Some t)
  | None => mret None
  end.

Definition move_to_head (t : ptr) (from to : list ptr)
  : res (list ptr * list ptr) :=
  check 381 (JfrDoubleLinkedList.in_list t from) "invariant";;
  match JfrDoubleLinkedList.remove t from with
  | Some from' => Ok (from', JfrDoubleLinkedList.prepend t to)
  | None => Fail Fault
  end.

Definition mspace_get_free_to_full (size : Z) (m : ptr) (thread : Thread)
  : M (option ptr) :=
  assert_ 300 (min ← min_elem_size m; mret (size <=? min)) "invariant";;
  assert_ 301 (is_locked m) "invariant";;
  t ← mspace_get_free size m thread;
  match t with
  | None => mret None
  | Some t =>
      assert_ 306 (acquired_by_self t thread) "invariant";;
      this ← load_mspace m;
      lists ← lift (move_to_head t (_free this) (_full this));
      modify_mspace m (λ ms, with_full (lists.2) (with_free (lists.1) ms));;
      mret (Some t)
  end.

Definition mspace_get_to_full (size : Z) (m : ptr) (thread : Thread)
  : M (option ptr) :=
  size' ← size_adjustment size m;
  MspaceLock m (
    min ← min_elem_size m;
    if size' <=? min then
      t ← mspace_get_free_to_full size' m thread;
      match t with
      | Some t => mret (Some t)
      | None => mspace_allocate_to_full size' m thread
      end
    else mspace_allocate_to_full size' m thread).

Definition mspace_get_free_lease_with_retry
  (size : Z) (m : ptr) (retry_count : Z) (thread : Thread) : M (option ptr) :=
  t ← mspace_get_free_with_retry size m retry_count thread;
  match t with
  | Some t => modify t set_lease;; mret (Some t)
  | None => mret None
  end.

(** [mspace_get_lease] calls [mspace_get_free_lease], which neither
    this file nor any other defines: the callee is a parameter. *)
Definition mspace_get_lease
  (mspace_get_free_lease : Z → ptr → Thread → M (option ptr))
  (size : Z) (m : ptr) (thread : Thread) : M (option ptr) :=
  t ← mspace_get_free_lease size m thread;
  match t with
  | Some t =>
      assert_ 338 (acquired_by_self t thread) "invariant";;
      assert_ 339 (lease <$> deref t) "invariant";;
      mret (Some t)
  | None =>
      t ← mspace_allocate_transient_to_full size m thread;
      match t with
      | Some t => modify t set_lease;; mret (Some t)
      | None => mret None
      end
  end.

Definition mspace_release_full (t m : ptr) : M unit :=
  assert_ 352 (b ← deref t; mret (unflushed_size b =? 0)) "invariant";;
  assert_ 354 (is_locked m) "invariant";;
  release_full m t.

Definition mspace_release_free (t m : ptr) : M unit :=
  assert_ 361 (b ← deref t; mret (unflushed_size b =? 0)) "invariant";;
  assert_ 363 (is_locked m) "invariant";;
  release_free m t.

Definition mspace_release_full_critical (t m : ptr) : M unit :=
  MspaceLock m (mspace_release_full t m).

Definition mspace_release_free_critical (t m : ptr) : M unit :=
  MspaceLock m (mspace_release_free t m).

(** *** Migration of outstanding writes *)

(** [memcpy(dst, src, n)] between positions of two buffers.  Copying
    between overlapping regions, or outside the storage of either
    buffer, is undefined: [Fault]. *)
Definition memcpy (dst : ptr) (dst_pos : Z) (src : ptr) (src_pos : Z) (n : Z)
  : M unit :=
  s ← deref src;
  d ← deref dst;
  if bool_decide (dst = src ∧ Z.abs (dst_pos - src_pos) < n) then fail Fault
  else if bool_decide (start s ≤ src_pos
                       ∧ src_pos + n ≤ start s + Z.of_nat (length (buf_data s))
                       ∧ start d ≤ dst_pos
                       ∧ dst_pos + n ≤ start d + Z.of_nat (length (buf_data d)))
  then
    modify dst (set_data (
      take (Z.to_nat (dst_pos - start d)) (buf_data d)
      ++ take (Z.to_nat n) (drop (Z.to_nat (src_pos - start s)) (buf_data s))
      ++ drop (Z.to_nat (dst_pos - start d + n)) (buf_data d)))
  else fail Fault.

Definition assert_migration_state (old new_buffer : ptr) (used requested : Z)
  : M unit :=
  assert_ 447 (o ← deref old; mret (pos o >=? start o)) "invariant";;
  assert_ 448 (o ← deref old; mret (pos o + used <=? end_ o)) "invariant";;
  assert_ 449 (n ← deref new_buffer;
           mret (free_size n >=? to_size_t (used + requested))) "invariant".

Definition migrate_outstanding_writes (old new_buffer : ptr) (used requested : Z)
  : M unit :=
  (if ASSERT then assert_migration_state old new_buffer used requested
   else mret ());;
  if used >? 0 then
    o ← deref old;
    n ← deref new_buffer;
    memcpy new_buffer (pos n) old (pos o) used
  else mret ().
(** *** The destructor *)

(** [while (iter.has_next()) { t = iter.next(); _full.remove(t);
    deallocate(t); }] over the nodes of the iterator. *)
Fixpoint drain_full (m : ptr) (nodes : list ptr) : M unit :=
  match nodes with
  | [] => mret ()
  | t :: nodes' => remove_full m t;; deallocate m t;; drain_full m nodes'
  end.
Fixpoint drain_free (m : ptr) (nodes : list ptr) : M unit :=
  match nodes with
  | [] => mret ()
  | t :: nodes' => remove_free m t;; deallocate m t;; drain_free m nodes'
  end.

Definition JfrMemorySpace_destructor (m : ptr) : M unit :=
  this ← load_mspace m;
  drain_full m (Iterator (_full this) forward);;
  this ← load_mspace m;
  drain_free m (Iterator (_free this) forward).

(** *** Iteration *)

(** [while (iterator.has_next()) { callback.process(iterator.next()); }];
    what [process] returns is dropped. *)
Fixpoint iterate_nodes (process : ptr → M bool) (nodes : list ptr) : M unit :=
  match nodes with
  | [] => mret ()
  | t :: nodes' => process t;; iterate_nodes process nodes'
  end.

Definition iterate (m : ptr) (process : ptr → M bool) (full : bool)
  (direction : jfr_iter_direction) : M unit :=
  this ← load_mspace m;
  iterate_nodes process (Iterator (if full then _full this else _free this) direction).

(** Modelled from the spec: [is_full_empty()] and [has_free()], of the
    class declaration, on the count of section 3. *)
Definition is_full_empty (m : ptr) : M bool :=
  this ← load_mspace m; mret (JfrDoubleLinkedList.count (_full this) =? 0).
Definition has_free (m : ptr) : M bool :=
  this ← load_mspace m; mret (negb (JfrDoubleLinkedList.count (_free this) =? 0)).

Definition process_free_list_iterator_control (process : ptr → M bool) (m : ptr)
  (direction : jfr_iter_direction) : M unit :=
  iterate m process false direction.

Definition process_full_list_iterator_control (process : ptr → M bool) (m : ptr)
  (direction : jfr_iter_direction) : M unit :=
  iterate m process true direction.

Definition process_full_list (process : ptr → M bool) (m : ptr)
  (direction : jfr_iter_direction) : M unit :=
  e ← is_full_empty m;
  if e : bool then mret ()
  else process_full_list_iterator_control process m direction.

Definition process_free_list (process : ptr → M bool) (m : ptr)
  (direction : jfr_iter_direction) : M unit :=
  assert_ 405 (has_free m) "invariant";;
  process_free_list_iterator_control process m direction.

(** *** [ReleaseOp] *)

(** [ReleaseOp<Mspace>::process], for an operation constructed on pool
    [m] with the flag [_release_full]. *)
Definition ReleaseOp_process (m : ptr) (_release_full : bool) (t : ptr) : M bool :=
  b ← deref t;
  if transient b then
    (if _release_full then mspace_release_full_critical t m
     else mspace_release_free_critical t m);;
    mret true
  else
    modify t reinitialize;;
    assert_ 436 (empty <$> deref t) "invariant";;
    assert_ 437 (negb <$> (retired <$> deref t)) "invariant";;
    modify t release;;
    mret true.
End Code.

(** ** A platform to run the code on *)

(** Modelled from the spec: a retrieval policy for the template parameter
    [RetrievalType], whose classes are not in this file.  Section 4.2 asks
    of [mspace_get_free] a free-list buffer that is idle and whose free
    size covers the request, marked acquired, or none.  This one takes
    the first such buffer from the head of the free list. *)
Fixpoint first_fit_scan (size : Z) (thread : Thread) (l : list ptr)
  (o : gmap ptr Buffer) : option ptr * gmap ptr Buffer :=
  match l with
  | [] => (None, o)
  | t :: l' =>
      match o !! t with
      | Some b =>
          if negb (retired b) && bool_decide (identity b = None)
             && (size <=? free_size b)
          then (Some t, <[t := set_identity (Some thread) b]> o)
          else first_fit_scan size thread l' o
      | None => first_fit_scan size thread l' o
      end
  end.

Definition first_fit (size : Z) (thread : Thread) (ms : Mspace)
  (o : gmap ptr Buffer) : option ptr * gmap ptr Buffer :=
  first_fit_scan size thread (_free ms) o.

(** Modelled from the spec: section 4.1 offers "free-list size <
    cache_count" for the cache policy. *)
Definition free_below_cache_count (ms : Mspace) : bool :=
  JfrDoubleLinkedList.count (_free ms) <? _cache_count ms.

Definition jfr_platform : Platform :=
  {| vm_page_size := 4096;
     sizeof_T := 64;
     Retrieval_get := first_fit;
     should_populate_cache := free_below_cache_count |}.

(** A machine with nothing on the heap, whose heap primitive follows
    [oracle]. *)
Definition boot (oracle : nat → bool) : Env := mkEnv ∅ ∅ 0 oracle None.
Definition never_fails : nat → bool := λ _, true.

(** The machine that a computation leaves behind, and the capacity of
    the buffer that an allocation returns. *)
Definition exec {A : Type} (c : M A) (env : Env) : Env :=
  match c env with Ok (_, env') => env' | Fail _ => env end.
Definition capacity_of_result (r : res (option ptr * Env)) : option Z :=
  match r with
  | Ok (Some t, env) => buf_size <$> objects env !! t
  | _ => None
  end.

(** Machines to run examples on: a pool that has not been initialised;
    a pool of two cached buffers of 4096 bytes; the same after thread 7
    has published a transient buffer to its full list; and two empty
    pools of one type, of 8192 and of 4096 bytes. *)
Definition cold_pool : Env :=
  exec (new_Mspace (JfrMemorySpace 4096 40960 4)) (boot never_fails).
Definition warm_pool : Env :=
  exec (@create_mspace jfr_platform PRODUCT 4096 40960 2) (boot never_fails).
Definition published : Env :=
  exec (@mspace_allocate_transient_to_full jfr_platform PRODUCT 100 1 7) warm_pool.
Definition two_pools : Env :=
  exec (@create_mspace jfr_platform PRODUCT 4096 40960 0)
    (exec (@create_mspace jfr_platform PRODUCT 8192 81920 0) (boot never_fails)).

(** The pool of [published] with its lock held; the same pool after
    thread 7 has moved a cached buffer to its full list, which then
    holds a cached and a transient buffer; and the pool of two cached
    buffers with a transient, leased buffer of thread 7 in its free
    list. *)
Definition held : Env := exec (lock 1) published.
Definition busy_pool : Env :=
  exec (@mspace_get_to_full jfr_platform PRODUCT 100 1 7) published.
Definition leased_free : Env :=
  exec (@mspace_allocate_transient_lease_to_free jfr_platform PRODUCT 100 1 7)
    warm_pool.


(** A heap primitive that refuses its third request only, and a pool of
    four buffers to be, created on a machine with that heap. *)
Definition refuses_third : nat → bool := λ n, negb (n =? 2)%nat.
Definition starved_pool : Env :=
  exec (new_Mspace (JfrMemorySpace 4096 40960 4)) (boot refuses_third).

(** A heap primitive that refuses its second request only, and a
    four-byte buffer with three bytes written next to an eight-byte one
    whose cursor is two bytes in. *)
Definition refuses_second : nat → bool := λ n, negb (n =? 1)%nat.
Definition migration_source : Buffer :=
  mkBuffer 8 4 8 8 None false false false [x01; x02; x03; x00].
Definition migration_target : Buffer :=
  mkBuffer 8 8 10 10 None false false false (replicate 8 x00).
Definition migration_env : Env :=
  mkEnv {[ 1%positive := migration_source; 2%positive := migration_target ]}
        ∅ 0 never_fails None.

(** ** Vocabulary of the statements *)

(** The machine after pool [m] has become [ms], and after buffer [t] has
    been given back to the heap. *)
Definition set_pool (m : ptr) (ms : Mspace) (env : Env) : Env :=
  with_pools (<[m := ms]> (pools env)) env.
Definition freed (t : ptr) (env : Env) : Env :=
  with_objects (delete t (objects env)) env.

(** Two stores with the same live buffers, each with the capacity and
    the transient and lease flags it has in the other. *)
Definition same_flags (o o' : gmap ptr Buffer) : Prop :=
  ∀ p, match o !! p, o' !! p with
       | Some b, Some b' =>
           transient b' = transient b ∧ lease b' = lease b
           ∧ buf_size b' = buf_size b
       | None, None => True
       | _, _ => False
       end.

(** What section 4.2 asks of the retrieval policy: what it returns is a
    member of the free list, acquired by the caller, with room for the
    request; it creates and destroys nothing and leaves capacities and
    the transient and lease flags alone. *)
Class RetrievalSpec (P : Platform) : Prop := {
  retrieval_member : ∀ size thread ms o t o',
    Retrieval_get size thread ms o = (Some t, o') → t ∈ _free ms;
  retrieval_acquired : ∀ size thread ms o t o',
    Retrieval_get size thread ms o = (Some t, o') →
    ∃ b, o' !! t = Some b ∧ identity b = Some thread ∧ size ≤ free_size b;
  retrieval_frame : ∀ size thread ms o r o',
    Retrieval_get size thread ms o = (r, o') → same_flags o o'
}.

(** The value that [size_adjustment] clamps to on pool [ms], and the
    machine once its [static] is initialised. *)
Definition static_value (ms : Mspace) (env : Env) : Z :=
  default (_min_elem_size ms) (size_adjustment_static env).
Definition cache_static (ms : Mspace) (env : Env) : Env :=
  match size_adjustment_static env with
  | Some _ => env
  | None => with_static (Some (_min_elem_size ms)) env
  end.

(** [failed_attempts size m thread n env env']: [n] calls of
    [mspace_get_free] in a row, each returning [NULL], lead from [env]
    to [env']. *)
Inductive failed_attempts `{P : Platform} (size : Z) (m : ptr) (thread : Thread)
  : nat → Env → Env → Prop :=
| failed_attempts_O env : failed_attempts size m thread 0 env env
| failed_attempts_S n env env' env'' :
    failed_attempts size m thread n env env' →
    mspace_get_free size m thread env' = Ok (None, env'') →
    failed_attempts size m thread (S n) env env''.

(** The size class [min_elem_size << k]. *)
Definition size_class (min_elem_size : Z) (k : nat) : Z :=
  min_elem_size * 2 ^ Z.of_nat k.

(** A [size_t] value. *)
Definition is_size_t (x : Z) : Prop := 0 ≤ x < 2 ^ 64.

(** The buffer that [allocate] leaves at a fresh address. *)
Definition fresh_buffer `{P : Platform} (capacity : Z) : Buffer :=
  (T_initialize sizeof_T capacity T_new).2.

(** The machine after a heap request has been granted for [b]. *)
Definition allocated (t : ptr) (b : Buffer) (env : Env) : Env :=
  with_heap_requests (S (heap_requests env))
    (with_objects (<[t := b]> (objects env)) env).
Definition refused (env : Env) : Env :=
  with_heap_requests (S (heap_requests env)) env.

(** The byte at position [a] of a buffer, and the buffers whose storage
    is as long as their capacity says. *)
Definition byte_at (b : Buffer) (a : Z) : option byte :=
  if decide (start b ≤ a) then buf_data b !! Z.to_nat (a - start b) else None.
Definition storage_ok (b : Buffer) : Prop :=
  Z.of_nat (length (buf_data b)) = buf_size b.

(** The buffers of the free list are distinct, alive, and of capacity
    [capacity]. *)
Definition cache_of (capacity : Z) (env : Env) (ms : Mspace) : Prop :=
  NoDup (_free ms)
  ∧ ∀ t, t ∈ _free ms →
      ∃ b, objects env !! t = Some b ∧ buf_size b = capacity.

(** The two lists of a pool share no buffer, hold none twice, and hold
    live buffers only. *)
Definition lists_ok (env : Env) (ms : Mspace) : Prop :=
  NoDup (_free ms ++ _full ms)
  ∧ ∀ t, t ∈ _free ms ++ _full ms → is_Some (objects env !! t).

(** Whether the buffer at [t] is alive and transient, and what
    [ReleaseOp] leaves at the address of a buffer. *)
Definition transient_in (env : Env) (t : ptr) : bool :=
  match objects env !! t with
  | Some b => transient b
  | None => false
  end.
Definition released (b : Buffer) : option Buffer :=
  if transient b then None else Some (release (reinitialize b)).

(** ** Properties *)

(** *** Running the monad *)

Lemma bind_Ok {A B} (c : M A) (f : A → M B) env a env' :
  c env = Ok (a, env') → (c ≫= f) env = f a env'.
Proof. intros H. unfold mbind, M_bind. by rewrite H. Qed.

Ltac unfold_monad :=
  unfold mbind, M_bind, mret, M_ret, fmap, M_fmap, fail, lift,
         res_bind, res_ret in *.
Ltac unfold_env :=
  unfold set_pool, freed, allocated, refused, with_objects, with_pools, with_heap_requests,
         with_static in *;
  cbn [objects pools heap_requests heap_oracle size_adjustment_static] in *.

(** *** Machine integers *)

Lemma to_size_t_min_intx : to_size_t min_intx = 2 ^ 63.
Proof. reflexivity. Qed.

Lemma to_u8_small x : is_size_t x → to_u8 x = x.
Proof.
  intros Hx. unfold to_u8. rewrite Z.land_ones by lia.
  apply Z.mod_small. exact Hx.
Qed.

Lemma to_size_t_small x : is_size_t x → to_size_t x = x.
Proof. exact (to_u8_small x). Qed.

(** *** [align_allocation_size] *)

Lemma align_loop_doubles (fuel : nat) : ∀ r a,
  0 < a → r ≤ 2 ^ 63 → r ≤ size_class a fuel →
  ∃ k : nat, (k ≤ fuel)%nat
    ∧ align_loop fuel r a = Some (size_class a k)
    ∧ r ≤ size_class a k
    ∧ ∀ j : nat, (j < k)%nat → size_class a j < r.
Proof.
  unfold size_class.
  induction fuel as [|fuel IH]; intros r a Ha Hr Hfuel.
  - exists 0%nat. cbn [align_loop]. change (2 ^ Z.of_nat 0) with 1 in *.
    destruct (Z.gtb_spec r a); [lia|].
    rewrite Z.mul_1_r. repeat split; [lia..|]. intros j Hj. lia.
  - cbn [align_loop]. destruct (Z.gtb_spec r a) as [Hgt|Hle].
    + rewrite Z.shiftl_mul_pow2 by lia. change (2 ^ 1) with 2.
      rewrite to_u8_small by (unfold is_size_t; lia).
      rewrite Nat2Z.inj_succ, Z.pow_succ_r in Hfuel by lia.
      destruct (IH r (a * 2)) as (k & Hk & Hloop & Hge & Hmin); [lia..|].
      exists (S k). rewrite Nat2Z.inj_succ, Z.pow_succ_r by lia.
      replace (a * (2 * 2 ^ Z.of_nat k)) with (a * 2 * 2 ^ Z.of_nat k) by lia.
      repeat split; [lia|done|done|].
      intros [|j] Hj.
      * change (2 ^ Z.of_nat 0) with 1. lia.
      * rewrite Nat2Z.inj_succ, Z.pow_succ_r by lia.
        specialize (Hmin j ltac:(lia)). lia.
    + exists 0%nat. change (2 ^ Z.of_nat 0) with 1. rewrite Z.mul_1_r.
      repeat split; [lia|lia|]. intros j Hj. lia.
Qed.

(** With a minimum of zero the loop never ends, whatever the fuel. *)
Lemma align_loop_zero (fuel : nat) r : 0 < r → align_loop fuel r 0 = None.
Proof.
  intros Hr. induction fuel as [|fuel IH]; cbn [align_loop];
    destruct (Z.gtb_spec r 0); try lia; [done|].
  exact IH.
Qed.

(** When the model's 64 shifts do not suffice, no number of shifts
    does. *)
Lemma align_loop_out_of_fuel r a :
  is_size_t a → r ≤ 2 ^ 63 → align_loop 64 r a = None →
  ∀ fuel, align_loop fuel r a = None.
Proof.
  intros Hsz Hr Hnone fuel.
  destruct (Z.eq_dec a 0) as [->|Hne].
  - apply align_loop_zero. destruct (Z.lt_ge_cases 0 r) as [|Hle]; [done|].
    cbn [align_loop] in Hnone. by destruct (Z.gtb_spec r 0); [lia|].
  - destruct (align_loop_doubles 64 r a) as (k & _ & Hsome & _); [..|congruence].
    + unfold is_size_t in Hsz. lia.
    + done.
    + unfold size_class, is_size_t in *. change (2 ^ Z.of_nat 64) with (2 ^ 64). lia.
Qed.

(** More fuel than the model's 64 shifts changes nothing: from a
    minimum that is not zero the loop is over before the fuel is. *)
Lemma align_loop_fuel (fuel : nat) r a :
  0 < a → is_size_t a → r ≤ 2 ^ 63 → (64 ≤ fuel)%nat →
  align_loop fuel r a = align_loop 64 r a.
Proof.
  intros Ha Hsz Hr Hfuel.
  assert (H64 : r ≤ size_class a 64).
  { unfold size_class. change (2 ^ Z.of_nat 64) with (2 ^ 64). lia. }
  assert (Hf : r ≤ size_class a fuel).
  { unfold size_class.
    assert (2 ^ 64 ≤ 2 ^ Z.of_nat fuel) by (apply Z.pow_le_mono_r; lia). nia. }
  destruct (align_loop_doubles 64 r a Ha Hr H64) as (k & _ & -> & Hk & Hmin).
  destruct (align_loop_doubles fuel r a Ha Hr Hf) as (k' & _ & -> & Hk' & Hmin').
  f_equal. f_equal.
  destruct (Nat.lt_trichotomy k k') as [Hlt|[->|Hlt]]; [|done|].
  - specialize (Hmin' k Hlt). lia.
  - specialize (Hmin k' Hlt). lia.
Qed.

Section Align.
Context `{P : Platform}.

(** In range, the result is the first size class that covers the
    request. *)
Lemma align_allocation_size_in_range requested min :
  0 < min → is_size_t min → requested ≤ 2 ^ 63 →
  ∃ k : nat,
    align_allocation_size PRODUCT requested min = Ok (size_class min k)
    ∧ requested ≤ size_class min k
    ∧ (∀ j : nat, (j < k)%nat → size_class min j < requested)
    ∧ is_size_t (size_class min k).
Proof.
  intros Hmin Hsz Hreq.
  assert (H64 : requested ≤ size_class min 64).
  { unfold size_class. change (2 ^ Z.of_nat 64) with (2 ^ 64). lia. }
  destruct (align_loop_doubles 64 requested min Hmin Hreq H64)
    as (k & _ & Hloop & Hge & Hleast).
  assert (Hfit : is_size_t (size_class min k)).
  { destruct k as [|k].
    - unfold size_class. change (2 ^ Z.of_nat 0) with 1.
      rewrite Z.mul_1_r. exact Hsz.
    - specialize (Hleast k ltac:(lia)). unfold size_class, is_size_t in *.
      rewrite Nat2Z.inj_succ, Z.pow_succ_r by lia.
      assert (0 < 2 ^ Z.of_nat k) by (apply Z.pow_pos_nonneg; lia). nia. }
  exists k. repeat split; try done; try apply Hfit.
  unfold align_allocation_size, check. cbn [andb].
  unfold mbind, res_bind, mret, res_ret.
  rewrite to_size_t_min_intx.
  destruct (Z.gtb_spec requested (2 ^ 63)); [lia|].
  rewrite (to_u8_small min Hsz), Hloop.
  by rewrite (to_size_t_small _ Hfit).
Qed.

(** Out of range, the result is the sentinel. *)
Lemma align_allocation_size_too_large requested min :
  2 ^ 63 < requested →
  align_allocation_size PRODUCT requested min = Ok 0.
Proof.
  intros Hreq. unfold align_allocation_size, check. cbn [andb].
  unfold mbind, res_bind, mret, res_ret. rewrite to_size_t_min_intx.
  destruct (Z.gtb_spec requested (2 ^ 63)); [done|lia].
Qed.

Lemma size_class_mono min (j k : nat) :
  0 < min → (j ≤ k)%nat → size_class min j ≤ size_class min k.
Proof.
  intros Hmin Hjk. unfold size_class.
  apply Z.mul_le_mono_nonneg_l; [lia|]. apply Z.pow_le_mono_r; lia.
Qed.

(** Monotone in the request, over the range. *)
Lemma align_allocation_size_mono r1 r2 min v1 v2 :
  0 < min → is_size_t min → r1 ≤ r2 → r2 ≤ 2 ^ 63 →
  align_allocation_size PRODUCT r1 min = Ok v1 →
  align_allocation_size PRODUCT r2 min = Ok v2 →
  v1 ≤ v2.
Proof.
  intros Hmin Hsz H12 H2 E1 E2.
  destruct (align_allocation_size_in_range r1 min)
    as (k1 & E1' & Hge1 & Hleast1 & _); [done|done|lia|].
  destruct (align_allocation_size_in_range r2 min)
    as (k2 & E2' & Hge2 & Hleast2 & _); [done..|].
  rewrite E1 in E1'. rewrite E2 in E2'.
  injection E1' as ->. injection E2' as ->.
  destruct (Nat.le_gt_cases k1 k2) as [Hle|Hgt].
  - by apply size_class_mono.
  - specialize (Hleast1 k2 Hgt). lia.
Qed.

(** A result that is itself in range is a fixed point. *)
Lemma align_allocation_size_idem requested min v :
  0 < min → is_size_t min → requested ≤ 2 ^ 63 →
  align_allocation_size PRODUCT requested min = Ok v →
  v ≤ 2 ^ 63 →
  align_allocation_size PRODUCT v min = Ok v.
Proof.
  intros Hmin Hsz Hreq E Hv.
  destruct (align_allocation_size_in_range requested min)
    as (k & E' & Hge & Hleast & _); [done..|].
  rewrite E in E'. injection E' as ->.
  destruct (align_allocation_size_in_range (size_class min k) min)
    as (k' & E' & Hge' & Hleast' & _); [done..|].
  rewrite E'. f_equal.
  destruct (Nat.lt_trichotomy k k') as [Hlt|[->|Hlt]]; [|done|].
  - specialize (Hleast' k Hlt). lia.
  - pose proof (size_class_mono min k' k Hmin ltac:(lia)). lia.
Qed.
End Align.

(** C4 (the code departs from the claim).  A request of [2^63] bytes
    on a pool whose elements are three pages of 4096 bytes is in range,
    and the doubling stops at [3 * 2^62], beyond the largest size the
    function means to return: the debug build stops at its last
    assertion, and in the product build the result is not a fixed point,
    aligning it again gives the sentinel 0. *)
Theorem align_allocation_size_exceeds_limit :
  @align_allocation_size jfr_platform PRODUCT (2 ^ 63) 12288 = Ok (3 * 2 ^ 62)
  ∧ to_size_t min_intx < 3 * 2 ^ 62
  ∧ @align_allocation_size jfr_platform PRODUCT (3 * 2 ^ 62) 12288 = Ok 0
  ∧ @align_allocation_size jfr_platform DEBUG (2 ^ 63) 12288
    = Fail (AssertionFailed 85 "invariant").
Proof. repeat split; vm_compute; reflexivity. Qed.

(** *** Running the code in the product build *)

Ltac mrun tac :=
  repeat (progress (cbn beta iota; cbn [negb andb orb fst snd]; unfold_env; tac;
                    rewrite ?lookup_insert_eq, ?insert_insert_eq)).

Lemma remove_member (t : ptr) (l : list ptr) :
  t ∈ l → JfrDoubleLinkedList.remove t l = Some (filter (λ x, x ≠ t) l).
Proof.
  intros Ht. unfold JfrDoubleLinkedList.remove, JfrDoubleLinkedList.in_list.
  by rewrite bool_decide_eq_true_2.
Qed.

Lemma not_in_removed (t : ptr) (l : list ptr) : t ∉ filter (λ x, x ≠ t) l.
Proof. by intros [? _]%list_elem_of_filter. Qed.

Section Release.
Context `{P : Platform}.

Lemma release_full_run m t ms b env :
  pools env !! m = Some ms → objects env !! t = Some b → t ∈ _full ms →
  let ms' := with_full (filter (λ x, x ≠ t) (_full ms)) ms in
  release_full PRODUCT m t env
  = Ok ((), if transient b then freed t (set_pool m ms' env)
            else if should_populate_cache ms'
                 then set_pool m (with_free (t :: _free ms) ms') env
                 else freed t (set_pool m ms' env)).
Proof.
  intros Hm Hb Ht ms'.
  unfold release_full, remove_full, populate_cache, insert_free_head,
    deallocate, JfrCHeapObj_free, assert_, load_mspace, modify_mspace, deref.
  unfold_monad.
  mrun ltac:(rewrite ?Hm, ?Hb, ?(remove_member _ _ Ht)).
  destruct (transient b); mrun ltac:(rewrite ?Hb); [done|].
  fold ms'. destruct (should_populate_cache ms'); mrun ltac:(rewrite ?Hb); done.
Qed.

Lemma release_free_run m t ms b env :
  pools env !! m = Some ms → objects env !! t = Some b → t ∈ _free ms →
  let ms' := with_free (filter (λ x, x ≠ t) (_free ms)) ms in
  release_free PRODUCT m t env
  = Ok ((), if transient b then freed t (set_pool m ms' env)
            else if should_populate_cache ms then env
                 else freed t (set_pool m ms' env)).
Proof.
  intros Hm Hb Ht ms'.
  unfold release_free, remove_free, populate_cache,
    deallocate, JfrCHeapObj_free, assert_, load_mspace, modify_mspace, deref.
  unfold_monad.
  mrun ltac:(rewrite ?Hm, ?Hb, ?(remove_member _ _ Ht)).
  destruct (transient b);
    mrun ltac:(rewrite ?Hm, ?Hb, ?(remove_member _ _ Ht)); [done|].
  destruct (should_populate_cache ms);
    mrun ltac:(rewrite ?Hm, ?Hb, ?(remove_member _ _ Ht)); done.
Qed.

(** In the debug build the assertions of [release_full] hold, and the
    function does what it does in the product build, when the lock is
    held, the buffer is in the full list only, and a buffer that is not
    transient is empty, not retired and unowned. *)
Lemma release_full_debug m t ms b env :
  pools env !! m = Some ms → objects env !! t = Some b →
  t ∈ _full ms → t ∉ _free ms →
  _locked ms = true →
  (transient b = false →
   empty b = true ∧ retired b = false ∧ identity b = None) →
  release_full DEBUG m t env = release_full PRODUCT m t env.
Proof.
  intros Hm Hb Ht Hnot Hl Hidle.
  rewrite (release_full_run _ _ _ _ _ Hm Hb Ht).
  pose proof (not_in_removed t (_full ms)) as Hgone.
  unfold release_full, remove_full, populate_cache, insert_free_head,
    deallocate, JfrCHeapObj_free, assert_, is_locked, in_full_list,
    in_free_list, load_mspace, modify_mspace, deref,
    JfrDoubleLinkedList.in_list.
  unfold_monad.
  mrun ltac:(rewrite ?Hm, ?Hb, ?Hl, ?(remove_member _ _ Ht),
             ?(bool_decide_eq_true_2 _ Ht), ?(bool_decide_eq_false_2 _ Hgone),
             ?(bool_decide_eq_false_2 _ Hnot)).
  destruct (transient b).
  - mrun ltac:(rewrite ?Hm, ?Hb, ?(bool_decide_eq_false_2 _ Hgone),
               ?(bool_decide_eq_false_2 _ Hnot)). done.
  - destruct (Hidle eq_refl) as (He & Hr & Hi).
    mrun ltac:(rewrite ?He, ?Hr, ?(bool_decide_eq_true_2 _ Hi)).
    destruct (should_populate_cache _);
      mrun ltac:(rewrite ?Hm, ?Hb, ?(bool_decide_eq_false_2 _ Hgone),
                 ?(bool_decide_eq_false_2 _ Hnot)); done.
Qed.

Lemma release_free_debug m t ms b env :
  pools env !! m = Some ms → objects env !! t = Some b →
  t ∈ _free ms → t ∉ _full ms →
  _locked ms = true →
  (transient b = false →
   empty b = true ∧ retired b = false ∧ identity b = None) →
  release_free DEBUG m t env = release_free PRODUCT m t env.
Proof.
  intros Hm Hb Ht Hnot Hl Hidle.
  rewrite (release_free_run _ _ _ _ _ Hm Hb Ht).
  pose proof (not_in_removed t (_free ms)) as Hgone.
  unfold release_free, remove_free, populate_cache,
    deallocate, JfrCHeapObj_free, assert_, is_locked, in_full_list,
    in_free_list, load_mspace, modify_mspace, deref,
    JfrDoubleLinkedList.in_list.
  unfold_monad.
  mrun ltac:(rewrite ?Hm, ?Hb, ?Hl, ?(bool_decide_eq_true_2 _ Ht)).
  destruct (transient b).
  - mrun ltac:(rewrite ?Hm, ?Hb, ?(remove_member _ _ Ht),
               ?(bool_decide_eq_false_2 _ Hgone),
               ?(bool_decide_eq_false_2 _ Hnot)). done.
  - destruct (Hidle eq_refl) as (He & Hr & Hi).
    mrun ltac:(rewrite ?Hm, ?He, ?Hr, ?(bool_decide_eq_true_2 _ Hi)).
    destruct (should_populate_cache _);
      mrun ltac:(rewrite ?Hm, ?Hb, ?(remove_member _ _ Ht),
                 ?(bool_decide_eq_false_2 _ Hgone),
                 ?(bool_decide_eq_false_2 _ Hnot)); done.
Qed.

(** C1.  [release_full] takes the buffer out of the full list and
    [release_free] looks at a buffer of the free list.  A transient
    buffer goes back to the heap whatever the cache policy says; any
    other buffer is put at the head of the free list (respectively
    stays in it) when the policy says so, and goes back to the heap
    otherwise.  A transient buffer that was in one list only is in
    neither list afterwards, and is no longer alive. *)
Theorem release_spec m t ms b env :
  pools env !! m = Some ms →
  objects env !! t = Some b →
  (t ∈ _full ms →
   let ms' := with_full (filter (λ x, x ≠ t) (_full ms)) ms in
   release_full PRODUCT m t env
   = Ok ((), if transient b then freed t (set_pool m ms' env)
             else if should_populate_cache ms'
                  then set_pool m (with_free (t :: _free ms) ms') env
                  else freed t (set_pool m ms' env))
   ∧ (t ∉ _full ms'))
  ∧ (t ∈ _free ms →
     let ms' := with_free (filter (λ x, x ≠ t) (_free ms)) ms in
     release_free PRODUCT m t env
     = Ok ((), if transient b then freed t (set_pool m ms' env)
               else if should_populate_cache ms then env
                    else freed t (set_pool m ms' env))
     ∧ (t ∉ _free ms'))
  ∧ (transient b = true →
     (t ∈ _full ms → t ∉ _free ms →
      ∃ env' ms', release_full PRODUCT m t env = Ok ((), env')
        ∧ pools env' !! m = Some ms'
        ∧ (t ∉ _free ms') ∧ (t ∉ _full ms') ∧ objects env' !! t = None)
     ∧ (t ∈ _free ms → t ∉ _full ms →
        ∃ env' ms', release_free PRODUCT m t env = Ok ((), env')
          ∧ pools env' !! m = Some ms'
          ∧ (t ∉ _free ms') ∧ (t ∉ _full ms') ∧ objects env' !! t = None)).
Proof.
  intros Hm Hb. split_and!.
  - intros Ht ms'. split; [by apply release_full_run|apply not_in_removed].
  - intros Ht ms'. split; [by apply release_free_run|apply not_in_removed].
  - intros Htr. split; intros Ht Hnot.
    + eexists _, _. rewrite (release_full_run _ _ _ _ _ Hm Hb Ht), Htr.
      split; [done|]. unfold_env. rewrite lookup_insert_eq, lookup_delete_eq.
      split; [done|]. cbn. split_and!; [done|apply not_in_removed|done].
    + eexists _, _. rewrite (release_free_run _ _ _ _ _ Hm Hb Ht), Htr.
      split; [done|]. unfold_env. rewrite lookup_insert_eq, lookup_delete_eq.
      split; [done|]. cbn. split_and!; [apply not_in_removed|done|done].
Qed.
End Release.

(** *** Retrying retrieval *)

Section Retry.
Context `{P : Platform}.

Lemma mspace_get_free_run size m ms thread env :
  pools env !! m = Some ms →
  mspace_get_free size m thread env
  = Ok ((Retrieval_get size thread ms (objects env)).1,
        with_objects (Retrieval_get size thread ms (objects env)).2 env).
Proof.
  intros Hm. unfold mspace_get_free, get, load_mspace. unfold_monad.
  rewrite Hm. by destruct (Retrieval_get size thread ms (objects env)).
Qed.

Lemma mspace_get_free_frame size m ms thread env r env' :
  pools env !! m = Some ms →
  mspace_get_free size m thread env = Ok (r, env') →
  pools env' = pools env ∧ heap_requests env' = heap_requests env
  ∧ heap_oracle env' = heap_oracle env
  ∧ size_adjustment_static env' = size_adjustment_static env
  ∧ Retrieval_get size thread ms (objects env) = (r, objects env').
Proof.
  intros Hm. rewrite (mspace_get_free_run _ _ _ _ _ Hm).
  destruct (Retrieval_get size thread ms (objects env)) as [r0 o0].
  intros [= <- <-]. done.
Qed.

Lemma retrieval_dom `{!RetrievalSpec P} size thread ms o r o' :
  Retrieval_get size thread ms o = (r, o') → dom o' = dom o.
Proof.
  intros Hget. apply set_eq. intros p. rewrite !elem_of_dom.
  pose proof (retrieval_frame _ _ _ _ _ _ Hget p) as Hp.
  destruct (o !! p), (o' !! p); try done; split; intros [? ?]; done.
Qed.

Lemma retry_loop_run size m ms thread (n : nat) : ∀ env,
  pools env !! m = Some ms →
  ∃ r env', mspace_get_free_with_retry_loop size m n thread env = Ok (r, env')
    ∧ match r with
      | Some t =>
          ∃ (k : nat) env_k, (k < n)%nat
            ∧ failed_attempts size m thread k env env_k
            ∧ mspace_get_free size m thread env_k = Ok (Some t, env')
      | None => failed_attempts size m thread n env env'
      end
    ∧ heap_requests env' = heap_requests env
    ∧ pools env' = pools env
    ∧ (RetrievalSpec P → dom (objects env') = dom (objects env)).
Proof.
  revert n.
  assert (Hsnoc : ∀ k e1 e2 e3,
    mspace_get_free size m thread e1 = Ok (None, e2) →
    failed_attempts size m thread k e2 e3 →
    failed_attempts size m thread (S k) e1 e3).
  { intros k e1 e2 e3 Hfirst Hrest. induction Hrest as [|k e2 e3 e4 _ IH Hlast].
    - econstructor; [constructor|done].
    - econstructor; [by apply IH|done]. }
  induction n as [|n IH]; intros env Hm; cbn [mspace_get_free_with_retry_loop].
  - exists None, env. split_and!; try done. constructor.
  - destruct (mspace_get_free size m thread env) as [[r1 env1]|e] eqn:Hget.
    2: { rewrite (mspace_get_free_run _ _ _ _ _ Hm) in Hget. done. }
    destruct (mspace_get_free_frame _ _ _ _ _ _ _ Hm Hget)
      as (Hpools & Hreq & _ & _ & Hret).
    rewrite (bind_Ok _ _ _ _ _ Hget).
    destruct r1 as [t|].
    + exists (Some t), env1. split_and!; try done.
      * exists 0%nat, env. split_and!; [lia|constructor|done].
      * intros HS. by eapply retrieval_dom.
    + destruct (IH env1) as (r & env' & Hrun & Hr & Hreq' & Hpools' & Hdom).
      { by rewrite Hpools. }
      exists r, env'. split_and!; try congruence.
      * destruct r as [t|].
        -- destruct Hr as (k & env_k & Hk & Hfailed & Hlast).
           exists (S k), env_k. split_and!; [lia| |done]. by eapply Hsnoc.
        -- by eapply Hsnoc.
      * intros HS. rewrite (Hdom HS). by eapply retrieval_dom.
Qed.

(** C3.  [mspace_get_free_with_retry] calls [mspace_get_free] at most
    [retry_count] times: it returns the first buffer a call returns,
    after fewer than [retry_count] calls that returned none, and it
    returns none after exactly [retry_count] calls that all returned
    none, at once when the count is zero.  No request reaches the heap,
    no pool changes, and a retrieval policy that keeps to its contract
    leaves the set of live buffers as it was. *)
Theorem mspace_get_free_with_retry_spec size m ms retry_count thread env :
  pools env !! m = Some ms →
  ∃ r env',
    mspace_get_free_with_retry PRODUCT size m retry_count thread env
    = Ok (r, env')
    ∧ match r with
      | Some t =>
          ∃ (k : nat) env_k, (k < Z.to_nat retry_count)%nat
            ∧ failed_attempts size m thread k env env_k
            ∧ mspace_get_free size m thread env_k = Ok (Some t, env')
      | None =>
          failed_attempts size m thread (Z.to_nat retry_count) env env'
      end
    ∧ (retry_count = 0 → r = None ∧ env' = env)
    ∧ heap_requests env' = heap_requests env
    ∧ pools env' = pools env
    ∧ (RetrievalSpec P → dom (objects env') = dom (objects env)).
Proof.
  intros Hm.
  destruct (retry_loop_run size m ms thread (Z.to_nat retry_count) env Hm)
    as (r & env' & Hrun & Hr & Hreq & Hpools & Hdom).
  exists r, env'. split_and!; try done.
  intros ->. cbn in Hrun. by injection Hrun as <- <-.
Qed.

(** C10.  The first statement of [mspace_get_free_with_retry] asserts
    that the size is at most the pool's [min_elem_size].  When it is,
    the debug build passes the assertion and does what the product
    build does, which returns; when it is not, the debug build stops
    at the assertion, before any call of [mspace_get_free].  The
    product build does not look at the size: it runs the loop. *)
Theorem mspace_get_free_with_retry_assertion size m ms retry_count thread env :
  pools env !! m = Some ms →
  (size ≤ _min_elem_size ms →
   mspace_get_free_with_retry DEBUG size m retry_count thread env
   = mspace_get_free_with_retry PRODUCT size m retry_count thread env
   ∧ ∃ r env',
       mspace_get_free_with_retry DEBUG size m retry_count thread env
       = Ok (r, env'))
  ∧ (_min_elem_size ms < size →
     mspace_get_free_with_retry DEBUG size m retry_count thread env
     = Fail (AssertionFailed 279 "invariant"))
  ∧ mspace_get_free_with_retry PRODUCT size m retry_count thread env
    = mspace_get_free_with_retry_loop size m (Z.to_nat retry_count) thread env.
Proof.
  intros Hm.
  assert (Hdebug : mspace_get_free_with_retry DEBUG size m retry_count thread env
    = if size <=? _min_elem_size ms
      then mspace_get_free_with_retry_loop size m (Z.to_nat retry_count) thread env
      else Fail (AssertionFailed 279 "invariant")).
  { unfold mspace_get_free_with_retry, assert_, min_elem_size, load_mspace.
    unfold_monad. rewrite Hm. by destruct (size <=? _min_elem_size ms). }
  split_and!.
  - intros Hle. rewrite Hdebug.
    destruct (Z.leb_spec size (_min_elem_size ms)); [|lia].
    split; [done|].
    destruct (retry_loop_run size m ms thread (Z.to_nat retry_count) env Hm)
      as (r & env' & Hrun & _). eauto.
  - intros Hgt. rewrite Hdebug.
    destruct (Z.leb_spec size (_min_elem_size ms)); [lia|done].
  - done.
Qed.
End Retry.
(** *** Allocation *)

Section Allocate.
Context `{P : Platform}.

Lemma load_mspace_run m ms env :
  pools env !! m = Some ms → load_mspace m env = Ok (ms, env).
Proof. intros Hm. unfold load_mspace. by rewrite Hm. Qed.

Lemma allocate_aligned m ms size a env :
  pools env !! m = Some ms →
  align_allocation_size PRODUCT size (_min_elem_size ms) = Ok a →
  size = 0 ∨ a ≠ 0 →
  allocate PRODUCT m size env
  = if heap_oracle env (heap_requests env)
    then Ok (Some (fresh (dom (objects env))),
             allocated (fresh (dom (objects env))) (fresh_buffer a) env)
    else Ok (None, refused env).
Proof.
  intros Hm Ha Hnz. unfold allocate.
  rewrite (bind_Ok _ _ _ _ _ (load_mspace_run _ _ _ Hm)).
  unfold lift. rewrite Ha.
  unfold JfrCHeapObj_new_array, placement_new, deref, modify, JfrCHeapObj_free.
  unfold_monad.
  assert (negb (size =? 0) && (a =? 0) = false) as ->.
  { destruct Hnz as [->|Hnz]; [done|].
    destruct (Z.eqb_spec a 0); [done|]. apply andb_false_r. }
  destruct (heap_oracle env (heap_requests env)); [|done].
  unfold T_initialize, fresh_buffer. mrun idtac. done.
Qed.

Lemma allocate_rejected m ms size env :
  pools env !! m = Some ms →
  align_allocation_size PRODUCT size (_min_elem_size ms) = Ok 0 →
  size ≠ 0 →
  allocate PRODUCT m size env = Ok (None, env).
Proof.
  intros Hm Ha Hnz. unfold allocate.
  rewrite (bind_Ok _ _ _ _ _ (load_mspace_run _ _ _ Hm)).
  unfold lift. rewrite Ha. unfold_monad.
  by destruct (Z.eqb_spec size 0).
Qed.

(** A request for exactly the minimum takes no shift. *)
Lemma align_allocation_size_min min :
  is_size_t min →
  align_allocation_size PRODUCT min min
  = Ok (if 2 ^ 63 <? min then 0 else min).
Proof.
  intros Hsz. unfold align_allocation_size, check. cbn [andb].
  unfold_monad. rewrite to_size_t_min_intx, (to_u8_small _ Hsz).
  destruct (Z.gtb_spec min (2 ^ 63)), (Z.ltb_spec (2 ^ 63) min); try lia; [done|].
  cbn [align_loop]. rewrite Z.gtb_ltb, Z.ltb_irrefl.
  by rewrite (to_size_t_small _ Hsz).
Qed.

Lemma allocate_min_run m ms env :
  pools env !! m = Some ms →
  is_size_t (_min_elem_size ms) →
  allocate PRODUCT m (_min_elem_size ms) env
  = if 2 ^ 63 <? _min_elem_size ms then Ok (None, env)
    else if heap_oracle env (heap_requests env)
    then Ok (Some (fresh (dom (objects env))),
             allocated (fresh (dom (objects env)))
                       (fresh_buffer (_min_elem_size ms)) env)
    else Ok (None, refused env).
Proof.
  intros Hm Hsz. pose proof (align_allocation_size_min _ Hsz) as Ha.
  destruct (Z.ltb_spec (2 ^ 63) (_min_elem_size ms)).
  - apply (allocate_rejected _ _ _ _ Hm Ha). lia.
  - apply (allocate_aligned _ _ _ _ _ Hm Ha).
    destruct (Z.eq_dec (_min_elem_size ms) 0); [by left|by right].
Qed.
End Allocate.

(** *** Pre-allocation of the cache *)

Section Initialize.
Context `{P : Platform}.

Lemma fresh_not_alive (env : Env) :
  objects env !! fresh (dom (objects env)) = None.
Proof. apply not_elem_of_dom, is_fresh. Qed.

Lemma cache_of_grow m min env ms :
  cache_of min env ms →
  let t := fresh (dom (objects env)) in
  cache_of min (set_pool m (with_free (t :: _free ms) ms)
                  (allocated t (fresh_buffer min) env))
           (with_free (t :: _free ms) ms).
Proof.
  intros [Hnodup Halive] t. split; cbn [_free with_free].
  - constructor; [|done]. intros Hin.
    destruct (Halive _ Hin) as (b & Hb & _).
    pose proof (fresh_not_alive env) as Hfresh. fold t in Hfresh. congruence.
  - intros t' Hin. unfold_env. apply elem_of_cons in Hin as [->|Hin].
    + rewrite lookup_insert_eq. by eexists.
    + destruct (Halive _ Hin) as (b & Hb & Hsize).
      exists b. split; [|done]. rewrite lookup_insert_ne; [done|].
      intros <-. pose proof (fresh_not_alive env) as Hfresh.
      fold t in Hfresh. congruence.
Qed.

Lemma insert_free_head_run m t ms env :
  pools env !! m = Some ms →
  insert_free_head m t env
  = Ok ((), set_pool m (with_free (t :: _free ms) ms) env).
Proof. intros Hm. unfold insert_free_head, modify_mspace. by rewrite Hm. Qed.

Lemma initialize_loop_run m (n : nat) : ∀ env ms,
  pools env !! m = Some ms →
  is_size_t (_min_elem_size ms) →
  cache_of (_min_elem_size ms) env ms →
  ∃ ok env' ms',
    initialize_loop PRODUCT m n env = Ok (ok, env')
    ∧ pools env' !! m = Some ms'
    ∧ _full ms' = _full ms
    ∧ _cache_count ms' = _cache_count ms
    ∧ (ok = true ↔
       (n = 0%nat ∨ _min_elem_size ms ≤ 2 ^ 63)
       ∧ ∀ i : nat, (i < n)%nat →
           heap_oracle env (heap_requests env + i)%nat = true)
    ∧ (ok = true →
       length (_free ms') = (n + length (_free ms))%nat
       ∧ cache_of (_min_elem_size ms) env' ms')
    ∧ (ok = false → (length (_free ms') < n + length (_free ms))%nat).
Proof.
  induction n as [|n IH]; intros env ms Hm Hsz Hcache;
    cbn [initialize_loop].
  - exists true, env, ms. split_and!; try done. split; [|done].
    intros _. split; [by left|]. intros i Hi. lia.
  - rewrite (bind_Ok _ _ _ _ _ (load_mspace_run _ _ _ Hm)).
    pose proof (allocate_min_run _ _ _ Hm Hsz) as Halloc.
    destruct (Z.ltb_spec (2 ^ 63) (_min_elem_size ms)) as [Hbig|Hfits].
    { rewrite (bind_Ok _ _ _ _ _ Halloc).
      exists false, env, ms. split_and!; try done; [|lia].
      split; [done|]. intros [[?|?] _]; [done|lia]. }
    destruct (heap_oracle env (heap_requests env)) eqn:Horacle.
    2: { rewrite (bind_Ok _ _ _ _ _ Halloc).
         exists false, (refused env), ms. split_and!; try done; [|lia].
         split; [done|]. intros [_ Hall].
         specialize (Hall 0%nat ltac:(lia)). rewrite Nat.add_0_r in Hall.
         congruence. }
    rewrite (bind_Ok _ _ _ _ _ Halloc).
    set (t := fresh (dom (objects env))) in *.
    set (env1 := allocated t (fresh_buffer (_min_elem_size ms)) env).
    assert (Hm1 : pools env1 !! m = Some ms) by done.
    rewrite (bind_Ok _ _ _ _ _ (insert_free_head_run _ t _ _ Hm1)).
    set (ms2 := with_free (t :: _free ms) ms).
    destruct (IH (set_pool m ms2 env1) ms2)
      as (ok & env' & ms' & Hrun & Hm' & Hfull & Hcount & Hok & Hdone & Hnot).
    { unfold_env. by rewrite lookup_insert_eq. }
    { done. }
    { by apply cache_of_grow. }
    exists ok, env', ms'. split_and!; try done.
    + rewrite Hok. cbn [_min_elem_size ms2 with_free]. unfold_env.
      split; intros [Hn Hall]; (split; [by right|]).
      * intros [|i] Hi; [by rewrite Nat.add_0_r|].
        specialize (Hall i ltac:(lia)).
        by replace (heap_requests env + S i)%nat
          with (S (heap_requests env) + i)%nat by lia.
      * intros i Hi. specialize (Hall (S i) ltac:(lia)).
        by replace (heap_requests env + S i)%nat
          with (S (heap_requests env) + i)%nat in Hall by lia.
    + intros Htrue. destruct (Hdone Htrue) as [Hlen Hcache'].
      split; [|done]. rewrite Hlen. cbn. lia.
    + intros Hfalse. specialize (Hnot Hfalse). cbn in Hnot. lia.
Qed.

Lemma initialize_run m ms env :
  pools env !! m = Some ms →
  _free ms = [] →
  is_size_t (_min_elem_size ms) →
  0 ≤ _cache_count ms →
  ∃ ok env' ms',
    initialize PRODUCT m env = Ok (ok, env')
    ∧ pools env' !! m = Some ms'
    ∧ _full ms' = _full ms
    ∧ (ok = true ↔
       (_cache_count ms = 0 ∨ _min_elem_size ms ≤ 2 ^ 63)
       ∧ ∀ i : nat, (i < Z.to_nat (_cache_count ms))%nat →
           heap_oracle env (heap_requests env + i)%nat = true)
    ∧ (ok = true →
       JfrDoubleLinkedList.count (_free ms') = _cache_count ms
       ∧ cache_of (_min_elem_size ms) env' ms')
    ∧ (ok = false →
       JfrDoubleLinkedList.count (_free ms') < _cache_count ms).
Proof.
  intros Hm Hfree Hsz Hcount.
  destruct (initialize_loop_run m (Z.to_nat (_cache_count ms)) env ms)
    as (ok & env' & ms' & Hrun & Hm' & Hfull & _ & Hok & Hdone & Hnot);
    [done|done| |].
  { split; rewrite Hfree; [constructor|]. intros t Ht. by inversion Ht. }
  exists ok, env', ms'.
  assert (Hinit : initialize PRODUCT m env = Ok (ok, env')).
  { unfold initialize, assert_, load_mspace. unfold_monad.
    rewrite Hm, Hrun. by destruct ok. }
  unfold JfrDoubleLinkedList.count. rewrite Hfree in *. cbn [length] in *.
  split_and!; try done.
  - rewrite Hok. split; intros [Hn Hall]; (split; [|done]); lia.
  - intros Htrue. destruct (Hdone Htrue) as [-> ?]. split; [lia|done].
  - intros Hfalse. specialize (Hnot Hfalse). lia.
Qed.

(** C2.  On a pool as the constructor leaves it, with a cache count
    of [N], [initialize] returns.  When it returns true the free list
    has [N] buffers, distinct and alive, each of capacity
    [min_elem_size], and the full list is empty.  It returns false as
    soon as one of the [N] heap requests is refused. *)
Theorem initialize_spec m min_elem_size limit_size N env :
  pools env !! m = Some (JfrMemorySpace min_elem_size limit_size N) →
  is_size_t min_elem_size →
  0 ≤ N →
  ∃ ok env' ms',
    initialize PRODUCT m env = Ok (ok, env')
    ∧ pools env' !! m = Some ms'
    ∧ (ok = true →
       JfrDoubleLinkedList.count (_free ms') = N
       ∧ cache_of min_elem_size env' ms'
       ∧ _full ms' = [])
    ∧ ((∃ i : nat, (i < Z.to_nat N)%nat
          ∧ heap_oracle env (heap_requests env + i)%nat = false) →
       ok = false)
    ∧ (ok = true ↔
       (N = 0 ∨ min_elem_size ≤ 2 ^ 63)
       ∧ ∀ i : nat, (i < Z.to_nat N)%nat →
           heap_oracle env (heap_requests env + i)%nat = true).
Proof.
  intros Hm Hsz HN.
  destruct (initialize_run m _ env Hm)
    as (ok & env' & ms' & Hrun & Hm' & Hfull & Hok & Hdone & _); [done..|].
  exists ok, env', ms'. split_and!; try done.
  - intros Htrue. destruct (Hdone Htrue). done.
  - intros (i & Hi & Hrefused). destruct ok; [|done].
    destruct Hok as [[_ Hall] _]; [done|].
    cbn in Hall. specialize (Hall i Hi). congruence.
Qed.

(** C9.  When the heap grants the pool object, [create_mspace]
    returns the pool whatever [initialize] returned: a refused
    request among those for the cache makes [initialize] return false
    and leaves fewer than [cache_count] buffers in the free list of the
    pool the caller receives. *)
Theorem create_mspace_spec buffer_size limit cache_count env :
  is_size_t buffer_size →
  0 ≤ cache_count →
  heap_oracle env (heap_requests env) = true →
  let m := fresh (dom (pools env)) in
  ∃ ok env1 env' ms',
    new_Mspace (JfrMemorySpace buffer_size limit cache_count) env
    = Ok (Some m, env1)
    ∧ initialize PRODUCT m env1 = Ok (ok, env')
    ∧ create_mspace PRODUCT buffer_size limit cache_count env
      = Ok (Some m, env')
    ∧ pools env' !! m = Some ms'
    ∧ ((∃ i : nat, (i < Z.to_nat cache_count)%nat
          ∧ heap_oracle env (S (heap_requests env) + i)%nat = false) →
       ok = false)
    ∧ (ok = false →
       JfrDoubleLinkedList.count (_free ms') < cache_count).
Proof.
  intros Hsz Hcount Horacle m.
  set (ms := JfrMemorySpace buffer_size limit cache_count).
  set (env1 := with_pools (<[m := ms]> (pools env)) (refused env)).
  assert (Hnew : new_Mspace ms env = Ok (Some m, env1)).
  { unfold new_Mspace. by rewrite Horacle. }
  assert (Hm : pools env1 !! m = Some ms).
  { unfold env1. unfold_env. by rewrite lookup_insert_eq. }
  destruct (initialize_run m ms env1 Hm)
    as (ok & env' & ms' & Hrun & Hm' & _ & Hok & _ & Hnot); [done..|].
  exists ok, env1, env', ms'. split_and!; try done.
  - unfold create_mspace. rewrite (bind_Ok _ _ _ _ _ Hnew).
    by rewrite (bind_Ok _ _ _ _ _ Hrun).
  - intros (i & Hi & Hrefused). destruct ok; [|done].
    destruct Hok as [[_ Hall] _]; [done|].
    specialize (Hall i Hi). unfold env1 in Hall. unfold_env. congruence.
Qed.
End Initialize.

(** *** Migration of outstanding writes *)

Section Migrate.
Context `{P : Platform}.

Lemma to_size_t_le x : 0 ≤ x → to_size_t x ≤ x.
Proof.
  intros Hx. unfold to_size_t. rewrite Z.land_ones by lia.
  apply Z.mod_le; lia.
Qed.

(** The bytes of a buffer after [n] bytes of [src], from index [s],
    have been written over it from index [a]. *)
Lemma lookup_overwrite (d src : list byte) (a s n i : nat) :
  (a + n ≤ length d)%nat → (s + n ≤ length src)%nat →
  (take a d ++ take n (drop s src) ++ drop (a + n) d) !! i
  = if decide (a ≤ i < a + n)%nat then src !! (s + (i - a))%nat else d !! i.
Proof.
  intros Hd Hs.
  assert (Hlen_take : length (take a d) = a) by (rewrite length_take; lia).
  assert (Hlen_mid : length (take n (drop s src)) = n).
  { rewrite length_take, length_drop. lia. }
  destruct (decide (i < a)%nat) as [Hlt|Hge].
  - rewrite lookup_app_l by lia. rewrite lookup_take_lt by lia.
    case_decide; [lia|done].
  - rewrite lookup_app_r by lia. rewrite Hlen_take.
    destruct (decide (i < a + n)%nat) as [Hmid|Hafter].
    + rewrite lookup_app_l by lia. rewrite lookup_take_lt by lia.
      rewrite lookup_drop. case_decide; [done|lia].
    + rewrite lookup_app_r by lia. rewrite Hlen_mid, lookup_drop.
      case_decide; [lia|]. f_equal. lia.
Qed.

Lemma length_overwrite (d src : list byte) (a s n : nat) :
  (a + n ≤ length d)%nat → (s + n ≤ length src)%nat →
  length (take a d ++ take n (drop s src) ++ drop (a + n) d) = length d.
Proof.
  intros Hd Hs. rewrite !length_app, !length_take, !length_drop. lia.
Qed.

(** C7.  In either build, for two distinct live buffers whose storage
    is as long as their capacity: when [old]'s cursor is consistent
    ([start ≤ pos] and [pos + used ≤ end]) and [new_buffer] has room
    for [used + requested] bytes from its own position on,
    [migrate_outstanding_writes] returns; it leaves the machine as it
    is when [used = 0], and otherwise changes nothing but the bytes of
    [new_buffer] at the [used] positions from [pos] on, which become
    the [used] bytes of [old] from its [pos] on. *)
Theorem migrate_outstanding_writes_spec
  build old new_buffer o n used requested env :
  objects env !! old = Some o →
  objects env !! new_buffer = Some n →
  old ≠ new_buffer →
  storage_ok o → storage_ok n →
  0 ≤ used → 0 ≤ requested →
  start o ≤ pos o → pos o + used ≤ end_ o →
  start n ≤ pos n → used + requested ≤ free_size n →
  (used = 0 →
   migrate_outstanding_writes build old new_buffer used requested env
   = Ok ((), env))
  ∧ ∃ data,
      migrate_outstanding_writes build old new_buffer used requested env
      = Ok ((), if used =? 0 then env
                else with_objects
                       (<[new_buffer := set_data data n]> (objects env)) env)
      ∧ length data = length (buf_data n)
      ∧ (∀ i, 0 ≤ i < used →
           byte_at (set_data data n) (pos n + i) = byte_at o (pos o + i)
           ∧ is_Some (byte_at o (pos o + i)))
      ∧ (∀ a, ¬ (pos n ≤ a < pos n + used) →
           byte_at (set_data data n) a = byte_at n a).
Proof.
  intros Ho Hn Hne Hso Hsn Hused Hreq Hstart Hend Hnstart Hroom.
  unfold storage_ok in *.
  assert (Hasserts :
    (if build then assert_migration_state build old new_buffer used requested
     else mret ()) env = Ok ((), env)).
  { destruct build; [|done].
    pose proof (to_size_t_le (used + requested) ltac:(lia)).
    assert ((pos o >=? start o) = true) as Ha1 by lia.
    assert ((pos o + used <=? end_ o) = true) as Ha2 by lia.
    assert ((free_size n >=? to_size_t (used + requested)) = true) as Ha3 by lia.
    unfold assert_migration_state, assert_, deref. unfold_monad.
    mrun ltac:(rewrite ?Ho, ?Hn, ?Ha1, ?Ha2, ?Ha3). done. }
  unfold migrate_outstanding_writes.
  rewrite (bind_Ok _ _ _ _ _ Hasserts).
  split.
  { intros ->. done. }
  destruct (Z.gtb_spec used 0) as [Hpos|Hzero].
  2: { assert (used = 0) as -> by lia. exists (buf_data n).
       split_and!; [done|done|intros; lia|done]. }
  set (a := Z.to_nat (pos n - start n)).
  set (s := Z.to_nat (pos o - start o)).
  set (k := Z.to_nat used).
  unfold free_size, end_, start, pos in *.
  assert (Hd : (a + k ≤ length (buf_data n))%nat) by lia.
  assert (Hs : (s + k ≤ length (buf_data o))%nat) by lia.
  exists (take a (buf_data n) ++ take k (drop s (buf_data o))
          ++ drop (a + k) (buf_data n)).
  split_and!.
  - unfold memcpy, deref, modify. unfold_monad. mrun ltac:(rewrite ?Ho, ?Hn).
    rewrite bool_decide_eq_false_2 by (intros [? _]; congruence).
    rewrite bool_decide_eq_true_2 by (unfold start; lia).
    rewrite Hn. destruct (Z.eqb_spec used 0); [lia|].
    unfold start. fold a s k.
    replace (Z.to_nat (buf_pos n - buf_header_size n + used)) with (a + k)%nat
      by lia.
    done.
  - by apply length_overwrite.
  - intros i Hi. unfold byte_at, start, set_data. cbn [buf_header_size buf_data].
    rewrite !decide_True by lia.
    rewrite lookup_overwrite by done.
    rewrite decide_True by lia.
    replace (s + (Z.to_nat (buf_pos n + i - buf_header_size n) - a))%nat
      with (Z.to_nat (buf_pos o + i - buf_header_size o)) by lia.
    split; [done|]. apply lookup_lt_is_Some. lia.
  - intros x Hx. unfold byte_at, start, set_data. cbn [buf_header_size buf_data].
    case_decide; [|done].
    rewrite lookup_overwrite by done.
    rewrite decide_False by lia. done.
Qed.
End Migrate.

(** *** The protocol functions in the product build *)

Section Protocol.
Context `{P : Platform}.

Lemma assert_bind {B} line cond msg (f : unit → M B) env :
  (assert_ PRODUCT line cond msg ≫= f) env = f () env.
Proof. done. Qed.

Lemma size_adjustment_run size m ms env :
  pools env !! m = Some ms →
  size_adjustment size m env
  = Ok (Z.max size (static_value ms env), cache_static ms env).
Proof.
  intros Hm.
  unfold size_adjustment, size_adjustment_min_elem_size, min_elem_size,
    load_mspace, static_value, cache_static.
  unfold_monad.
  destruct (size_adjustment_static env) as [v|]; unfold default; cbn [from_option id];
    rewrite ?Hm;
    match goal with |- context [?a <? ?b] => destruct (Z.ltb_spec a b) end;
    do 2 f_equal; lia.
Qed.

Lemma pools_cache_static ms env : pools (cache_static ms env) = pools env.
Proof. unfold cache_static. by destruct (size_adjustment_static env). Qed.
Lemma objects_cache_static ms env : objects (cache_static ms env) = objects env.
Proof. unfold cache_static. by destruct (size_adjustment_static env). Qed.
Lemma heap_requests_cache_static ms env :
  heap_requests (cache_static ms env) = heap_requests env.
Proof. unfold cache_static. by destruct (size_adjustment_static env). Qed.
Lemma heap_oracle_cache_static ms env :
  heap_oracle (cache_static ms env) = heap_oracle env.
Proof. unfold cache_static. by destruct (size_adjustment_static env). Qed.

(** [mspace_allocate] is [allocate] on the request clamped to the
    value of the [static], which is the pool's [min_elem_size] when
    this call is the one that initialises it. *)
Lemma mspace_allocate_run size m ms env :
  pools env !! m = Some ms →
  mspace_allocate PRODUCT size m env
  = allocate PRODUCT m (Z.max size (static_value ms env)) (cache_static ms env).
Proof.
  intros Hm. unfold mspace_allocate.
  by rewrite (bind_Ok _ _ _ _ _ (size_adjustment_run _ _ _ _ Hm)).
Qed.

Lemma allocate_run m ms size env :
  pools env !! m = Some ms →
  0 < _min_elem_size ms → is_size_t (_min_elem_size ms) →
  ∃ a, (size ≤ 2 ^ 63 → size ≤ a ∧ _min_elem_size ms ≤ a)
    ∧ allocate PRODUCT m size env
      = if 2 ^ 63 <? size then Ok (None, env)
        else if heap_oracle env (heap_requests env)
        then Ok (Some (fresh (dom (objects env))),
                 allocated (fresh (dom (objects env))) (fresh_buffer a) env)
        else Ok (None, refused env).
Proof.
  intros Hm Hmin Hsz. destruct (Z.ltb_spec (2 ^ 63) size) as [Hbig|Hfits].
  - exists 0. split; [lia|].
    apply (allocate_rejected _ _ _ _ Hm); [|lia].
    by apply align_allocation_size_too_large.
  - destruct (align_allocation_size_in_range size (_min_elem_size ms))
      as (k & Ha & Hge & _ & _); [done..|].
    pose proof (size_class_mono (_min_elem_size ms) 0 k Hmin ltac:(lia)) as H0.
    unfold size_class at 1 in H0. change (2 ^ Z.of_nat 0) with 1 in H0.
    exists (size_class (_min_elem_size ms) k). split; [lia|].
    apply (allocate_aligned _ _ _ _ _ Hm Ha). right. lia.
Qed.

Lemma acquire_run t b thread env :
  objects env !! t = Some b → identity b = None →
  acquire t thread env
  = Ok ((), with_objects (<[t := set_identity (Some thread) b]> (objects env)) env).
Proof.
  intros Hb Hid. unfold acquire, deref, modify. unfold_monad.
  by rewrite Hb, Hid, Hb.
Qed.

Lemma mspace_allocate_acquired_run size m ms thread env :
  pools env !! m = Some ms →
  0 < _min_elem_size ms → is_size_t (_min_elem_size ms) →
  let size' := Z.max size (static_value ms env) in
  let t := fresh (dom (objects env)) in
  ∃ a, (size' ≤ 2 ^ 63 → size' ≤ a ∧ _min_elem_size ms ≤ a)
    ∧ mspace_allocate_acquired PRODUCT size m thread env
      = if 2 ^ 63 <? size' then Ok (None, cache_static ms env)
        else if heap_oracle env (heap_requests env)
        then Ok (Some t,
                 allocated t (set_identity (Some thread) (fresh_buffer a))
                           (cache_static ms env))
        else Ok (None, refused (cache_static ms env)).
Proof.
  intros Hm Hmin Hsz size' t.
  assert (Hm0 : pools (cache_static ms env) !! m = Some ms)
    by by rewrite pools_cache_static.
  destruct (allocate_run m ms size' _ Hm0 Hmin Hsz) as (a & Ha & Halloc).
  exists a. split; [done|].
  rewrite heap_requests_cache_static, heap_oracle_cache_static,
    objects_cache_static in Halloc. fold t in Halloc.
  pose proof (mspace_allocate_run size m ms env Hm) as Hrun.
  fold size' in Hrun. rewrite <- Hrun in Halloc. clear Hrun.
  unfold mspace_allocate_acquired.
  destruct (2 ^ 63 <? size');
    [by rewrite (bind_Ok _ _ _ _ _ Halloc)|].
  destruct (heap_oracle env (heap_requests env));
    [|by rewrite (bind_Ok _ _ _ _ _ Halloc)].
  rewrite (bind_Ok _ _ _ _ _ Halloc).
  rewrite (bind_Ok _ _ _ _ _
    (acquire_run t (fresh_buffer a) thread
       (allocated t (fresh_buffer a) (cache_static ms env))
       (lookup_insert_eq _ _ _) eq_refl)).
  unfold_env. by rewrite insert_insert_eq.
Qed.

Lemma insert_full_head_run m t ms env :
  pools env !! m = Some ms →
  insert_full_head m t env
  = Ok ((), set_pool m (with_full (t :: _full ms) ms) env).
Proof. intros Hm. unfold insert_full_head, modify_mspace. by rewrite Hm. Qed.

Lemma mspace_allocate_to_full_run size m ms thread env :
  pools env !! m = Some ms →
  0 < _min_elem_size ms → is_size_t (_min_elem_size ms) →
  let size' := Z.max size (static_value ms env) in
  let t := fresh (dom (objects env)) in
  ∃ a, (size' ≤ 2 ^ 63 → size' ≤ a ∧ _min_elem_size ms ≤ a)
    ∧ mspace_allocate_to_full PRODUCT size m thread env
      = if 2 ^ 63 <? size' then Ok (None, cache_static ms env)
        else if heap_oracle env (heap_requests env)
        then Ok (Some t,
                 set_pool m (with_full (t :: _full ms) ms)
                   (allocated t (set_identity (Some thread) (fresh_buffer a))
                              (cache_static ms env)))
        else Ok (None, refused (cache_static ms env)).
Proof.
  intros Hm Hmin Hsz size' t.
  destruct (mspace_allocate_acquired_run size m ms thread env Hm Hmin Hsz)
    as (a & Ha & Hrun).
  exists a. split; [done|]. fold size' t in Hrun.
  unfold mspace_allocate_to_full.
  repeat (rewrite assert_bind; cbn beta).
  destruct (2 ^ 63 <? size'); [by rewrite (bind_Ok _ _ _ _ _ Hrun)|].
  destruct (heap_oracle env (heap_requests env));
    [|by rewrite (bind_Ok _ _ _ _ _ Hrun)].
  rewrite (bind_Ok _ _ _ _ _ Hrun).
  assert (Hm1 : pools (allocated t (set_identity (Some thread) (fresh_buffer a))
                         (cache_static ms env)) !! m = Some ms).
  { unfold_env. by rewrite pools_cache_static. }
  by rewrite (bind_Ok _ _ _ _ _ (insert_full_head_run m t ms _ Hm1)).
Qed.

Lemma mspace_get_free_to_full_run `{!RetrievalSpec P} size m ms thread env :
  pools env !! m = Some ms →
  mspace_get_free_to_full PRODUCT size m thread env
  = match Retrieval_get size thread ms (objects env) with
    | (Some t, o') =>
        Ok (Some t,
            set_pool m (with_full (t :: _full ms)
                          (with_free (filter (λ x, x ≠ t) (_free ms)) ms))
              (with_objects o' env))
    | (None, o') => Ok (None, with_objects o' env)
    end.
Proof.
  intros Hm. unfold mspace_get_free_to_full.
  repeat (rewrite assert_bind; cbn beta).
  rewrite (bind_Ok _ _ _ _ _ (mspace_get_free_run _ _ _ _ _ Hm)).
  destruct (Retrieval_get size thread ms (objects env)) as [[t|] o'] eqn:Hget;
    cbn [fst snd]; [|done].
  pose proof (retrieval_member _ _ _ _ _ _ Hget) as Hin.
  unfold load_mspace, modify_mspace, move_to_head, check, lift, assert_,
    JfrDoubleLinkedList.prepend.
  unfold_monad.
  mrun ltac:(rewrite ?Hm, ?(remove_member _ _ Hin)). done.
Qed.

Lemma lock_run m ms env :
  pools env !! m = Some ms → _locked ms = false →
  lock m env = Ok ((), set_pool m (with_locked true ms) env).
Proof.
  intros Hm Hl. unfold lock, load_mspace, modify_mspace. unfold_monad.
  by rewrite Hm, Hl, Hm.
Qed.

Lemma unlock_run m ms env :
  pools env !! m = Some ms →
  unlock m env = Ok ((), set_pool m (with_locked false ms) env).
Proof. intros Hm. unfold unlock, modify_mspace. by rewrite Hm. Qed.

Lemma MspaceLock_run {A} m ms (scope : M A) env r env' ms' :
  pools env !! m = Some ms → _locked ms = false →
  scope (set_pool m (with_locked true ms) env) = Ok (r, env') →
  pools env' !! m = Some ms' →
  MspaceLock m scope env = Ok (r, set_pool m (with_locked false ms') env').
Proof.
  intros Hm Hl Hscope Hm'. unfold MspaceLock.
  rewrite (bind_Ok _ _ _ _ _ (lock_run _ _ _ Hm Hl)).
  rewrite (bind_Ok _ _ _ _ _ Hscope).
  by rewrite (bind_Ok _ _ _ _ _ (unlock_run _ _ _ Hm')).
Qed.
End Protocol.

(** *** Getting a buffer into the full list *)

Section GetToFull.
Context `{P : Platform} `{!RetrievalSpec P}.

Lemma static_cache_static ms env :
  size_adjustment_static (cache_static ms env) = Some (static_value ms env).
Proof.
  unfold cache_static, static_value.
  by destruct (size_adjustment_static env) eqn:E.
Qed.

Lemma cache_static_done ms env v :
  size_adjustment_static env = Some v →
  cache_static ms env = env ∧ static_value ms env = v.
Proof. intros E. unfold cache_static, static_value. by rewrite E. Qed.

(** The fall-back of [mspace_get_to_full], on a machine whose [static]
    is set and does not exceed the request. *)
Lemma allocate_to_full_fallback size m ms thread env v :
  pools env !! m = Some ms →
  0 < _min_elem_size ms → is_size_t (_min_elem_size ms) →
  size_adjustment_static env = Some v → v ≤ size →
  let t := fresh (dom (objects env)) in
  ∃ a, (size ≤ 2 ^ 63 → size ≤ a)
    ∧ mspace_allocate_to_full PRODUCT size m thread env
      = if 2 ^ 63 <? size then Ok (None, env)
        else if heap_oracle env (heap_requests env)
        then Ok (Some t,
                 set_pool m (with_full (t :: _full ms) ms)
                   (allocated t (set_identity (Some thread) (fresh_buffer a))
                              env))
        else Ok (None, refused env).
Proof.
  intros Hm Hmin Hsz Hstatic Hv t.
  destruct (mspace_allocate_to_full_run size m ms thread env Hm Hmin Hsz)
    as (a & Ha & Hrun).
  destruct (cache_static_done ms env v Hstatic) as [Hcs Hsv].
  rewrite Hcs, Hsv in Hrun. rewrite Hsv in Ha.
  replace (Z.max size v) with size in * by lia.
  exists a. split; [|done]. intros Hfits. by apply Ha.
Qed.

End GetToFull.

(** *** Leases *)

Section Lease.
Context `{P : Platform} `{!RetrievalSpec P}.

Lemma same_flags_refl o : same_flags o o.
Proof. intros p. by destruct (o !! p). Qed.

Lemma same_flags_trans o1 o2 o3 :
  same_flags o1 o2 → same_flags o2 o3 → same_flags o1 o3.
Proof.
  intros H12 H23 p. specialize (H12 p). specialize (H23 p).
  destruct (o1 !! p), (o2 !! p), (o3 !! p); try done.
  destruct H12 as (? & ? & ?), H23 as (? & ? & ?). split_and!; congruence.
Qed.

Lemma failed_attempts_frame size m ms thread k env env_k :
  pools env !! m = Some ms →
  failed_attempts size m thread k env env_k →
  pools env_k = pools env ∧ same_flags (objects env) (objects env_k).
Proof.
  intros Hm Hfailed. induction Hfailed as [|k env env1 env2 _ IH Hlast].
  - split; [done|apply same_flags_refl].
  - destruct (IH Hm) as [Hpools Hflags].
    assert (Hm1 : pools env1 !! m = Some ms) by by rewrite Hpools.
    destruct (mspace_get_free_frame _ _ _ _ _ _ _ Hm1 Hlast)
      as (Hpools2 & _ & _ & _ & Hret).
    split; [congruence|].
    eapply same_flags_trans; [done|]. by eapply retrieval_frame.
Qed.

Lemma modify_run t b f env :
  objects env !! t = Some b →
  modify t f env = Ok ((), with_objects (<[t := f b]> (objects env)) env).
Proof. intros Hb. unfold modify. by rewrite Hb. Qed.

(** What a successful [mspace_get_free] followed by [set_lease] leaves. *)
Lemma get_free_then_lease size m ms thread env0 env t env1 :
  pools env !! m = Some ms →
  same_flags (objects env0) (objects env) →
  mspace_get_free size m thread env = Ok (Some t, env1) →
  ∃ b b1,
    objects env0 !! t = Some b
    ∧ objects env1 !! t = Some b1
    ∧ identity b1 = Some thread
    ∧ transient b1 = transient b
    ∧ t ∈ _free ms
    ∧ modify t set_lease env1
      = Ok ((), with_objects (<[t := set_lease b1]> (objects env1)) env1).
Proof.
  intros Hm Hflags Hget.
  destruct (mspace_get_free_frame _ _ _ _ _ _ _ Hm Hget)
    as (_ & _ & _ & _ & Hret).
  destruct (retrieval_acquired _ _ _ _ _ _ Hret) as (b1 & Hb1 & Hid & _).
  pose proof (retrieval_member _ _ _ _ _ _ Hret) as Hin.
  pose proof (same_flags_trans _ _ _ Hflags (retrieval_frame _ _ _ _ _ _ Hret) t)
    as Hframe.
  rewrite Hb1 in Hframe.
  destruct (objects env0 !! t) as [b|] eqn:Hb; [|done].
  destruct Hframe as (Htr & _ & _).
  exists b, b1. split_and!; try done. by apply modify_run.
Qed.

Lemma mspace_allocate_transient_to_full_run size m ms thread env :
  pools env !! m = Some ms → _locked ms = false →
  0 < _min_elem_size ms → is_size_t (_min_elem_size ms) →
  let size' := Z.max size (static_value ms env) in
  let t := fresh (dom (objects env)) in
  ∃ a,
    mspace_allocate_transient_to_full PRODUCT size m thread env
    = if 2 ^ 63 <? size' then Ok (None, cache_static ms env)
      else if heap_oracle env (heap_requests env)
      then Ok (Some t,
               set_pool m (with_full (t :: _full ms) ms)
                 (allocated t
                    (set_transient
                       (set_identity (Some thread) (fresh_buffer a)))
                    (cache_static ms env)))
      else Ok (None, refused (cache_static ms env)).
Proof.
  intros Hm Hl Hmin Hsz size' t.
  destruct (mspace_allocate_acquired_run size m ms thread env Hm Hmin Hsz)
    as (a & _ & Hrun). fold size' t in Hrun.
  exists a. unfold mspace_allocate_transient_to_full.
  destruct (2 ^ 63 <? size').
  { assert (Hnone : mspace_allocate_transient PRODUCT size m thread env
      = Ok (None, cache_static ms env)).
    { unfold mspace_allocate_transient. by rewrite (bind_Ok _ _ _ _ _ Hrun). }
    by rewrite (bind_Ok _ _ _ _ _ Hnone). }
  destruct (heap_oracle env (heap_requests env)).
  2: { assert (Hnone : mspace_allocate_transient PRODUCT size m thread env
         = Ok (None, refused (cache_static ms env))).
       { unfold mspace_allocate_transient. by rewrite (bind_Ok _ _ _ _ _ Hrun). }
       by rewrite (bind_Ok _ _ _ _ _ Hnone). }
  set (b0 := set_identity (Some thread) (fresh_buffer a)).
  set (env1 := allocated t b0 (cache_static ms env)) in *.
  assert (Hb0 : objects env1 !! t = Some b0)
    by (unfold env1; unfold_env; by rewrite lookup_insert_eq).
  assert (Htransient : mspace_allocate_transient PRODUCT size m thread env
    = Ok (Some t, with_objects (<[t := set_transient b0]> (objects env1)) env1)).
  { unfold mspace_allocate_transient.
    rewrite (bind_Ok _ _ _ _ _ Hrun), assert_bind.
    by rewrite (bind_Ok _ _ _ _ _ (modify_run _ _ _ _ Hb0)). }
  rewrite (bind_Ok _ _ _ _ _ Htransient).
  set (env2 := with_objects _ env1).
  assert (Hm2 : pools env2 !! m = Some ms).
  { unfold env2, env1. unfold_env. by rewrite pools_cache_static. }
  set (scope := insert_full_head m t ≫= λ _, mret (Some t)).
  assert (Hscope : scope (set_pool m (with_locked true ms) env2)
    = Ok (Some t, set_pool m (with_full (t :: _full ms) (with_locked true ms))
                    env2)).
  { unfold scope.
    assert (Hm3 : pools (set_pool m (with_locked true ms) env2) !! m
                  = Some (with_locked true ms))
      by (unfold_env; by rewrite lookup_insert_eq).
    rewrite (bind_Ok _ _ _ _ _ (insert_full_head_run m t _ _ Hm3)).
    unfold_monad. f_equal. f_equal. unfold_env. by rewrite insert_insert_eq. }
  rewrite (MspaceLock_run m ms scope env2 _ _
             (with_full (t :: _full ms) (with_locked true ms)) Hm2 Hl Hscope).
  - f_equal. f_equal. unfold env2, env1. unfold_env.
    rewrite !insert_insert_eq. unfold with_locked, with_full. cbn.
    by rewrite Hl.
  - unfold_env. by rewrite lookup_insert_eq.
Qed.

Lemma bind_inv {A B} (c : M A) (f : A → M B) env b env' :
  (c ≫= f) env = Ok (b, env') →
  ∃ a env1, c env = Ok (a, env1) ∧ f a env1 = Ok (b, env').
Proof.
  unfold mbind, M_bind. destruct (c env) as [[a env1]|]; [eauto|done].
Qed.

Lemma mret_inv {A} (a : A) env b env' :
  (mret a : M A) env = Ok (b, env') → b = a ∧ env' = env.
Proof. by intros [= <- <-]. Qed.

Lemma modify_mspace_objects m f env u env' :
  modify_mspace m f env = Ok (u, env') → objects env' = objects env.
Proof.
  unfold modify_mspace. destruct (pools env !! m); [|done].
  by intros [= _ <-].
Qed.

Lemma lock_objects m env u env' :
  lock m env = Ok (u, env') → objects env' = objects env.
Proof.
  unfold lock. intros (ms & env1 & Hload & Hrun)%bind_inv.
  unfold load_mspace in Hload. destruct (pools env !! m); [|done].
  injection Hload as <- <-. destruct (_locked _); [done|].
  by eapply modify_mspace_objects.
Qed.

Lemma size_adjustment_frame size m env v env0 :
  size_adjustment size m env = Ok (v, env0) →
  objects env0 = objects env ∧ pools env0 = pools env.
Proof.
  unfold size_adjustment, size_adjustment_min_elem_size, min_elem_size,
    load_mspace.
  unfold_monad. destruct (size_adjustment_static env); [by intros [= _ <-]|].
  destruct (pools env !! m); [|done]. by intros [= _ <-].
Qed.

(** What [allocate] returns is the fresh address, holding a fresh
    buffer, on every machine. *)
Lemma allocate_some m size env t env' :
  allocate PRODUCT m size env = Ok (Some t, env') →
  t = fresh (dom (objects env))
  ∧ ∃ a, env' = allocated t (fresh_buffer a) env.
Proof.
  intros Hrun. destruct (pools env !! m) as [ms|] eqn:Hm.
  2: { unfold allocate, load_mspace in Hrun. unfold_monad.
       by rewrite Hm in Hrun. }
  unfold allocate in Hrun.
  destruct (align_allocation_size PRODUCT size (_min_elem_size ms))
    as [a|e] eqn:Ha.
  2: { rewrite (bind_Ok _ _ _ _ _ (load_mspace_run _ _ _ Hm)) in Hrun.
       unfold lift in Hrun. rewrite Ha in Hrun. by unfold_monad. }
  fold (allocate PRODUCT m size) in Hrun.
  destruct (decide (size = 0 ∨ a ≠ 0)) as [Hnz|Hz].
  - rewrite (allocate_aligned _ _ _ _ _ Hm Ha Hnz) in Hrun.
    destruct (heap_oracle env (heap_requests env)); [|done].
    injection Hrun as <- <-. eauto.
  - assert (a = 0) as -> by lia. assert (size ≠ 0) as Hs by lia.
    by rewrite (allocate_rejected _ _ _ _ Hm Ha Hs) in Hrun.
Qed.

Lemma mspace_allocate_transient_some size m thread env t env' :
  mspace_allocate_transient PRODUCT size m thread env = Ok (Some t, env') →
  objects env !! t = None
  ∧ ∃ b, objects env' = <[t := b]> (objects env)
      ∧ transient b = true ∧ identity b = Some thread.
Proof.
  unfold mspace_allocate_transient, mspace_allocate_acquired, mspace_allocate.
  intros (r1 & env1 & Hacq & Hrun)%bind_inv.
  apply bind_inv in Hacq as (r2 & env2 & Halloc & Hacq).
  apply bind_inv in Halloc as (v & env0 & Hadj & Halloc).
  destruct (size_adjustment_frame _ _ _ _ _ Hadj) as [Hobj0 _].
  destruct r2 as [t2|].
  2: { apply mret_inv in Hacq as [-> ->]. by apply mret_inv in Hrun as [? _]. }
  destruct (allocate_some _ _ _ _ _ Halloc) as (Ht2 & a & ->).
  rewrite (bind_Ok _ _ _ _ _
    (acquire_run t2 (fresh_buffer a) thread _ (lookup_insert_eq _ _ _) eq_refl))
    in Hacq.
  apply mret_inv in Hacq as [-> ->].
  rewrite assert_bind in Hrun.
  set (b0 := set_identity (Some thread) (fresh_buffer a)) in *.
  set (env1 := with_objects _ _) in *.
  assert (Hb0 : objects env1 !! t2 = Some b0)
    by (unfold env1; unfold_env; by rewrite lookup_insert_eq).
  rewrite (bind_Ok _ _ _ _ _ (modify_run t2 b0 set_transient env1 Hb0)) in Hrun.
  apply mret_inv in Hrun as [[= <-] ->].
  split.
  - rewrite Ht2, <- Hobj0. apply not_elem_of_dom, is_fresh.
  - exists (set_transient b0). unfold env1. unfold_env.
    rewrite !insert_insert_eq, Hobj0. done.
Qed.

Lemma mspace_allocate_transient_to_full_some size m thread env t env' :
  mspace_allocate_transient_to_full PRODUCT size m thread env
  = Ok (Some t, env') →
  objects env !! t = None
  ∧ ∃ b, objects env' !! t = Some b
      ∧ transient b = true ∧ identity b = Some thread.
Proof.
  unfold mspace_allocate_transient_to_full.
  intros (r1 & env1 & Htr & Hrun)%bind_inv.
  destruct r1 as [t1|]; [|by apply mret_inv in Hrun as [? _]].
  destruct (mspace_allocate_transient_some _ _ _ _ _ _ Htr)
    as (Hfresh & b & Hobj & Hb & Hid).
  unfold MspaceLock in Hrun.
  apply bind_inv in Hrun as ([] & e1 & Hlock & Hrun).
  apply bind_inv in Hrun as (r & e2 & Hscope & Hrun).
  apply bind_inv in Hscope as ([] & e3 & Hins & Hret).
  apply bind_inv in Hrun as ([] & e4 & Hunlock & Hret2).
  apply mret_inv in Hret as [-> ->]. apply mret_inv in Hret2 as [[= <-] ->].
  apply lock_objects in Hlock.
  apply modify_mspace_objects in Hins, Hunlock.
  split; [done|]. exists b.
  rewrite Hunlock, Hins, Hlock, Hobj, lookup_insert_eq. done.
Qed.

(** C5, as amended.  On a live pool, a buffer that
    [mspace_get_free_lease_with_retry] hands out comes from the free
    list and has the lease flag set and the transient flag it had before
    the call: the flag is set without a look at the other.
    [mspace_get_lease] hands out what its callee
    [mspace_get_free_lease] found, as the callee left it.  When the
    callee found nothing, a buffer that [mspace_get_lease] hands out did
    not exist when the callee returned and is transient and leased; and
    on a pool whose lock is free and whose [min_elem_size] is a positive
    [size_t] the call returns. *)
Theorem lease_spec size m ms retry_count thread env :
  pools env !! m = Some ms →
  (∃ r env',
     mspace_get_free_lease_with_retry PRODUCT size m retry_count thread env
     = Ok (r, env')
     ∧ ∀ t, r = Some t →
         t ∈ _free ms
         ∧ ∃ b b', objects env !! t = Some b ∧ objects env' !! t = Some b'
             ∧ lease b' = true ∧ transient b' = transient b)
  ∧ (∀ (mspace_get_free_lease : Z → ptr → Thread → M (option ptr)) r0 env0,
       mspace_get_free_lease size m thread env = Ok (r0, env0) →
       match r0 with
       | Some t =>
           mspace_get_lease PRODUCT mspace_get_free_lease size m thread env
           = Ok (Some t, env0)
       | None =>
           (∀ t env',
              mspace_get_lease PRODUCT mspace_get_free_lease size m thread env
              = Ok (Some t, env') →
              objects env0 !! t = None
              ∧ ∃ b', objects env' !! t = Some b'
                  ∧ lease b' = true ∧ transient b' = true)
           ∧ (∀ ms0,
                pools env0 !! m = Some ms0 → _locked ms0 = false →
                0 < _min_elem_size ms0 → is_size_t (_min_elem_size ms0) →
                ∃ r env',
                  mspace_get_lease PRODUCT mspace_get_free_lease
                    size m thread env
                  = Ok (r, env'))
       end).
Proof.
  intros Hm. split.
  - destruct (retry_loop_run size m ms thread (Z.to_nat retry_count) env Hm)
      as (r & env1 & Hrun & Hr & _).
    unfold mspace_get_free_lease_with_retry.
    assert (Hretry :
      mspace_get_free_with_retry PRODUCT size m retry_count thread env
      = Ok (r, env1)) by done.
    rewrite (bind_Ok _ _ _ _ _ Hretry).
    destruct r as [t|].
    2: { exists None, env1. split; [done|]. by intros t [=]. }
    destruct Hr as (k & env_k & _ & Hfailed & Hlast).
    destruct (failed_attempts_frame _ _ _ _ _ _ _ Hm Hfailed) as [Hpools Hflags].
    assert (Hmk : pools env_k !! m = Some ms) by by rewrite Hpools.
    destruct (get_free_then_lease _ _ _ _ _ _ _ _ Hmk Hflags Hlast)
      as (b & b1 & Hb & Hb1 & _ & Htr & Hin & Hmod).
    rewrite (bind_Ok _ _ _ _ _ Hmod).
    eexists (Some t), _. split; [done|]. intros ? [= <-]. split; [done|].
    exists b, (set_lease b1). unfold_env. rewrite lookup_insert_eq.
    by split_and!.
  - intros g r0 env0 Hg. unfold mspace_get_lease.
    rewrite (bind_Ok _ _ _ _ _ Hg).
    destruct r0 as [t|]; [by repeat (rewrite assert_bind; cbn beta)|].
    split.
    + intros t env' (r1 & env1 & Hrun & Hlease)%bind_inv.
      destruct r1 as [t1|]; [|by apply mret_inv in Hlease as [? _]].
      destruct (mspace_allocate_transient_to_full_some _ _ _ _ _ _ Hrun)
        as (Hfresh & b & Hb & Htr & _).
      rewrite (bind_Ok _ _ _ _ _ (modify_run t1 b set_lease _ Hb)) in Hlease.
      apply mret_inv in Hlease as [[= <-] ->]. split; [done|].
      exists (set_lease b). unfold_env. by rewrite lookup_insert_eq.
    + intros ms0 Hm0 Hl Hmin Hsz.
      destruct (mspace_allocate_transient_to_full_run size m ms0 thread env0
                  Hm0 Hl Hmin Hsz) as (a & Hrun).
      destruct (2 ^ 63 <? Z.max size (static_value ms0 env0)).
      { rewrite (bind_Ok _ _ _ _ _ Hrun). by eexists None, _. }
      destruct (heap_oracle env0 (heap_requests env0)).
      2: { rewrite (bind_Ok _ _ _ _ _ Hrun). by eexists None, _. }
      rewrite (bind_Ok _ _ _ _ _ Hrun).
      set (t := fresh (dom (objects env0))) in *.
      set (b2 := set_transient (set_identity (Some thread) (fresh_buffer a))).
      set (env3 := set_pool m _ _).
      assert (Hb2 : objects env3 !! t = Some b2).
      { unfold env3. unfold_env. by rewrite lookup_insert_eq. }
      rewrite (bind_Ok _ _ _ _ _ (modify_run t b2 set_lease _ Hb2)).
      by eexists (Some t), _.
Qed.
End Lease.

(** *** The example platform *)

Lemma first_fit_scan_inv size thread l o r o' :
  first_fit_scan size thread l o = (r, o') →
  (r = None ∧ o' = o)
  ∨ ∃ t b, r = Some t ∧ t ∈ l ∧ o !! t = Some b ∧ size ≤ free_size b
      ∧ o' = <[t := set_identity (Some thread) b]> o.
Proof.
  induction l as [|t l IH]; cbn [first_fit_scan]; intros Hscan.
  - left. by injection Hscan as <- <-.
  - destruct (o !! t) as [b|] eqn:Hb.
    + destruct (negb (retired b) && bool_decide (identity b = None)
                && (size <=? free_size b)) eqn:Hfit.
      * injection Hscan as <- <-. right. exists t, b.
        apply andb_prop in Hfit as [_ Hroom].
        split_and!; try done; [apply list_elem_of_here|lia].
      * destruct (IH Hscan) as [?|(t' & b' & ? & ? & ? & ? & ?)]; [by left|].
        right. exists t', b'. split_and!; try done. by apply list_elem_of_further.
    + destruct (IH Hscan) as [?|(t' & b' & ? & ? & ? & ? & ?)]; [by left|].
      right. exists t', b'. split_and!; try done. by apply list_elem_of_further.
Qed.

Lemma first_fit_spec : RetrievalSpec jfr_platform.
Proof.
  split; cbn [Retrieval_get jfr_platform]; unfold first_fit.
  - intros size thread ms o t o' Hscan.
    destruct (first_fit_scan_inv _ _ _ _ _ _ Hscan)
      as [[? _]|(t' & b & [= <-] & Hin & _)]; done.
  - intros size thread ms o t o' Hscan.
    destruct (first_fit_scan_inv _ _ _ _ _ _ Hscan)
      as [[? _]|(t' & b & [= <-] & _ & Hb & Hroom & ->)]; [done|].
    exists (set_identity (Some thread) b). by rewrite lookup_insert_eq.
  - intros size thread ms o r o' Hscan p.
    destruct (first_fit_scan_inv _ _ _ _ _ _ Hscan)
      as [[_ ->]|(t & b & _ & _ & Hb & _ & ->)].
    + by destruct (o !! p).
    + destruct (decide (p = t)) as [->|Hne].
      * by rewrite Hb, lookup_insert_eq.
      * rewrite lookup_insert_ne by done. by destruct (o !! p).
Qed.

(** *** [mspace_allocate] and the [static] of [size_adjustment] *)

(** When the call is the first to reach [size_adjustment], or the
    [static] holds this pool's [min_elem_size], [mspace_allocate] is
    [allocate] on the request clamped to the pool's [min_elem_size]. *)
Lemma mspace_allocate_own_min `{P : Platform} size m ms env :
  pools env !! m = Some ms →
  size_adjustment_static env = None
  ∨ size_adjustment_static env = Some (_min_elem_size ms) →
  mspace_allocate PRODUCT size m env
  = allocate PRODUCT m (Z.max size (_min_elem_size ms)) (cache_static ms env).
Proof.
  intros Hm Hstatic. rewrite (mspace_allocate_run _ _ _ _ Hm).
  unfold static_value. by destruct Hstatic as [-> | ->].
Qed.

(** C8 (the code departs from the claim).  Two pools of one type, 1 with
    elements of 8192 bytes and 2 with elements of 4096 bytes.  After a
    first [mspace_allocate] on pool 1 the [static] of [size_adjustment]
    holds 8192, and a request for 0 bytes on pool 2 is clamped to 8192:
    the buffer has a capacity of 8192 bytes, where [allocate] on the
    request clamped to the pool's own minimum gives 4096. *)
Theorem mspace_allocate_clamps_to_first_pool :
  let env := exec (@mspace_allocate jfr_platform PRODUCT 0 1) two_pools in
  pools env !! 1%positive = Some (JfrMemorySpace 8192 81920 0)
  ∧ pools env !! 2%positive = Some (JfrMemorySpace 4096 40960 0)
  ∧ size_adjustment_static env = Some 8192
  ∧ capacity_of_result (@mspace_allocate jfr_platform PRODUCT 0 2 env)
    = Some 8192
  ∧ capacity_of_result (@allocate jfr_platform PRODUCT 2 (Z.max 0 4096) env)
    = Some 4096
  ∧ capacity_of_result (@mspace_allocate jfr_platform DEBUG 0 2 env)
    = Some 8192.
Proof. repeat split; vm_compute; reflexivity. Qed.

(** C5, the claim as stated fails.  On a pool with a cache of two
    buffers, in the debug build, where every assertion on the way
    passes, [mspace_get_free_lease_with_retry] sets the lease flag of
    the buffer at the head of the free list, whose transient flag is
    clear, and hands the buffer out so. *)
Lemma lease_without_transient :
  ∃ b env1 b1,
    objects warm_pool !! 2%positive = Some b
    ∧ transient b = false
    ∧ @mspace_get_free_lease_with_retry jfr_platform DEBUG 4096 1 1 7 warm_pool
      = Ok (Some 2%positive, env1)
    ∧ objects env1 !! 2%positive = Some b1
    ∧ lease b1 = true ∧ transient b1 = false.
Proof.
  eexists _, _, _.
  split; [vm_compute; reflexivity|].
  split; [reflexivity|].
  split; [vm_compute; reflexivity|].
  split; [vm_compute; reflexivity|].
  split; reflexivity.
Qed.


(** *** The scenarios of section 8 *)

Example align_three_minimums :
  @align_allocation_size jfr_platform DEBUG (4096 * 3) 4096 = Ok (4096 * 4).
Proof. reflexivity. Qed.

Example align_zero_request :
  @align_allocation_size jfr_platform DEBUG 0 4096 = Ok 4096.
Proof. reflexivity. Qed.

Example align_beyond_the_limit :
  @align_allocation_size jfr_platform PRODUCT (2 ^ 63 + 1) 4096 = Ok 0.
Proof. reflexivity. Qed.

Example align_zero_minimum :
  @align_allocation_size jfr_platform PRODUCT 1 0 = Fail Diverges.
Proof. reflexivity. Qed.

Example allocate_zero_bytes :
  capacity_of_result (@allocate jfr_platform DEBUG 1 0 warm_pool) = Some 4096.
Proof. vm_compute. reflexivity. Qed.

Example allocate_three_minimums :
  capacity_of_result (@allocate jfr_platform DEBUG 1 (4096 * 3) warm_pool)
  = Some (4096 * 4).
Proof. vm_compute. reflexivity. Qed.

Example warm_pool_lists :
  pools warm_pool !! 1%positive
  = Some (mkMspace [2; 1]%positive [] 4096 40960 2 false).
Proof. vm_compute. reflexivity. Qed.

Example published_lists :
  pools published !! 1%positive
  = Some (mkMspace [2; 1]%positive [3%positive] 4096 40960 2 false).
Proof. vm_compute. reflexivity. Qed.

(** *** The theorems at work on the example machines *)

Lemma release_spec_witness :
  let pool := mkMspace [2; 1]%positive [3%positive] 4096 40960 2 false in
  pools published !! 1%positive = Some pool
  ∧ @release_full jfr_platform PRODUCT 1 3 published
    = Ok ((), freed 3 (set_pool 1 (with_full [] pool) published))
  ∧ @release_free jfr_platform PRODUCT 1 2 published
    = Ok ((), freed 2 (set_pool 1 (with_free [1%positive] pool) published)).
Proof.
  intros pool.
  assert (Hm : pools published !! 1%positive = Some pool)
    by (vm_compute; reflexivity).
  assert (H3 : objects published !! 3%positive
               = Some (set_transient (set_identity (Some 7%positive)
                                        (@fresh_buffer jfr_platform 4096))))
    by (vm_compute; reflexivity).
  assert (H2 : objects published !! 2%positive
               = Some (@fresh_buffer jfr_platform 4096))
    by (vm_compute; reflexivity).
  split; [exact Hm|]. split.
  - destruct (release_spec (P:=jfr_platform) 1 3 pool _ published Hm H3)
      as (Hfull & _ & _).
    destruct Hfull as [Hrun _]; [set_solver|]. exact Hrun.
  - destruct (release_spec (P:=jfr_platform) 1 2 pool _ published Hm H2)
      as (_ & Hfree & _).
    destruct Hfree as [Hrun _]; [set_solver|]. exact Hrun.
Defined.

Lemma initialize_spec_witness :
  ∃ env' ms',
    @initialize jfr_platform PRODUCT 1 cold_pool = Ok (true, env')
    ∧ pools env' !! 1%positive = Some ms'
    ∧ JfrDoubleLinkedList.count (_free ms') = 4
    ∧ _full ms' = [].
Proof.
  assert (Hm : pools cold_pool !! 1%positive = Some (JfrMemorySpace 4096 40960 4))
    by (vm_compute; reflexivity).
  destruct (initialize_spec (P:=jfr_platform) 1 4096 40960 4 cold_pool Hm
              ltac:(unfold is_size_t; lia) ltac:(lia))
    as (ok & env' & ms' & Hrun & Hm' & Htrue & _ & Hiff).
  assert (Hok : ok = true).
  { apply Hiff. split; [right; lia|]. intros i _. reflexivity. }
  subst ok. destruct (Htrue eq_refl) as (Hcount & _ & Hfull).
  exists env', ms'. by split_and!.
Defined.

Lemma mspace_get_free_with_retry_spec_witness :
  ∃ env',
    @mspace_get_free_with_retry jfr_platform PRODUCT 100 1 3 7 cold_pool
    = Ok (None, env')
    ∧ failed_attempts (P:=jfr_platform) 100 1 7 3 cold_pool env'
    ∧ heap_requests env' = heap_requests cold_pool.
Proof.
  assert (Hm : pools cold_pool !! 1%positive = Some (JfrMemorySpace 4096 40960 4))
    by (vm_compute; reflexivity).
  destruct (mspace_get_free_with_retry_spec (P:=jfr_platform)
              100 1 _ 3 7 cold_pool Hm)
    as (r & env' & Hrun & Hr & _ & Hreq & _).
  assert (Hnone : ∃ e,
    @mspace_get_free_with_retry jfr_platform PRODUCT 100 1 3 7 cold_pool
    = Ok (None, e)) by (eexists; vm_compute; reflexivity).
  destruct Hnone as [e He]. rewrite He in Hrun. injection Hrun as <- <-.
  exists e. by split_and!.
Defined.

Lemma mspace_get_free_with_retry_assertion_witness :
  @mspace_get_free_with_retry jfr_platform DEBUG 5000 1 3 7 warm_pool
  = Fail (AssertionFailed 279 "invariant")
  ∧ @mspace_get_free_with_retry jfr_platform DEBUG 100 1 3 7 warm_pool
    = @mspace_get_free_with_retry jfr_platform PRODUCT 100 1 3 7 warm_pool.
Proof.
  set (pool := mkMspace [2; 1]%positive [] 4096 40960 2 false).
  assert (Hm : pools warm_pool !! 1%positive = Some pool)
    by (vm_compute; reflexivity).
  split.
  - destruct (mspace_get_free_with_retry_assertion (P:=jfr_platform)
                5000 1 pool 3 7 warm_pool Hm) as (_ & Hfail & _).
    apply Hfail. cbn. lia.
  - destruct (mspace_get_free_with_retry_assertion (P:=jfr_platform)
                100 1 pool 3 7 warm_pool Hm) as (Hpass & _ & _).
    apply Hpass. cbn. lia.
Defined.


Lemma migrate_outstanding_writes_spec_witness :
  ∃ data,
    @migrate_outstanding_writes DEBUG 1 2 3 2 migration_env
    = Ok ((), with_objects
                (<[2%positive := set_data data migration_target]>
                   (objects migration_env)) migration_env)
    ∧ byte_at (set_data data migration_target) 10 = Some x01
    ∧ byte_at (set_data data migration_target) 11 = Some x02
    ∧ byte_at (set_data data migration_target) 12 = Some x03
    ∧ byte_at (set_data data migration_target) 13 = Some x00.
Proof.
  destruct (migrate_outstanding_writes_spec DEBUG 1 2
              migration_source migration_target 3 2 migration_env
              eq_refl eq_refl ltac:(done) eq_refl eq_refl
              ltac:(lia) ltac:(lia)
              ltac:(vm_compute; discriminate) ltac:(vm_compute; discriminate)
              ltac:(vm_compute; discriminate) ltac:(vm_compute; discriminate))
    as (_ & data & Hrun & _ & Hcopy & Hframe).
  exists data. split; [exact Hrun|].
  destruct (Hcopy 0 ltac:(lia)) as [H0 _].
  destruct (Hcopy 1 ltac:(lia)) as [H1 _].
  destruct (Hcopy 2 ltac:(lia)) as [H2 _].
  pose proof (Hframe 13 ltac:(cbn; lia)) as H3.
  split_and!; [exact H0|exact H1|exact H2|exact H3].
Defined.

Lemma create_mspace_spec_witness :
  ∃ env' ms',
    @create_mspace jfr_platform PRODUCT 4096 40960 2 (boot refuses_second)
    = Ok (Some 1%positive, env')
    ∧ pools env' !! 1%positive = Some ms'
    ∧ JfrDoubleLinkedList.count (_free ms') < 2.
Proof.
  destruct (create_mspace_spec (P:=jfr_platform) 4096 40960 2
              (boot refuses_second)
              ltac:(unfold is_size_t; lia) ltac:(lia) eq_refl)
    as (ok & env1 & env' & ms' & _ & _ & Hrun & Hm' & Hfail & Hfew).
  exists env', ms'. split_and!; [exact Hrun|exact Hm'|].
  apply Hfew, Hfail. exists 0%nat. split; [cbn; lia|reflexivity].
Defined.

Lemma lease_spec_witness :
  let mspace_get_free_lease := λ size m thread,
    @mspace_get_free_lease_with_retry jfr_platform PRODUCT size m 1 thread in
  (∃ env' b',
     @mspace_get_free_lease_with_retry jfr_platform PRODUCT 100 1 1 7 warm_pool
     = Ok (Some 2%positive, env')
     ∧ objects env' !! 2%positive = Some b'
     ∧ lease b' = true ∧ transient b' = false)
  ∧ (∃ env',
       @mspace_get_lease jfr_platform PRODUCT mspace_get_free_lease
         100 1 7 warm_pool
       = Ok (Some 2%positive, env'))
  ∧ (∃ env' b',
       @mspace_get_lease jfr_platform PRODUCT mspace_get_free_lease
         100 1 7 cold_pool
       = Ok (Some 1%positive, env')
       ∧ objects env' !! 1%positive = Some b'
       ∧ lease b' = true ∧ transient b' = true).
Proof.
  intros mspace_get_free_lease.
  set (warm := mkMspace [2; 1]%positive [] 4096 40960 2 false).
  set (cold := JfrMemorySpace 4096 40960 4).
  assert (Hwarm : pools warm_pool !! 1%positive = Some warm)
    by (vm_compute; reflexivity).
  assert (Hcold : pools cold_pool !! 1%positive = Some cold)
    by (vm_compute; reflexivity).
  destruct (@lease_spec jfr_platform first_fit_spec 100 1 warm 1 7 warm_pool
              Hwarm) as [(r & env' & Hrun & Hr) Hlease].
  destruct (@lease_spec jfr_platform first_fit_spec 100 1 cold 1 7 cold_pool
              Hcold) as [_ Hfresh].
  split; [|split].
  - assert (Hsome : ∃ e,
      @mspace_get_free_lease_with_retry jfr_platform PRODUCT 100 1 1 7 warm_pool
      = Ok (Some 2%positive, e)) by (eexists; vm_compute; reflexivity).
    destruct Hsome as [e He]. rewrite He in Hrun. injection Hrun as <- <-.
    destruct (Hr _ eq_refl) as (_ & b & b' & Hb & Hb' & Hl & Htr).
    exists e, b'. split; [exact He|]. split; [exact Hb'|]. split; [exact Hl|].
    rewrite Htr. vm_compute in Hb. by injection Hb as <-.
  - assert (Hfound : ∃ e,
      mspace_get_free_lease 100 1%positive 7%positive warm_pool
      = Ok (Some 2%positive, e)) by (eexists; vm_compute; reflexivity).
    destruct Hfound as [e He]. exists e.
    exact (Hlease mspace_get_free_lease (Some 2%positive) e He).
  - assert (Hnothing : ∃ e,
      mspace_get_free_lease 100 1%positive 7%positive cold_pool
      = Ok (None, e)
      ∧ pools e !! 1%positive = Some cold)
      by (eexists; split; vm_compute; reflexivity).
    destruct Hnothing as (e0 & He0 & Hm0).
    destruct (Hfresh mspace_get_free_lease None e0 He0) as [Hflags Hreturns].
    destruct (Hreturns cold Hm0 eq_refl ltac:(cbn; lia)
                ltac:(unfold is_size_t; cbn; lia)) as (r1 & e1 & Hrun1).
    assert (Hsome : ∃ e,
      @mspace_get_lease jfr_platform PRODUCT mspace_get_free_lease
        100 1 7 cold_pool
      = Ok (Some 1%positive, e)) by (eexists; vm_compute; reflexivity).
    destruct Hsome as [e He]. rewrite He in Hrun1. injection Hrun1 as <- <-.
    destruct (Hflags _ _ He) as (_ & b' & Hb' & Hl & Htr).
    exists e, b'. split; [exact He|]. split; [exact Hb'|].
    split; [exact Hl|exact Htr].
Defined.

(** ** Further properties of the code *)

(** *** Size classes *)

Section SizeClasses.
Context `{P : Platform}.

(** X1.  In range, [align_allocation_size] returns the least size class
    [min_elem_size << k] that covers the request, which is a [size_t];
    a request that the minimum covers, a request of zero among them,
    gets the minimum itself. *)
Theorem align_least_size_class requested min :
  0 < min → is_size_t min → requested ≤ 2 ^ 63 →
  ∃ k : nat,
    align_allocation_size PRODUCT requested min = Ok (size_class min k)
    ∧ requested ≤ size_class min k
    ∧ (∀ j : nat, requested ≤ size_class min j → (k ≤ j)%nat)
    ∧ is_size_t (size_class min k)
    ∧ (requested ≤ min → size_class min k = min).
Proof.
  intros Hmin Hsz Hreq.
  destruct (align_allocation_size_in_range requested min Hmin Hsz Hreq)
    as (k & Hrun & Hge & Hleast & Hfit).
  exists k. split_and!; try done.
  - intros j Hj. destruct (Nat.le_gt_cases k j) as [|Hlt]; [done|].
    specialize (Hleast j Hlt). lia.
  - intros Hle. destruct k as [|k].
    + unfold size_class. change (2 ^ Z.of_nat 0) with 1. lia.
    + specialize (Hleast 0%nat ltac:(lia)). unfold size_class in Hleast.
      change (2 ^ Z.of_nat 0) with 1 in Hleast. lia.
Qed.

(** X2.  Over the range, a larger request never gets a smaller size. *)
Theorem align_monotone r1 r2 min :
  0 < min → is_size_t min → r1 ≤ r2 → r2 ≤ 2 ^ 63 →
  ∃ v1 v2,
    align_allocation_size PRODUCT r1 min = Ok v1
    ∧ align_allocation_size PRODUCT r2 min = Ok v2
    ∧ v1 ≤ v2.
Proof.
  intros Hmin Hsz H12 H2.
  destruct (align_allocation_size_in_range r1 min) as (k1 & E1 & _);
    [done|done|lia|].
  destruct (align_allocation_size_in_range r2 min) as (k2 & E2 & _);
    [done..|].
  eexists _, _. split_and!; [done|done|].
  by eapply (align_allocation_size_mono r1 r2 min).
Qed.

(** X3.  When the minimum is a power of two that is in range, the
    result of an in-range request is in range too, and aligning it
    again returns it unchanged. *)
Theorem align_power_of_two_fixed_point requested (j : nat) :
  (j ≤ 63)%nat → requested ≤ 2 ^ 63 →
  ∃ v,
    align_allocation_size PRODUCT requested (2 ^ Z.of_nat j) = Ok v
    ∧ v ≤ 2 ^ 63
    ∧ align_allocation_size PRODUCT v (2 ^ Z.of_nat j) = Ok v.
Proof.
  intros Hj Hreq.
  assert (Hmin : 0 < 2 ^ Z.of_nat j) by (apply Z.pow_pos_nonneg; lia).
  assert (Hsz : is_size_t (2 ^ Z.of_nat j)).
  { split; [lia|]. apply Z.pow_lt_mono_r; lia. }
  destruct (align_allocation_size_in_range requested _ Hmin Hsz Hreq)
    as (k & Hrun & Hge & Hleast & _).
  exists (size_class (2 ^ Z.of_nat j) k).
  assert (Hv : size_class (2 ^ Z.of_nat j) k ≤ 2 ^ 63).
  { unfold size_class in *. destruct k as [|k].
    - change (2 ^ Z.of_nat 0) with 1. rewrite Z.mul_1_r.
      apply Z.pow_le_mono_r; lia.
    - specialize (Hleast k ltac:(lia)).
      rewrite <- Z.pow_add_r in * by lia.
      assert (Z.of_nat j + Z.of_nat k < 63).
      { apply (Z.pow_lt_mono_r_iff 2); lia. }
      apply Z.pow_le_mono_r; lia. }
  split_and!; [done|done|].
  by apply (align_allocation_size_idem requested).
Qed.

(** X4.  With a minimum of zero and a request that is not, the loop of
    [align_allocation_size] never ends: no number of shifts gives a
    result, in either build. *)
Theorem align_zero_minimum_diverges build requested :
  0 < requested → requested ≤ 2 ^ 63 →
  (∀ fuel, align_loop fuel requested 0 = None)
  ∧ align_allocation_size build requested 0 = Fail Diverges.
Proof.
  intros Hpos Hreq. split; [intros fuel; by apply align_loop_zero|].
  unfold align_allocation_size, check.
  replace (Z.rem (to_int 0) vm_page_size =? 0) with true
    by reflexivity.
  rewrite andb_false_r. unfold_monad. rewrite to_size_t_min_intx.
  destruct (Z.gtb_spec requested (2 ^ 63)); [lia|].
  change (to_u8 0) with 0. by rewrite (align_loop_zero 64 requested Hpos).
Qed.
End SizeClasses.

(** *** Allocation and the cache *)

Section AllocationExtras.
Context `{P : Platform}.

Lemma fresh_buffer_fields capacity :
  buf_size (fresh_buffer capacity) = capacity
  ∧ empty (fresh_buffer capacity) = true
  ∧ identity (fresh_buffer capacity) = None
  ∧ transient (fresh_buffer capacity) = false
  ∧ lease (fresh_buffer capacity) = false
  ∧ retired (fresh_buffer capacity) = false
  ∧ free_size (fresh_buffer capacity) = capacity.
Proof.
  unfold fresh_buffer, T_initialize, empty, free_size, end_, pos, start.
  cbn. split_and!; try done; [apply Z.eqb_refl|lia].
Qed.

(** X5.  On a pool whose [min_elem_size] is a positive [size_t],
    [allocate] returns.  A request beyond [2^63] is turned down before
    the heap is asked and nothing changes.  Any other request costs one
    heap request: when it is refused nothing else changes; when it is
    granted the result is a new address holding an empty, unowned buffer
    with no flag set, whose capacity is the least size class that covers
    the request.  No other buffer and no pool changes; when the lists
    of the pool hold live buffers only, the new buffer is in neither of
    them. *)
Theorem allocate_spec m ms size env :
  pools env !! m = Some ms →
  0 < _min_elem_size ms → is_size_t (_min_elem_size ms) →
  ∃ r env',
    allocate PRODUCT m size env = Ok (r, env')
    ∧ pools env' = pools env
    ∧ match r with
      | Some t =>
          size ≤ 2 ^ 63
          ∧ heap_oracle env (heap_requests env) = true
          ∧ heap_requests env' = S (heap_requests env)
          ∧ objects env !! t = None
          ∧ (∀ p, p ≠ t → objects env' !! p = objects env !! p)
          ∧ ((∀ x, x ∈ _free ms ++ _full ms → is_Some (objects env !! x)) →
             t ∉ _free ms ++ _full ms)
          ∧ ∃ b (k : nat),
              objects env' !! t = Some b
              ∧ buf_size b = size_class (_min_elem_size ms) k
              ∧ size ≤ size_class (_min_elem_size ms) k
              ∧ (∀ j : nat, size ≤ size_class (_min_elem_size ms) j → (k ≤ j)%nat)
              ∧ empty b = true ∧ identity b = None
              ∧ transient b = false ∧ lease b = false ∧ retired b = false
      | None =>
          objects env' = objects env
          ∧ ((2 ^ 63 < size ∧ heap_requests env' = heap_requests env)
             ∨ (size ≤ 2 ^ 63
                ∧ heap_oracle env (heap_requests env) = false
                ∧ heap_requests env' = S (heap_requests env)))
      end.
Proof.
  intros Hm Hmin Hsz.
  destruct (Z.ltb_spec (2 ^ 63) size) as [Hbig|Hfits].
  - exists None, env. split_and!; try done.
    + apply (allocate_rejected _ _ _ _ Hm); [|lia].
      by apply align_allocation_size_too_large.
    + by left.
  - destruct (align_allocation_size_in_range size (_min_elem_size ms))
      as (k & Ha & Hge & Hleast & _); [done..|].
    pose proof (size_class_mono (_min_elem_size ms) 0 k Hmin ltac:(lia)) as H0.
    unfold size_class at 1 in H0. change (2 ^ Z.of_nat 0) with 1 in H0.
    rewrite (allocate_aligned _ _ _ _ _ Hm Ha) by (right; lia).
    destruct (heap_oracle env (heap_requests env)) eqn:Horacle.
    + eexists (Some _), _. split; [done|]. unfold_env.
      split_and!; try done.
      * apply not_elem_of_dom, is_fresh.
      * intros p Hp. by rewrite lookup_insert_ne.
      * intros Halive Hin. apply Halive in Hin as [b Hb].
        pose proof (is_fresh (dom (objects env))) as Hfresh.
        apply not_elem_of_dom in Hfresh. by rewrite Hfresh in Hb.
      * exists (fresh_buffer (size_class (_min_elem_size ms) k)), k.
        rewrite lookup_insert_eq.
        destruct (fresh_buffer_fields (size_class (_min_elem_size ms) k))
          as (? & ? & ? & ? & ? & ? & _).
        split_and!; try done.
        intros j Hj. destruct (Nat.le_gt_cases k j) as [|Hlt]; [done|].
        specialize (Hleast j Hlt). lia.
    + exists None, (refused env). split_and!; try done. by right.
Qed.

Lemma initialize_loop_refused m (n : nat) : ∀ (i : nat) env ms,
  pools env !! m = Some ms →
  is_size_t (_min_elem_size ms) → _min_elem_size ms ≤ 2 ^ 63 →
  cache_of (_min_elem_size ms) env ms →
  (i < n)%nat →
  (∀ j : nat, (j < i)%nat → heap_oracle env (heap_requests env + j)%nat = true) →
  heap_oracle env (heap_requests env + i)%nat = false →
  ∃ env' ms',
    initialize_loop PRODUCT m n env = Ok (false, env')
    ∧ pools env' !! m = Some ms'
    ∧ length (_free ms') = (i + length (_free ms))%nat
    ∧ cache_of (_min_elem_size ms) env' ms'
    ∧ _full ms' = _full ms
    ∧ heap_requests env' = (heap_requests env + i + 1)%nat.
Proof.
  induction n as [|n IH]; intros i env ms Hm Hsz Hfits Hcache Hi Hgranted Hrefused;
    [lia|].
  cbn [initialize_loop].
  rewrite (bind_Ok _ _ _ _ _ (load_mspace_run _ _ _ Hm)).
  pose proof (allocate_min_run _ _ _ Hm Hsz) as Halloc.
  destruct (Z.ltb_spec (2 ^ 63) (_min_elem_size ms)); [lia|].
  destruct i as [|i].
  - rewrite Nat.add_0_r in Hrefused. rewrite Hrefused in Halloc.
    rewrite (bind_Ok _ _ _ _ _ Halloc).
    exists (refused env), ms. split_and!; try done. unfold_env. lia.
  - pose proof (Hgranted 0%nat ltac:(lia)) as H0. rewrite Nat.add_0_r in H0.
    rewrite H0 in Halloc. rewrite (bind_Ok _ _ _ _ _ Halloc).
    set (t := fresh (dom (objects env))) in *.
    set (env1 := allocated t (fresh_buffer (_min_elem_size ms)) env).
    assert (Hm1 : pools env1 !! m = Some ms) by done.
    rewrite (bind_Ok _ _ _ _ _ (insert_free_head_run _ t _ _ Hm1)).
    set (ms2 := with_free (t :: _free ms) ms).
    destruct (IH i (set_pool m ms2 env1) ms2)
      as (env' & ms' & Hrun & Hm' & Hlen & Hcache' & Hfull & Hreq);
      try done.
    + unfold_env. by rewrite lookup_insert_eq.
    + by apply cache_of_grow.
    + lia.
    + intros j Hj. unfold env1. unfold_env. specialize (Hgranted (S j) ltac:(lia)).
      by replace (S (heap_requests env) + j)%nat
        with (heap_requests env + S j)%nat by lia.
    + unfold env1. unfold_env. by replace (S (heap_requests env) + i)%nat
        with (heap_requests env + S i)%nat by lia.
    + exists env', ms'. split_and!; try done.
      * rewrite Hlen. cbn. lia.
      * rewrite Hreq. unfold env1. unfold_env. lia.
Qed.

(** X6.  When the heap grants the first [i] requests of [initialize]
    and refuses the next, with [i] below the cache count, [initialize]
    returns false at once: no further request is made, and the [i]
    buffers it had allocated stay in the free list, alive. *)
Theorem initialize_stops_at_first_refusal m min_elem_size limit_size N env (i : nat) :
  pools env !! m = Some (JfrMemorySpace min_elem_size limit_size N) →
  is_size_t min_elem_size → min_elem_size ≤ 2 ^ 63 →
  (i < Z.to_nat N)%nat →
  (∀ j : nat, (j < i)%nat → heap_oracle env (heap_requests env + j)%nat = true) →
  heap_oracle env (heap_requests env + i)%nat = false →
  ∃ env' ms',
    initialize PRODUCT m env = Ok (false, env')
    ∧ pools env' !! m = Some ms'
    ∧ JfrDoubleLinkedList.count (_free ms') = Z.of_nat i
    ∧ cache_of min_elem_size env' ms'
    ∧ _full ms' = []
    ∧ heap_requests env' = (heap_requests env + i + 1)%nat.
Proof.
  intros Hm Hsz Hfits Hi Hgranted Hrefused.
  destruct (initialize_loop_refused m (Z.to_nat N) i env _ Hm)
    as (env' & ms' & Hrun & Hm' & Hlen & Hcache & Hfull & Hreq); try done.
  { split; [constructor|]. intros t Ht. by inversion Ht. }
  exists env', ms'. split_and!; try done.
  - unfold initialize, assert_, load_mspace. unfold_monad.
    rewrite Hm. cbn [_cache_count JfrMemorySpace]. by rewrite Hrun.
  - unfold JfrDoubleLinkedList.count. rewrite Hlen. cbn. lia.
Qed.
End AllocationExtras.

(** *** The lists of a pool *)

Lemma lists_ok_inv env ms :
  lists_ok env ms →
  NoDup (_free ms) ∧ NoDup (_full ms)
  ∧ (∀ x, x ∈ _free ms → x ∉ _full ms)
  ∧ (∀ x, x ∈ _free ms → is_Some (objects env !! x))
  ∧ (∀ x, x ∈ _full ms → is_Some (objects env !! x)).
Proof.
  intros [Hnodup Halive]. apply NoDup_app in Hnodup as (Hfree & Hdisj & Hfull).
  split_and!; try done; intros x Hx; apply Halive, elem_of_app; auto.
Qed.

Lemma lists_ok_intro env ms :
  NoDup (_free ms) → NoDup (_full ms) →
  (∀ x, x ∈ _free ms → x ∉ _full ms) →
  (∀ x, x ∈ _free ms → is_Some (objects env !! x)) →
  (∀ x, x ∈ _full ms → is_Some (objects env !! x)) →
  lists_ok env ms.
Proof.
  intros Hfree Hfull Hdisj Hafree Hafull. split.
  - by apply NoDup_app.
  - intros t [?|?]%elem_of_app; auto.
Qed.

Lemma elem_of_removed (t p : ptr) (l : list ptr) :
  p ∈ filter (λ x, x ≠ t) l ↔ p ≠ t ∧ p ∈ l.
Proof. exact (list_elem_of_filter (λ x, x ≠ t) l p). Qed.

Section ListsExtras.
Context `{P : Platform}.

(** X7.  [release_full] keeps the lists of the pool in order: after it
    they still share no buffer, hold none twice and hold live buffers
    only.  The buffer released has left the full list, and is in the
    free list exactly when it is still alive; every other buffer is
    where it was and as it was, the lock is as it was and the heap has
    not been asked for anything. *)
Theorem release_full_keeps_lists m t ms b env :
  pools env !! m = Some ms → objects env !! t = Some b →
  t ∈ _full ms → lists_ok env ms →
  ∃ env' ms',
    release_full PRODUCT m t env = Ok ((), env')
    ∧ pools env' !! m = Some ms'
    ∧ lists_ok env' ms'
    ∧ (t ∉ _full ms')
    ∧ (t ∈ _free ms' ↔ is_Some (objects env' !! t))
    ∧ (∀ p, p ≠ t →
         (p ∈ _free ms' ↔ p ∈ _free ms) ∧ (p ∈ _full ms' ↔ p ∈ _full ms)
         ∧ objects env' !! p = objects env !! p)
    ∧ _locked ms' = _locked ms
    ∧ heap_requests env' = heap_requests env.
Proof.
  intros Hm Hb Ht Hok.
  destruct (lists_ok_inv _ _ Hok) as (Hfree & Hfull & Hdisj & Hafree & Hafull).
  assert (Htfree : t ∉ _free ms) by (intros Hin; by apply (Hdisj t)).
  rewrite (release_full_run _ _ _ _ _ Hm Hb Ht).
  set (ms' := with_full (filter (λ x, x ≠ t) (_full ms)) ms).
  assert (Hfreed : ∃ ms2,
    pools (freed t (set_pool m ms' env)) !! m = Some ms2
    ∧ lists_ok (freed t (set_pool m ms' env)) ms2
    ∧ (t ∉ _full ms2)
    ∧ (t ∈ _free ms2 ↔ is_Some (objects (freed t (set_pool m ms' env)) !! t))
    ∧ (∀ p, p ≠ t →
         (p ∈ _free ms2 ↔ p ∈ _free ms) ∧ (p ∈ _full ms2 ↔ p ∈ _full ms)
         ∧ objects (freed t (set_pool m ms' env)) !! p = objects env !! p)
    ∧ _locked ms2 = _locked ms
    ∧ heap_requests (freed t (set_pool m ms' env)) = heap_requests env).
  { exists ms'. unfold_env. rewrite lookup_insert_eq, lookup_delete_eq.
    split_and!; try done.
    - apply lists_ok_intro; cbn [_free _full ms' with_full objects].
      + done.
      + by apply NoDup_filter.
      + intros x Hx [_ ?]%elem_of_removed. by apply (Hdisj x).
      + intros x Hx. assert (x ≠ t) by (intros ->; done).
        rewrite lookup_delete_ne by congruence. auto.
      + intros x [Hne Hx]%elem_of_removed. rewrite lookup_delete_ne by congruence. auto.
    - apply not_in_removed.
    - intros p Hp. cbn [_free _full ms' with_full].
      rewrite elem_of_removed, lookup_delete_ne by congruence. tauto. }
  destruct (transient b).
  { destruct Hfreed as (ms2 & ?). by exists (freed t (set_pool m ms' env)), ms2. }
  destruct (should_populate_cache ms').
  2: { destruct Hfreed as (ms2 & ?). by exists (freed t (set_pool m ms' env)), ms2. }
  eexists _, _. split; [done|]. unfold_env. rewrite lookup_insert_eq.
  split; [done|]. cbn [_free _full _locked ms' with_full with_free].
  split_and!; try done.
  - apply lists_ok_intro; cbn [_free _full with_full with_free objects].
    + by constructor.
    + by apply NoDup_filter.
    + intros x [->|Hx]%elem_of_cons [Hne ?]%elem_of_removed; [done|].
      by apply (Hdisj x).
    + intros x [->|Hx]%elem_of_cons; [by rewrite Hb|auto].
    + intros x [Hne Hx]%elem_of_removed. auto.
  - apply not_in_removed.
  - rewrite Hb. split; [by eexists|]. intros _. apply list_elem_of_here.
  - intros p Hp. rewrite elem_of_removed, elem_of_cons. tauto.
Qed.


(** X8.  [release_free] keeps the lists of the pool in order.  It never
    touches the full list; the buffer released is in the free list
    afterwards exactly when it is still alive; every other buffer is
    where it was and as it was. *)
Theorem release_free_keeps_lists m t ms b env :
  pools env !! m = Some ms → objects env !! t = Some b →
  t ∈ _free ms → lists_ok env ms →
  ∃ env' ms',
    release_free PRODUCT m t env = Ok ((), env')
    ∧ pools env' !! m = Some ms'
    ∧ lists_ok env' ms'
    ∧ _full ms' = _full ms
    ∧ (t ∈ _free ms' ↔ is_Some (objects env' !! t))
    ∧ (is_Some (objects env' !! t) ↔
       transient b = false ∧ should_populate_cache ms = true)
    ∧ (∀ p, p ≠ t →
         (p ∈ _free ms' ↔ p ∈ _free ms)
         ∧ objects env' !! p = objects env !! p)
    ∧ _locked ms' = _locked ms
    ∧ heap_requests env' = heap_requests env.
Proof.
  intros Hm Hb Ht Hok.
  destruct (lists_ok_inv _ _ Hok) as (Hfree & Hfull & Hdisj & Hafree & Hafull).
  rewrite (release_free_run _ _ _ _ _ Hm Hb Ht).
  set (ms' := with_free (filter (λ x, x ≠ t) (_free ms)) ms).
  assert (Hfreed : transient b = true ∨ should_populate_cache ms = false →
    pools (freed t (set_pool m ms' env)) !! m = Some ms'
    ∧ lists_ok (freed t (set_pool m ms' env)) ms'
    ∧ _full ms' = _full ms
    ∧ (t ∈ _free ms' ↔ is_Some (objects (freed t (set_pool m ms' env)) !! t))
    ∧ (is_Some (objects (freed t (set_pool m ms' env)) !! t) ↔
       transient b = false ∧ should_populate_cache ms = true)
    ∧ (∀ p, p ≠ t →
         (p ∈ _free ms' ↔ p ∈ _free ms)
         ∧ objects (freed t (set_pool m ms' env)) !! p = objects env !! p)
    ∧ _locked ms' = _locked ms
    ∧ heap_requests (freed t (set_pool m ms' env)) = heap_requests env).
  { intros Hwhy. unfold_env. rewrite lookup_insert_eq, lookup_delete_eq.
    split_and!; try done.
    - apply lists_ok_intro; cbn [_free _full ms' with_free objects].
      + by apply NoDup_filter.
      + done.
      + intros x [_ Hx]%elem_of_removed. by apply Hdisj.
      + intros x [Hne Hx]%elem_of_removed. rewrite lookup_delete_ne by congruence. auto.
      + intros x Hx. assert (x ≠ t) by (intros ->; by apply (Hdisj t)).
        rewrite lookup_delete_ne by congruence. auto.
    - cbn [_free ms' with_free]. split.
      + intros Hin. by apply not_in_removed in Hin.
      + intros [? Hsome]. discriminate Hsome.
    - split.
      + intros [? Hsome]. discriminate Hsome.
      + intros [? ?]. destruct Hwhy; congruence.
    - intros p Hp. cbn [_free ms' with_free].
      rewrite elem_of_removed, lookup_delete_ne by congruence. tauto. }
  destruct (transient b) eqn:Htr.
  { exists (freed t (set_pool m ms' env)), ms'. split; [done|]. apply Hfreed. by left. }
  destruct (should_populate_cache ms) eqn:Hpolicy.
  2: { exists (freed t (set_pool m ms' env)), ms'. split; [done|].
       apply Hfreed. by right. }
  exists env, ms. rewrite Hb. by split_and!.
Qed.
End ListsExtras.

(** *** The destructor *)

Section DestructorExtras.
Context `{P : Platform}.

Lemma deallocate_run build m t ms b env :
  pools env !! m = Some ms → objects env !! t = Some b →
  t ∉ _free ms → t ∉ _full ms →
  deallocate build m t env = Ok ((), freed t env).
Proof.
  intros Hm Hb Hfree Hfull.
  unfold deallocate, assert_, in_free_list, in_full_list, load_mspace,
    JfrCHeapObj_free, deref, JfrDoubleLinkedList.in_list.
  unfold_monad.
  destruct build;
    mrun ltac:(rewrite ?Hm, ?Hb, ?(bool_decide_eq_false_2 _ Hfree),
               ?(bool_decide_eq_false_2 _ Hfull)); done.
Qed.

Lemma remove_head (t : ptr) (l : list ptr) :
  t ∉ l → filter (λ x, x ≠ t) (t :: l) = l.
Proof.
  intros Ht. rewrite filter_cons_False by (intros ?; done).
  induction l as [|x l IH]; [done|].
  apply not_elem_of_cons in Ht as [Hne Ht].
  rewrite filter_cons_True by done. by rewrite IH.
Qed.

Lemma drain_full_run build m (nodes : list ptr) : ∀ env ms,
  pools env !! m = Some ms → _full ms = nodes → NoDup nodes →
  (∀ t, t ∈ nodes → (t ∉ _free ms) ∧ is_Some (objects env !! t)) →
  ∃ env',
    drain_full build m nodes env = Ok ((), env')
    ∧ pools env' = <[m := with_full [] ms]> (pools env)
    ∧ (∀ p, objects env' !! p
            = if decide (p ∈ nodes) then None else objects env !! p)
    ∧ heap_requests env' = heap_requests env.
Proof.
  induction nodes as [|t nodes IH]; intros env ms Hm Hfull Hnodup Hnodes;
    cbn [drain_full].
  - exists env. split; [done|]. split; [|split; [|done]].
    + rewrite <- Hfull. destruct ms. cbn. by rewrite insert_id.
    + intros p. by rewrite decide_False by (by intros ?%elem_of_nil).
  - apply NoDup_cons in Hnodup as [Hnotin Hnodup].
    destruct (Hnodes t) as [Htfree [b Hb]]; [apply list_elem_of_here|].
    set (ms1 := with_full nodes ms).
    assert (Hremove : remove_full m t env = Ok ((), set_pool m ms1 env)).
    { unfold remove_full, load_mspace, modify_mspace. unfold_monad.
      rewrite Hm, remove_member, Hm by (rewrite Hfull; apply list_elem_of_here).
      rewrite Hfull, (remove_head _ _ Hnotin). done. }
    rewrite (bind_Ok _ _ _ _ _ Hremove).
    assert (Hm1 : pools (set_pool m ms1 env) !! m = Some ms1)
      by (unfold_env; by rewrite lookup_insert_eq).
    rewrite (bind_Ok _ _ _ _ _
      (deallocate_run build m t ms1 b _ Hm1 Hb Htfree Hnotin)).
    destruct (IH (freed t (set_pool m ms1 env)) ms1)
      as (env' & Hrun & Hpools & Hobjects & Hreq); try done.
    { intros t' Ht'. destruct (Hnodes t') as [? ?]; [by apply list_elem_of_further|].
      split; [done|]. unfold_env. rewrite lookup_delete_ne; [done|].
      intros ->. done. }
    exists env'. split; [done|]. split; [|split; [|done]].
    + rewrite Hpools. unfold_env. by rewrite insert_insert_eq.
    + intros p. rewrite Hobjects. unfold_env.
      destruct (decide (p = t)) as [->|Hne].
      * rewrite lookup_delete_eq, (decide_True (P := t ∈ t :: nodes))
          by apply list_elem_of_here.
        by case_decide.
      * rewrite lookup_delete_ne by done.
        repeat case_decide; try done.
        -- exfalso. by apply H0, list_elem_of_further.
        -- apply elem_of_cons in H0 as [?|?]; done.
Qed.

Lemma drain_free_run build m (nodes : list ptr) : ∀ env ms,
  pools env !! m = Some ms → _free ms = nodes → NoDup nodes →
  (∀ t, t ∈ nodes → (t ∉ _full ms) ∧ is_Some (objects env !! t)) →
  ∃ env',
    drain_free build m nodes env = Ok ((), env')
    ∧ pools env' = <[m := with_free [] ms]> (pools env)
    ∧ (∀ p, objects env' !! p
            = if decide (p ∈ nodes) then None else objects env !! p)
    ∧ heap_requests env' = heap_requests env.
Proof.
  induction nodes as [|t nodes IH]; intros env ms Hm Hfree Hnodup Hnodes;
    cbn [drain_free].
  - exists env. split; [done|]. split; [|split; [|done]].
    + rewrite <- Hfree. destruct ms. cbn. by rewrite insert_id.
    + intros p. by rewrite decide_False by (by intros ?%elem_of_nil).
  - apply NoDup_cons in Hnodup as [Hnotin Hnodup].
    destruct (Hnodes t) as [Htfull [b Hb]]; [apply list_elem_of_here|].
    set (ms1 := with_free nodes ms).
    assert (Hremove : remove_free m t env = Ok ((), set_pool m ms1 env)).
    { unfold remove_free, load_mspace, modify_mspace. unfold_monad.
      rewrite Hm, remove_member, Hm by (rewrite Hfree; apply list_elem_of_here).
      rewrite Hfree, (remove_head _ _ Hnotin). done. }
    rewrite (bind_Ok _ _ _ _ _ Hremove).
    assert (Hm1 : pools (set_pool m ms1 env) !! m = Some ms1)
      by (unfold_env; by rewrite lookup_insert_eq).
    rewrite (bind_Ok _ _ _ _ _
      (deallocate_run build m t ms1 b _ Hm1 Hb Hnotin Htfull)).
    destruct (IH (freed t (set_pool m ms1 env)) ms1)
      as (env' & Hrun & Hpools & Hobjects & Hreq); try done.
    { intros t' Ht'. destruct (Hnodes t') as [? ?]; [by apply list_elem_of_further|].
      split; [done|]. unfold_env. rewrite lookup_delete_ne; [done|].
      intros ->. done. }
    exists env'. split; [done|]. split; [|split; [|done]].
    + rewrite Hpools. unfold_env. by rewrite insert_insert_eq.
    + intros p. rewrite Hobjects. unfold_env.
      destruct (decide (p = t)) as [->|Hne].
      * rewrite lookup_delete_eq, (decide_True (P := t ∈ t :: nodes))
          by apply list_elem_of_here.
        by case_decide.
      * rewrite lookup_delete_ne by done.
        repeat case_decide; try done.
        -- exfalso. by apply H0, list_elem_of_further.
        -- apply elem_of_cons in H0 as [?|?]; done.
Qed.

(** X9.  In either build, on a pool whose lists share no buffer, hold
    none twice and hold live buffers only, the destructor returns with
    both lists empty and every buffer that was in them given back to
    the heap; no other buffer is touched and none of its assertions
    fails. *)
Theorem destructor_frees_both_lists build m ms env :
  pools env !! m = Some ms → lists_ok env ms →
  ∃ env',
    JfrMemorySpace_destructor build m env = Ok ((), env')
    ∧ pools env' = <[m := with_free [] (with_full [] ms)]> (pools env)
    ∧ (∀ p, objects env' !! p
            = if decide (p ∈ _free ms ++ _full ms) then None
              else objects env !! p)
    ∧ heap_requests env' = heap_requests env.
Proof.
  intros Hm Hok.
  destruct (lists_ok_inv _ _ Hok) as (Hfree & Hfull & Hdisj & Hafree & Hafull).
  unfold JfrMemorySpace_destructor.
  rewrite (bind_Ok _ _ _ _ _ (load_mspace_run _ _ _ Hm)).
  destruct (drain_full_run build m (_full ms) env ms Hm eq_refl Hfull)
    as (env1 & Hrun1 & Hpools1 & Hobjects1 & Hreq1).
  { intros t Ht. split; [|auto]. intros Hin. by apply (Hdisj t). }
  cbn [Iterator]. rewrite (bind_Ok _ _ _ _ _ Hrun1).
  assert (Hm1 : pools env1 !! m = Some (with_full [] ms))
    by (by rewrite Hpools1, lookup_insert_eq).
  rewrite (bind_Ok _ _ _ _ _ (load_mspace_run _ _ _ Hm1)).
  destruct (drain_free_run build m (_free ms) env1 (with_full [] ms) Hm1 eq_refl Hfree)
    as (env2 & Hrun2 & Hpools2 & Hobjects2 & Hreq2).
  { intros t Ht. split; [by intros ?%elem_of_nil|].
    rewrite Hobjects1, decide_False; [auto|]. by apply Hdisj. }
  cbn [_free with_full] in *. exists env2.
  split; [done|]. split; [|split; [|congruence]].
  - by rewrite Hpools2, Hpools1, insert_insert_eq.
  - intros p. rewrite Hobjects2, Hobjects1.
    repeat case_decide; try done; exfalso;
      match goal with
      | H : ¬ _ ∈ _ ++ _ |- _ => apply H, elem_of_app; auto
      | H : _ ∈ _ ++ _ |- _ => apply elem_of_app in H as [?|?]; done
      end.
Qed.
End DestructorExtras.

(** *** Release under the lock, and [ReleaseOp] over a list *)

Lemma filter_all {A} (Q : A → Prop) `{!∀ x, Decision (Q x)} (l : list A) :
  (∀ x, x ∈ l → Q x) → filter Q l = l.
Proof.
  induction l as [|x l IH]; intros HQ; [done|].
  rewrite filter_cons_True by (apply HQ, list_elem_of_here).
  rewrite IH; [done|]. intros y Hy. by apply HQ, list_elem_of_further.
Qed.

Lemma filter_ext_in {A} (Q1 Q2 : A → Prop)
  `{!∀ x, Decision (Q1 x)} `{!∀ x, Decision (Q2 x)} (l : list A) :
  (∀ x, x ∈ l → Q1 x ↔ Q2 x) → filter Q1 l = filter Q2 l.
Proof.
  induction l as [|x l IH]; intros HQ; [done|].
  rewrite !filter_cons.
  rewrite IH by (intros y Hy; by apply HQ, list_elem_of_further).
  pose proof (HQ x (list_elem_of_here _ _)).
  repeat case_decide; tauto.
Qed.

Lemma with_full_unlock l ms :
  _locked ms = false →
  with_locked false (with_full l (with_locked true ms)) = with_full l ms.
Proof. destruct ms; cbn; by intros ->. Qed.

Lemma with_free_unlock l ms :
  _locked ms = false →
  with_locked false (with_free l (with_locked true ms)) = with_free l ms.
Proof. destruct ms; cbn; by intros ->. Qed.

Section ReleaseOpExtras.
Context `{P : Platform}.

Lemma mspace_release_full_critical_run m t ms b env :
  pools env !! m = Some ms → objects env !! t = Some b →
  t ∈ _full ms → _locked ms = false →
  let ms' := with_full (filter (λ x, x ≠ t) (_full ms)) ms in
  mspace_release_full_critical PRODUCT t m env
  = Ok ((), if transient b then freed t (set_pool m ms' env)
            else if should_populate_cache (with_locked true ms')
                 then set_pool m (with_free (t :: _free ms) ms') env
                 else freed t (set_pool m ms' env)).
Proof.
  intros Hm Hb Ht Hl ms'.
  set (envl := set_pool m (with_locked true ms) env).
  assert (Hml : pools envl !! m = Some (with_locked true ms))
    by (unfold envl; unfold_env; by rewrite lookup_insert_eq).
  assert (Hbl : objects envl !! t = Some b) by done.
  pose proof (release_full_run m t _ b envl Hml Hbl Ht) as Hrun.
  cbn zeta in Hrun.
  assert (Hscope : mspace_release_full PRODUCT t m envl
                   = release_full PRODUCT m t envl).
  { unfold mspace_release_full. by repeat (rewrite assert_bind; cbn beta). }
  rewrite <- Hscope in Hrun. clear Hscope.
  unfold mspace_release_full_critical.
  change (_full (with_locked true ms)) with (_full ms) in Hrun.
  change (_free (with_locked true ms)) with (_free ms) in Hrun.
  set (msl' := with_full (filter (λ x, x ≠ t) (_full ms)) (with_locked true ms)) in *.
  assert (Hmsl : msl' = with_locked true ms') by by destruct ms.
  assert (Hun : with_locked false msl' = ms') by by apply with_full_unlock.
  destruct (transient b).
  - rewrite (MspaceLock_run m ms _ env _ _ msl' Hm Hl Hrun)
      by (unfold_env; by rewrite lookup_insert_eq).
    rewrite Hun. unfold envl. unfold_env. by rewrite !insert_insert_eq.
  - rewrite <- Hmsl. destruct (should_populate_cache msl').
    + rewrite (MspaceLock_run m ms _ env _ _ (with_free (t :: _free ms) msl') Hm Hl Hrun)
        by (unfold_env; by rewrite lookup_insert_eq).
      replace (with_locked false (with_free (t :: _free ms) msl'))
        with (with_free (t :: _free ms) ms')
        by (rewrite <- Hun; by destruct ms).
      unfold envl. unfold_env. by rewrite !insert_insert_eq.
    + rewrite (MspaceLock_run m ms _ env _ _ msl' Hm Hl Hrun)
        by (unfold_env; by rewrite lookup_insert_eq).
      rewrite Hun. unfold envl. unfold_env. by rewrite !insert_insert_eq.
Qed.

Lemma mspace_release_free_critical_run m t ms b env :
  pools env !! m = Some ms → objects env !! t = Some b →
  t ∈ _free ms → _locked ms = false →
  let ms' := with_free (filter (λ x, x ≠ t) (_free ms)) ms in
  mspace_release_free_critical PRODUCT t m env
  = Ok ((), if transient b then freed t (set_pool m ms' env)
            else if should_populate_cache (with_locked true ms)
                 then set_pool m ms env
                 else freed t (set_pool m ms' env)).
Proof.
  intros Hm Hb Ht Hl ms'.
  set (envl := set_pool m (with_locked true ms) env).
  assert (Hml : pools envl !! m = Some (with_locked true ms))
    by (unfold envl; unfold_env; by rewrite lookup_insert_eq).
  assert (Hbl : objects envl !! t = Some b) by done.
  pose proof (release_free_run m t _ b envl Hml Hbl Ht) as Hrun.
  cbn zeta in Hrun.
  assert (Hscope : mspace_release_free PRODUCT t m envl
                   = release_free PRODUCT m t envl).
  { unfold mspace_release_free. by repeat (rewrite assert_bind; cbn beta). }
  rewrite <- Hscope in Hrun. clear Hscope.
  unfold mspace_release_free_critical.
  change (_free (with_locked true ms)) with (_free ms) in Hrun.
  set (msl' := with_free (filter (λ x, x ≠ t) (_free ms)) (with_locked true ms)) in *.
  assert (Hun : with_locked false msl' = ms') by by apply with_free_unlock.
  assert (Hun0 : with_locked false (with_locked true ms) = ms)
    by (destruct ms; cbn in *; by subst).
  destruct (transient b).
  - rewrite (MspaceLock_run m ms _ env _ _ msl' Hm Hl Hrun)
      by (unfold_env; by rewrite lookup_insert_eq).
    rewrite Hun. unfold envl. unfold_env. by rewrite !insert_insert_eq.
  - destruct (should_populate_cache (with_locked true ms)).
    + rewrite (MspaceLock_run m ms _ env _ _ (with_locked true ms) Hm Hl Hrun)
        by done.
      rewrite Hun0. unfold envl. unfold_env. by rewrite !insert_insert_eq.
    + rewrite (MspaceLock_run m ms _ env _ _ msl' Hm Hl Hrun)
        by (unfold_env; by rewrite lookup_insert_eq).
      rewrite Hun. unfold envl. unfold_env. by rewrite !insert_insert_eq.
Qed.

(** One step of [ReleaseOp]: a transient buffer goes through the
    critical release of the list that the flag names, any other buffer
    is reset and published where it is. *)
Lemma ReleaseOp_process_run m (rf : bool) t ms b env :
  pools env !! m = Some ms → objects env !! t = Some b →
  (transient b = true →
   _locked ms = false ∧ t ∈ (if rf then _full ms else _free ms)) →
  ReleaseOp_process PRODUCT m rf t env
  = Ok (true,
        if transient b
        then freed t (set_pool m
               (if rf then with_full (filter (λ x, x ≠ t) (_full ms)) ms
                else with_free (filter (λ x, x ≠ t) (_free ms)) ms) env)
        else with_objects (<[t := release (reinitialize b)]> (objects env)) env).
Proof.
  intros Hm Hb Htr. unfold ReleaseOp_process.
  assert (Hderef : deref t env = Ok (b, env)) by (unfold deref; by rewrite Hb).
  rewrite (bind_Ok _ _ _ _ _ Hderef).
  destruct (transient b) eqn:Etr.
  - destruct Htr as [Hl Hin]; [done|]. destruct rf.
    + pose proof (mspace_release_full_critical_run m t ms b env Hm Hb Hin Hl) as Hrun.
      cbn zeta in Hrun. rewrite Etr in Hrun.
      by rewrite (bind_Ok _ _ _ _ _ Hrun).
    + pose proof (mspace_release_free_critical_run m t ms b env Hm Hb Hin Hl) as Hrun.
      cbn zeta in Hrun. rewrite Etr in Hrun.
      by rewrite (bind_Ok _ _ _ _ _ Hrun).
  - rewrite (bind_Ok _ _ _ _ _ (modify_run t b reinitialize env Hb)).
    repeat (rewrite assert_bind; cbn beta).
    set (env1 := with_objects _ env).
    assert (Hb1 : objects env1 !! t = Some (reinitialize b))
      by (unfold env1; unfold_env; by rewrite lookup_insert_eq).
    rewrite (bind_Ok _ _ _ _ _ (modify_run t _ release env1 Hb1)).
    unfold env1. unfold_env. unfold_monad. by rewrite insert_insert_eq.
Qed.

Lemma ReleaseOp_nodes_run m (rf : bool) (nodes : list ptr) : ∀ env ms,
  pools env !! m = Some ms → _locked ms = false → NoDup nodes →
  (∀ t, t ∈ nodes →
        t ∈ (if rf then _full ms else _free ms) ∧ is_Some (objects env !! t)) →
  ∃ env',
    iterate_nodes (ReleaseOp_process PRODUCT m rf) nodes env = Ok ((), env')
    ∧ pools env'
      = <[m := if rf
               then with_full
                      (filter (λ x, ¬ (x ∈ nodes ∧ transient_in env x = true))
                              (_full ms)) ms
               else with_free
                      (filter (λ x, ¬ (x ∈ nodes ∧ transient_in env x = true))
                              (_free ms)) ms]> (pools env)
    ∧ (∀ p, objects env' !! p
            = if decide (p ∈ nodes) then objects env !! p ≫= released
              else objects env !! p)
    ∧ heap_requests env' = heap_requests env.
Proof.
  induction nodes as [|t nodes IH]; intros env ms Hm Hl Hnodup Hnodes;
    cbn [iterate_nodes].
  - exists env. split; [done|]. split; [|split; [|done]].
    + rewrite !filter_all by (intros x _ [?%elem_of_nil _]; done).
      destruct rf; destruct ms; cbn; by rewrite insert_id.
    + intros p. by rewrite decide_False by (by intros ?%elem_of_nil).
  - apply NoDup_cons in Hnodup as [Hnotin Hnodup].
    destruct (Hnodes t) as [Hin [b Hb]]; [apply list_elem_of_here|].
    rewrite (bind_Ok _ _ _ _ _
      (ReleaseOp_process_run m rf t ms b env Hm Hb (λ _, conj Hl Hin))).
    set (ms1 := if transient b
                then (if rf then with_full (filter (λ x, x ≠ t) (_full ms)) ms
                      else with_free (filter (λ x, x ≠ t) (_free ms)) ms)
                else ms).
    set (env1 := if transient b then _ else _).
    assert (Hpools1 : pools env1 = <[m := ms1]> (pools env)).
    { unfold env1, ms1. destruct (transient b); [done|].
      unfold_env. by rewrite insert_id. }
    assert (Hobjects1 : ∀ p, p ≠ t → objects env1 !! p = objects env !! p).
    { intros p Hne. unfold env1. destruct (transient b); unfold_env.
      - by rewrite lookup_delete_ne.
      - by rewrite lookup_insert_ne. }
    assert (Ht1 : objects env1 !! t = released b).
    { unfold env1, released. destruct (transient b); unfold_env.
      - by rewrite lookup_delete_eq.
      - by rewrite lookup_insert_eq. }
    assert (Hreq1 : heap_requests env1 = heap_requests env).
    { unfold env1. by destruct (transient b). }
    assert (Hl1 : _locked ms1 = false).
    { unfold ms1. destruct (transient b), rf; done. }
    assert (Htrans1 : ∀ x, x ≠ t → transient_in env1 x = transient_in env x).
    { intros x Hne. unfold transient_in. by rewrite Hobjects1. }
    assert (Htrans : transient_in env t = transient b).
    { unfold transient_in. by rewrite Hb. }
    destruct (IH env1 ms1) as (env' & Hrun & Hpools & Hobjects & Hreq);
      try done.
    { by rewrite Hpools1, lookup_insert_eq. }
    { intros t' Ht'. assert (t' ≠ t) by (intros ->; done).
      destruct (Hnodes t') as [Hin' Halive]; [by apply list_elem_of_further|].
      split; [|by rewrite Hobjects1].
      unfold ms1. destruct (transient b), rf; cbn; try done;
        by apply list_elem_of_filter. }
    exists env'. split; [done|]. split; [|split; [|congruence]].
    + rewrite Hpools, Hpools1, insert_insert_eq. f_equal.
      assert (Hkeep : ∀ l : list ptr,
        transient b = false →
        filter (λ x, ¬ (x ∈ nodes ∧ transient_in env1 x = true)) l
        = filter (λ x, ¬ (x ∈ t :: nodes ∧ transient_in env x = true)) l).
      { intros l Etr. apply list_filter_iff. intros x.
        destruct (decide (x = t)) as [->|Hne].
        - rewrite Htrans, Etr. split; intros _ [H1 H2]; [done|by apply Hnotin].
        - rewrite (Htrans1 x Hne), elem_of_cons. tauto. }
      assert (Hdrop : ∀ l : list ptr,
        transient b = true →
        filter (λ x, ¬ (x ∈ nodes ∧ transient_in env1 x = true))
               (filter (λ x, x ≠ t) l)
        = filter (λ x, ¬ (x ∈ t :: nodes ∧ transient_in env x = true)) l).
      { intros l Etr. rewrite list_filter_filter. apply list_filter_iff.
        intros x. destruct (decide (x = t)) as [->|Hne].
        - rewrite Htrans, Etr. split; [tauto|].
          intros Hno. exfalso. apply Hno. split; [apply list_elem_of_here|done].
        - rewrite (Htrans1 x Hne), elem_of_cons. tauto. }
      unfold ms1. destruct (transient b) eqn:Etr, rf; cbn.
      * rewrite Hdrop by done. by destruct ms.
      * rewrite Hdrop by done. by destruct ms.
      * by rewrite Hkeep.
      * by rewrite Hkeep.
    + intros p. rewrite Hobjects. destruct (decide (p = t)) as [->|Hne].
      * rewrite decide_False by done.
        rewrite (decide_True (P := t ∈ t :: nodes)) by apply list_elem_of_here.
        by rewrite Ht1, Hb.
      * rewrite Hobjects1 by done.
        repeat case_decide; try done.
        -- exfalso. by apply H0, list_elem_of_further.
        -- apply elem_of_cons in H0 as [?|?]; done.
Qed.
End ReleaseOpExtras.

Section TraversalExtras.
Context `{P : Platform}.

(** X10.  [mspace_release_full_critical] and
    [mspace_release_free_critical] take the lock of the pool themselves:
    called, in either build, on a pool whose lock is held they wait and
    never return. *)
Theorem critical_release_blocks_on_held_lock build t m ms env :
  pools env !! m = Some ms → _locked ms = true →
  mspace_release_full_critical build t m env = Fail Blocked
  ∧ mspace_release_free_critical build t m env = Fail Blocked.
Proof.
  intros Hm Hl.
  unfold mspace_release_full_critical, mspace_release_free_critical,
    MspaceLock, lock, load_mspace, fail.
  unfold_monad. by rewrite Hm, Hl.
Qed.

(** X11.  Product build.  On a pool whose lock is free,
    [mspace_release_full_critical] on a live buffer of the full list
    returns with the lock free again, the buffer out of the full list
    and every other buffer where it was; the buffer is given back to the
    heap when it is transient or the cache policy, asked while the lock
    is held, declines it, and is at the head of the free list
    otherwise. *)
Theorem mspace_release_full_critical_spec m t ms b env :
  pools env !! m = Some ms → objects env !! t = Some b →
  t ∈ _full ms → _locked ms = false →
  let ms1 := with_full (filter (λ x, x ≠ t) (_full ms)) ms in
  let cached := negb (transient b) && should_populate_cache (with_locked true ms1) in
  ∃ env' ms',
    mspace_release_full_critical PRODUCT t m env = Ok ((), env')
    ∧ pools env' = <[m := ms']> (pools env)
    ∧ _locked ms' = false
    ∧ _full ms' = filter (λ x, x ≠ t) (_full ms)
    ∧ _free ms' = (if cached then t :: _free ms else _free ms)
    ∧ objects env' = (if cached then objects env else delete t (objects env))
    ∧ heap_requests env' = heap_requests env.
Proof.
  intros Hm Hb Ht Hl ms1 cached.
  pose proof (mspace_release_full_critical_run m t ms b env Hm Hb Ht Hl) as Hrun.
  cbn zeta in Hrun. fold ms1 in Hrun. unfold cached.
  destruct (transient b); cbn [negb andb].
  - exists (freed t (set_pool m ms1 env)), ms1. by split_and!.
  - destruct (should_populate_cache (with_locked true ms1)).
    + exists (set_pool m (with_free (t :: _free ms) ms1) env),
        (with_free (t :: _free ms) ms1). by split_and!.
    + exists (freed t (set_pool m ms1 env)), ms1. by split_and!.
Qed.

(** X12.  For every processor, [process_full_list] on a pool whose full
    list is empty returns at once: the processor is not called and
    nothing changes. *)
Theorem process_full_list_empty (process : ptr → M bool) m ms direction env :
  pools env !! m = Some ms → _full ms = [] →
  process_full_list process m direction env = Ok ((), env).
Proof.
  intros Hm Hfull. unfold process_full_list, is_full_empty, load_mspace.
  unfold_monad. rewrite Hm. cbn. by rewrite Hfull.
Qed.

(** X13.  For every processor, [process_free_list] on a pool whose free
    list is empty fails the assertion of line 405 in the debug build;
    in the product build it returns without a call of the processor. *)
Theorem process_free_list_empty (process : ptr → M bool) m ms direction env :
  pools env !! m = Some ms → _free ms = [] →
  process_free_list DEBUG process m direction env
  = Fail (AssertionFailed 405 "invariant")
  ∧ process_free_list PRODUCT process m direction env = Ok ((), env).
Proof.
  intros Hm Hfree.
  unfold process_free_list, process_free_list_iterator_control, iterate,
    has_free, assert_, load_mspace.
  unfold_monad. rewrite Hm. cbn. rewrite Hfree. by destruct direction.
Qed.

(** X14.  Product build.  [process_full_list] with a [ReleaseOp] that
    releases to the full list, in either direction, on a pool whose lock
    is free and whose lists are in order: the transient buffers of the
    full list leave the list and are given back to the heap, every other
    buffer of the full list is reset and published where it is; the
    free list, the buffers outside the full list and the number of heap
    requests are as before, and the lock is free again. *)
Theorem process_full_list_ReleaseOp m ms direction env :
  pools env !! m = Some ms → _locked ms = false → lists_ok env ms →
  ∃ env',
    process_full_list (ReleaseOp_process PRODUCT m true) m direction env
    = Ok ((), env')
    ∧ pools env'
      = <[m := with_full (filter (λ x, transient_in env x = false) (_full ms)) ms]>
          (pools env)
    ∧ (∀ p, objects env' !! p
            = if decide (p ∈ _full ms) then objects env !! p ≫= released
              else objects env !! p)
    ∧ heap_requests env' = heap_requests env.
Proof.
  intros Hm Hl Hok.
  destruct (lists_ok_inv _ _ Hok) as (_ & Hfull & _ & _ & Hafull).
  destruct (decide (_full ms = [])) as [Efull|Efull].
  { exists env. split; [|split; [|split; [|done]]].
    - unfold process_full_list, is_full_empty, load_mspace.
      unfold_monad. rewrite Hm. cbn. by rewrite Efull.
    - rewrite Efull, filter_nil, <- Efull. destruct ms; cbn. by rewrite insert_id.
    - intros p. rewrite Efull. by rewrite decide_False by (by intros ?%elem_of_nil). }
  assert (Hcount : (JfrDoubleLinkedList.count (_full ms) =? 0) = false).
  { unfold JfrDoubleLinkedList.count. destruct (_full ms); [done|].
    apply Z.eqb_neq. cbn [length]. lia. }
  assert (Hempty : is_full_empty m env = Ok (false, env)).
  { unfold is_full_empty, load_mspace. unfold_monad. rewrite Hm. cbn.
    by rewrite Hcount. }
  unfold process_full_list, process_full_list_iterator_control, iterate.
  rewrite (bind_Ok _ _ _ _ _ Hempty).
  rewrite (bind_Ok _ _ _ _ _ (load_mspace_run _ _ _ Hm)).
  set (nodes := Iterator (_full ms) direction).
  assert (Hnodes : ∀ x, x ∈ nodes ↔ x ∈ _full ms).
  { intros x. unfold nodes. destruct direction; cbn [Iterator]; [done|].
    apply elem_of_reverse. }
  destruct (ReleaseOp_nodes_run m true nodes env ms Hm Hl)
    as (env' & Hrun & Hpools & Hobjects & Hreq).
  { unfold nodes. destruct direction; cbn [Iterator]; [done|].
    by rewrite reverse_Permutation. }
  { intros t Ht. apply Hnodes in Ht. auto. }
  exists env'. split; [done|]. split; [|split; [|done]].
  - rewrite Hpools. do 2 f_equal. apply filter_ext_in. intros x Hx.
    apply Hnodes in Hx. destruct (transient_in env x); split; try done.
    + intros Hno. exfalso. by apply Hno.
    + by intros _ [_ ?].
  - intros p. rewrite Hobjects.
    destruct (decide (p ∈ _full ms)) as [Hp|Hp].
    + by rewrite decide_True by (by apply Hnodes).
    + by rewrite decide_False by (by rewrite Hnodes).
Qed.

(** X15.  Product build.  [process_free_list] with a [ReleaseOp] that
    releases to the free list, in either direction, on a pool whose lock
    is free and whose lists are in order: the transient buffers of the
    free list leave the list and are given back to the heap, every other
    buffer of the free list is reset and published where it is; the full
    list, the buffers outside the free list and the number of heap
    requests are as before. *)
Theorem process_free_list_ReleaseOp m ms direction env :
  pools env !! m = Some ms → _locked ms = false → lists_ok env ms →
  ∃ env',
    process_free_list PRODUCT (ReleaseOp_process PRODUCT m false) m direction env
    = Ok ((), env')
    ∧ pools env'
      = <[m := with_free (filter (λ x, transient_in env x = false) (_free ms)) ms]>
          (pools env)
    ∧ (∀ p, objects env' !! p
            = if decide (p ∈ _free ms) then objects env !! p ≫= released
              else objects env !! p)
    ∧ heap_requests env' = heap_requests env.
Proof.
  intros Hm Hl Hok.
  destruct (lists_ok_inv _ _ Hok) as (Hfree & _ & _ & Hafree & _).
  unfold process_free_list, process_free_list_iterator_control, iterate.
  rewrite assert_bind.
  rewrite (bind_Ok _ _ _ _ _ (load_mspace_run _ _ _ Hm)).
  set (nodes := Iterator (_free ms) direction).
  assert (Hnodes : ∀ x, x ∈ nodes ↔ x ∈ _free ms).
  { intros x. unfold nodes. destruct direction; cbn [Iterator]; [done|].
    apply elem_of_reverse. }
  destruct (ReleaseOp_nodes_run m false nodes env ms Hm Hl)
    as (env' & Hrun & Hpools & Hobjects & Hreq).
  { unfold nodes. destruct direction; cbn [Iterator]; [done|].
    by rewrite reverse_Permutation. }
  { intros t Ht. apply Hnodes in Ht. auto. }
  exists env'. split; [done|]. split; [|split; [|done]].
  - rewrite Hpools. do 2 f_equal. apply filter_ext_in. intros x Hx.
    apply Hnodes in Hx. destruct (transient_in env x); split; try done.
    + intros Hno. exfalso. by apply Hno.
    + by intros _ [_ ?].
  - intros p. rewrite Hobjects.
    destruct (decide (p ∈ _free ms)) as [Hp|Hp].
    + by rewrite decide_True by (by apply Hnodes).
    + by rewrite decide_False by (by rewrite Hnodes).
Qed.

(** X16.  In the debug build [deallocate] does not give back a buffer
    that is still in a list of the pool: it fails the assertion of line
    111 for a buffer of the free list and that of line 112 for a buffer
    of the full list only.  The product build gives the buffer back and
    leaves it in the list. *)
Theorem deallocate_linked m t ms b env :
  pools env !! m = Some ms → objects env !! t = Some b →
  t ∈ _free ms ++ _full ms →
  deallocate DEBUG m t env
  = Fail (AssertionFailed (if bool_decide (t ∈ _free ms) then 111 else 112)
                          "invariant")
  ∧ deallocate PRODUCT m t env = Ok ((), freed t env).
Proof.
  intros Hm Hb Hin.
  unfold deallocate, assert_, in_free_list, in_full_list, load_mspace,
    JfrCHeapObj_free, deref, JfrDoubleLinkedList.in_list.
  unfold_monad. split.
  - rewrite Hm. cbn. case_bool_decide as Hfree; cbn; [done|].
    rewrite Hm. cbn.
    apply elem_of_app in Hin as [?|Hfull]; [done|].
    by rewrite (bool_decide_eq_true_2 _ Hfull).
  - cbn. by rewrite Hb, Hb.
Qed.
End TraversalExtras.

Lemma length_remove_member (t : ptr) (l : list ptr) :
  t ∈ l → NoDup l → S (length (filter (λ x, x ≠ t) l)) = length l.
Proof.
  induction l as [|x l IH]; intros Hin Hnodup; [by apply elem_of_nil in Hin|].
  apply NoDup_cons in Hnodup as [Hx Hnodup].
  destruct (decide (x = t)) as [->|Hne].
  - by rewrite remove_head.
  - rewrite filter_cons_True by done. cbn [length]. f_equal.
    apply IH; [|done]. apply elem_of_cons in Hin as [?|?]; [congruence|done].
Qed.

(** X17.  [move_to_head], in either build, on a node of the source list:
    the node becomes the head of the destination, the other nodes of
    both lists keep their order, and when the source list holds no node
    twice the two lists together hold as many nodes as before.  On a
    node that is not in the source list the debug build fails the
    assertion of line 381 and the product build corrupts the list. *)
Theorem move_to_head_spec build (t : ptr) (from to : list ptr) :
  (t ∈ from →
   move_to_head build t from to = Ok (filter (λ x, x ≠ t) from, t :: to)
   ∧ (NoDup from →
      (length (filter (λ x, x ≠ t) from) + length (t :: to)
       = length from + length to)%nat))
  ∧ (t ∉ from →
     move_to_head build t from to
     = if build then Fail (AssertionFailed 381 "invariant") else Fail Fault).
Proof.
  unfold move_to_head, check, JfrDoubleLinkedList.remove,
    JfrDoubleLinkedList.in_list, JfrDoubleLinkedList.prepend.
  split.
  - intros Hin. rewrite (bool_decide_eq_true_2 _ Hin). split.
    + by destruct build.
    + intros Hnodup. pose proof (length_remove_member t from Hin Hnodup).
      cbn [length]. lia.
  - intros Hin. rewrite (bool_decide_eq_false_2 _ Hin). by destruct build.
Qed.

(** *** Detaching, transient leases and the [static] *)

Lemma remove_free_run m t ms env :
  pools env !! m = Some ms → t ∈ _free ms →
  remove_free m t env
  = Ok ((), set_pool m (with_free (filter (λ x, x ≠ t) (_free ms)) ms) env).
Proof.
  intros Hm Hin. unfold remove_free, load_mspace, modify_mspace. unfold_monad.
  by rewrite Hm, (remove_member _ _ Hin), Hm.
Qed.

Section DetachExtras.
Context `{P : Platform} `{!RetrievalSpec P}.

(** X18.  [mspace_get_free_with_detach], in either build and whether
    the lock is held or not, returns on every live pool without a heap
    request.  A buffer it returns was in the free list and is taken out
    of it, acquired by the caller, with room for the request; when it
    returns none the pool is as it was.  No buffer is created or given
    back on the way. *)
Theorem mspace_get_free_with_detach_spec size m ms thread env :
  pools env !! m = Some ms →
  ∃ r env',
    mspace_get_free_with_detach size m thread env = Ok (r, env')
    ∧ heap_requests env' = heap_requests env
    ∧ same_flags (objects env) (objects env')
    ∧ match r with
      | Some t =>
          t ∈ _free ms
          ∧ pools env'
            = <[m := with_free (filter (λ x, x ≠ t) (_free ms)) ms]> (pools env)
          ∧ ∃ b, objects env' !! t = Some b ∧ identity b = Some thread
              ∧ size ≤ free_size b
      | None => pools env' = pools env
      end.
Proof.
  intros Hm. unfold mspace_get_free_with_detach.
  rewrite (bind_Ok _ _ _ _ _ (mspace_get_free_run _ _ _ _ _ Hm)).
  destruct (Retrieval_get size thread ms (objects env)) as [[t|] o'] eqn:Hget;
    cbn [fst snd].
  - pose proof (retrieval_member _ _ _ _ _ _ Hget) as Hin.
    assert (Hremove : remove_free m t (with_objects o' env)
      = Ok ((), set_pool m (with_free (filter (λ x, x ≠ t) (_free ms)) ms)
                  (with_objects o' env))).
    { by apply remove_free_run. }
    rewrite (bind_Ok _ _ _ _ _ Hremove).
    eexists (Some t), _. split; [done|]. split; [done|].
    split; [by eapply retrieval_frame|]. split; [done|]. split; [done|].
    by eapply retrieval_acquired.
  - eexists None, _. split; [done|]. split; [done|].
    split; [by eapply retrieval_frame|done].
Qed.
End DetachExtras.

Lemma assert_debug_run {B} line (cond : M bool) msg (f : unit → M B) env c env' :
  cond env = Ok (c, env') →
  (assert_ DEBUG line cond msg ≫= f) env
  = if c then f () env' else Fail (AssertionFailed line msg).
Proof.
  intros Hcond. unfold assert_. unfold_monad. rewrite Hcond. by destruct c.
Qed.

Section LeaseExtras.
Context `{P : Platform}.

Lemma mspace_allocate_transient_run size m ms thread env :
  pools env !! m = Some ms →
  0 < _min_elem_size ms → is_size_t (_min_elem_size ms) →
  let size' := Z.max size (static_value ms env) in
  let t := fresh (dom (objects env)) in
  ∃ a, (size' ≤ 2 ^ 63 → size' ≤ a ∧ _min_elem_size ms ≤ a)
    ∧ mspace_allocate_transient PRODUCT size m thread env
      = if 2 ^ 63 <? size' then Ok (None, cache_static ms env)
        else if heap_oracle env (heap_requests env)
        then Ok (Some t,
                 allocated t
                   (set_transient (set_identity (Some thread) (fresh_buffer a)))
                   (cache_static ms env))
        else Ok (None, refused (cache_static ms env)).
Proof.
  intros Hm Hmin Hsz size' t.
  destruct (mspace_allocate_acquired_run size m ms thread env Hm Hmin Hsz)
    as (a & Ha & Hrun). fold size' t in Hrun.
  exists a. split; [done|]. unfold mspace_allocate_transient.
  destruct (2 ^ 63 <? size'); [by rewrite (bind_Ok _ _ _ _ _ Hrun)|].
  destruct (heap_oracle env (heap_requests env));
    [|by rewrite (bind_Ok _ _ _ _ _ Hrun)].
  rewrite (bind_Ok _ _ _ _ _ Hrun), assert_bind.
  set (b0 := set_identity (Some thread) (fresh_buffer a)).
  set (env1 := allocated t b0 (cache_static ms env)).
  assert (Hb0 : objects env1 !! t = Some b0)
    by (unfold env1; unfold_env; by rewrite lookup_insert_eq).
  rewrite (bind_Ok _ _ _ _ _ (modify_run _ _ _ _ Hb0)).
  unfold env1. unfold_env. unfold_monad. by rewrite insert_insert_eq.
Qed.

Lemma mspace_allocate_transient_lease_run size m ms thread env :
  pools env !! m = Some ms →
  0 < _min_elem_size ms → is_size_t (_min_elem_size ms) →
  let size' := Z.max size (static_value ms env) in
  let t := fresh (dom (objects env)) in
  ∃ a, (size' ≤ 2 ^ 63 → size' ≤ a ∧ _min_elem_size ms ≤ a)
    ∧ mspace_allocate_transient_lease PRODUCT size m thread env
      = if 2 ^ 63 <? size' then Ok (None, cache_static ms env)
        else if heap_oracle env (heap_requests env)
        then Ok (Some t,
                 allocated t
                   (set_lease
                      (set_transient
                         (set_identity (Some thread) (fresh_buffer a))))
                   (cache_static ms env))
        else Ok (None, refused (cache_static ms env)).
Proof.
  intros Hm Hmin Hsz size' t.
  destruct (mspace_allocate_transient_run size m ms thread env Hm Hmin Hsz)
    as (a & Ha & Hrun). fold size' t in Hrun.
  exists a. split; [done|]. unfold mspace_allocate_transient_lease.
  destruct (2 ^ 63 <? size'); [by rewrite (bind_Ok _ _ _ _ _ Hrun)|].
  destruct (heap_oracle env (heap_requests env));
    [|by rewrite (bind_Ok _ _ _ _ _ Hrun)].
  rewrite (bind_Ok _ _ _ _ _ Hrun).
  repeat (rewrite assert_bind; cbn beta).
  set (b0 := set_transient (set_identity (Some thread) (fresh_buffer a))).
  set (env1 := allocated t b0 (cache_static ms env)).
  assert (Hb0 : objects env1 !! t = Some b0)
    by (unfold env1; unfold_env; by rewrite lookup_insert_eq).
  rewrite (bind_Ok _ _ _ _ _ (modify_run _ _ _ _ Hb0)).
  unfold env1. unfold_env. unfold_monad. by rewrite insert_insert_eq.
Qed.

Lemma locked_insert_full_head_run m t ms env :
  pools env !! m = Some ms → _locked ms = false →
  MspaceLock m (insert_full_head m t;; mret (Some t)) env
  = Ok (Some t, set_pool m (with_full (t :: _full ms) ms) env).
Proof.
  intros Hm Hl.
  set (envl := set_pool m (with_locked true ms) env).
  assert (Hml : pools envl !! m = Some (with_locked true ms))
    by (unfold envl; unfold_env; by rewrite lookup_insert_eq).
  assert (Hscope : (insert_full_head m t;; mret (Some t)) envl
    = Ok (Some t, set_pool m (with_full (t :: _full ms) (with_locked true ms)) envl)).
  { by rewrite (bind_Ok _ _ _ _ _ (insert_full_head_run m t _ _ Hml)). }
  rewrite (MspaceLock_run m ms _ env _ _ _ Hm Hl Hscope)
    by (unfold_env; by rewrite lookup_insert_eq).
  rewrite with_full_unlock by done.
  unfold envl. unfold_env. by rewrite !insert_insert_eq.
Qed.

Lemma locked_insert_free_head_run m t ms env :
  pools env !! m = Some ms → _locked ms = false →
  MspaceLock m (insert_free_head m t;; mret (Some t)) env
  = Ok (Some t, set_pool m (with_free (t :: _free ms) ms) env).
Proof.
  intros Hm Hl.
  set (envl := set_pool m (with_locked true ms) env).
  assert (Hml : pools envl !! m = Some (with_locked true ms))
    by (unfold envl; unfold_env; by rewrite lookup_insert_eq).
  assert (Hscope : (insert_free_head m t;; mret (Some t)) envl
    = Ok (Some t, set_pool m (with_free (t :: _free ms) (with_locked true ms)) envl)).
  { by rewrite (bind_Ok _ _ _ _ _ (insert_free_head_run m t _ _ Hml)). }
  rewrite (MspaceLock_run m ms _ env _ _ _ Hm Hl Hscope)
    by (unfold_env; by rewrite lookup_insert_eq).
  rewrite with_free_unlock by done.
  unfold envl. unfold_env. by rewrite !insert_insert_eq.
Qed.

(** What the three transient-lease allocators leave behind, given where
    the buffer is linked. *)
Lemma transient_lease_outcome size m ms thread env
    (f : M (option ptr)) (link : ptr → Mspace) :
  pools env !! m = Some ms →
  let size' := Z.max size (static_value ms env) in
  let t := fresh (dom (objects env)) in
  (∃ a, (size' ≤ 2 ^ 63 → size' ≤ a ∧ _min_elem_size ms ≤ a)
    ∧ f env
      = if 2 ^ 63 <? size' then Ok (None, cache_static ms env)
        else if heap_oracle env (heap_requests env)
        then Ok (Some t,
                 set_pool m (link t)
                   (allocated t
                      (set_lease
                         (set_transient
                            (set_identity (Some thread) (fresh_buffer a))))
                      (cache_static ms env)))
        else Ok (None, refused (cache_static ms env))) →
  ∃ r env',
    f env = Ok (r, env')
    ∧ match r with
      | Some t =>
          pools env' = <[m := link t]> (pools env)
          ∧ objects env !! t = None
          ∧ heap_requests env' = S (heap_requests env)
          ∧ (∀ p, p ≠ t → objects env' !! p = objects env !! p)
          ∧ ∃ b, objects env' !! t = Some b
              ∧ identity b = Some thread
              ∧ transient b = true ∧ lease b = true ∧ retired b = false
              ∧ empty b = true
              ∧ size' ≤ buf_size b ∧ _min_elem_size ms ≤ buf_size b
      | None =>
          pools env' = pools env ∧ objects env' = objects env
          ∧ (2 ^ 63 < size' ∨ heap_oracle env (heap_requests env) = false)
      end.
Proof.
  intros Hm size' t (a & Ha & Hrun). rewrite Hrun.
  destruct (Z.ltb_spec (2 ^ 63) size') as [Hbig|Hfits].
  { exists None, (cache_static ms env).
    rewrite pools_cache_static, objects_cache_static. split_and!; try done.
    by left. }
  destruct (heap_oracle env (heap_requests env)) eqn:Horacle.
  2: { exists None, (refused (cache_static ms env)). unfold_env.
       rewrite pools_cache_static, objects_cache_static. split_and!; try done.
       by right. }
  eexists (Some t), _. split; [done|]. unfold_env.
  rewrite pools_cache_static, objects_cache_static, heap_requests_cache_static.
  split_and!; try done.
  - apply not_elem_of_dom, is_fresh.
  - intros p Hne. by rewrite lookup_insert_ne.
  - rewrite lookup_insert_eq. eexists. split; [done|].
    destruct (Ha Hfits). split_and!; try done. unfold empty. cbn. lia.
Qed.

(** X19.  Product build.  [mspace_allocate_transient_lease] never takes
    the lock and never links the buffer: the pool is as it was.  A
    buffer it returns did not exist before, is the only buffer that
    changed, and is acquired by the caller, transient, leased, empty and
    of a capacity that covers the adjusted size and the pool's
    [min_elem_size]; one heap request was made.  It returns none only
    when the adjusted size is beyond the largest allocation or the heap
    refused, and then no buffer has changed. *)
Theorem mspace_allocate_transient_lease_spec size m ms thread env :
  pools env !! m = Some ms →
  0 < _min_elem_size ms → is_size_t (_min_elem_size ms) →
  let size' := Z.max size (static_value ms env) in
  ∃ r env',
    mspace_allocate_transient_lease PRODUCT size m thread env = Ok (r, env')
    ∧ match r with
      | Some t =>
          pools env' = <[m := ms]> (pools env)
          ∧ objects env !! t = None
          ∧ heap_requests env' = S (heap_requests env)
          ∧ (∀ p, p ≠ t → objects env' !! p = objects env !! p)
          ∧ ∃ b, objects env' !! t = Some b
              ∧ identity b = Some thread
              ∧ transient b = true ∧ lease b = true ∧ retired b = false
              ∧ empty b = true
              ∧ size' ≤ buf_size b ∧ _min_elem_size ms ≤ buf_size b
      | None =>
          pools env' = pools env ∧ objects env' = objects env
          ∧ (2 ^ 63 < size' ∨ heap_oracle env (heap_requests env) = false)
      end.
Proof.
  intros Hm Hmin Hsz size'.
  apply (transient_lease_outcome size m ms thread env _ (λ _, ms) Hm).
  destruct (mspace_allocate_transient_lease_run size m ms thread env Hm Hmin Hsz)
    as (a & Ha & Hrun).
  exists a. split; [done|]. rewrite Hrun.
  destruct (2 ^ 63 <? _); [done|].
  destruct (heap_oracle env (heap_requests env)); [|done].
  do 2 f_equal. unfold_env. f_equal. rewrite pools_cache_static.
  symmetry. by apply insert_id.
Qed.

Lemma transient_lease_linked_run size m ms thread env
    (f : M (option ptr)) (scope : ptr → M (option ptr)) (link : ptr → Mspace) :
  pools env !! m = Some ms →
  0 < _min_elem_size ms → is_size_t (_min_elem_size ms) →
  (f = (t ← mspace_allocate_transient_lease PRODUCT size m thread;
        match t with
        | None => mret None
        | Some t => scope t
        end)) →
  (∀ t env1, pools env1 !! m = Some ms →
      scope t env1 = Ok (Some t, set_pool m (link t) env1)) →
  let size' := Z.max size (static_value ms env) in
  let t := fresh (dom (objects env)) in
  ∃ a, (size' ≤ 2 ^ 63 → size' ≤ a ∧ _min_elem_size ms ≤ a)
    ∧ f env
      = if 2 ^ 63 <? size' then Ok (None, cache_static ms env)
        else if heap_oracle env (heap_requests env)
        then Ok (Some t,
                 set_pool m (link t)
                   (allocated t
                      (set_lease
                         (set_transient
                            (set_identity (Some thread) (fresh_buffer a))))
                      (cache_static ms env)))
        else Ok (None, refused (cache_static ms env)).
Proof.
  intros Hm Hmin Hsz -> Hscope size' t.
  destruct (mspace_allocate_transient_lease_run size m ms thread env Hm Hmin Hsz)
    as (a & Ha & Hrun). fold size' t in Hrun.
  exists a. split; [done|].
  destruct (2 ^ 63 <? size'); [by rewrite (bind_Ok _ _ _ _ _ Hrun)|].
  destruct (heap_oracle env (heap_requests env));
    [|by rewrite (bind_Ok _ _ _ _ _ Hrun)].
  rewrite (bind_Ok _ _ _ _ _ Hrun). apply Hscope.
  unfold_env. by rewrite pools_cache_static.
Qed.

(** X20.  Product build.  On a pool whose lock is free and whose
    [min_elem_size] is a positive [size_t],
    [mspace_allocate_transient_lease_to_full] returns with the lock free
    again.  A buffer it returns did not exist before, is at the head of
    the full list, which is otherwise as it was, and is acquired by the
    caller, transient, leased and empty; the free list is as it was.
    When it returns none the pool and the buffers are as they were. *)
Theorem mspace_allocate_transient_lease_to_full_spec size m ms thread env :
  pools env !! m = Some ms → _locked ms = false →
  0 < _min_elem_size ms → is_size_t (_min_elem_size ms) →
  let size' := Z.max size (static_value ms env) in
  ∃ r env',
    mspace_allocate_transient_lease_to_full PRODUCT size m thread env
    = Ok (r, env')
    ∧ match r with
      | Some t =>
          pools env' = <[m := with_full (t :: _full ms) ms]> (pools env)
          ∧ objects env !! t = None
          ∧ heap_requests env' = S (heap_requests env)
          ∧ (∀ p, p ≠ t → objects env' !! p = objects env !! p)
          ∧ ∃ b, objects env' !! t = Some b
              ∧ identity b = Some thread
              ∧ transient b = true ∧ lease b = true ∧ retired b = false
              ∧ empty b = true
              ∧ size' ≤ buf_size b ∧ _min_elem_size ms ≤ buf_size b
      | None =>
          pools env' = pools env ∧ objects env' = objects env
          ∧ (2 ^ 63 < size' ∨ heap_oracle env (heap_requests env) = false)
      end.
Proof.
  intros Hm Hl Hmin Hsz size'.
  apply (transient_lease_outcome size m ms thread env _
           (λ t, with_full (t :: _full ms) ms) Hm).
  unfold mspace_allocate_transient_lease_to_full.
  apply (transient_lease_linked_run size m ms thread env _
           (λ t, assert_ PRODUCT 252 (acquired_by_self t thread) "invariant";;
                 assert_ PRODUCT 253 (transient <$> deref t) "invaiant";;
                 assert_ PRODUCT 254 (lease <$> deref t) "invariant";;
                 MspaceLock m (insert_full_head m t;; mret (Some t)))
           (λ t, with_full (t :: _full ms) ms) Hm Hmin Hsz eq_refl).
  intros t env1 Hm1. repeat (rewrite assert_bind; cbn beta).
  by apply locked_insert_full_head_run.
Qed.

(** X21.  Product build.  On a pool whose lock is free and whose
    [min_elem_size] is a positive [size_t],
    [mspace_allocate_transient_lease_to_free] returns with the lock free
    again.  A buffer it returns did not exist before, is at the head of
    the free list, which is otherwise as it was, and is acquired by the
    caller, transient, leased and empty; the full list is as it was.
    When it returns none the pool and the buffers are as they were. *)
Theorem mspace_allocate_transient_lease_to_free_spec size m ms thread env :
  pools env !! m = Some ms → _locked ms = false →
  0 < _min_elem_size ms → is_size_t (_min_elem_size ms) →
  let size' := Z.max size (static_value ms env) in
  ∃ r env',
    mspace_allocate_transient_lease_to_free PRODUCT size m thread env
    = Ok (r, env')
    ∧ match r with
      | Some t =>
          pools env' = <[m := with_free (t :: _free ms) ms]> (pools env)
          ∧ objects env !! t = None
          ∧ heap_requests env' = S (heap_requests env)
          ∧ (∀ p, p ≠ t → objects env' !! p = objects env !! p)
          ∧ ∃ b, objects env' !! t = Some b
              ∧ identity b = Some thread
              ∧ transient b = true ∧ lease b = true ∧ retired b = false
              ∧ empty b = true
              ∧ size' ≤ buf_size b ∧ _min_elem_size ms ≤ buf_size b
      | None =>
          pools env' = pools env ∧ objects env' = objects env
          ∧ (2 ^ 63 < size' ∨ heap_oracle env (heap_requests env) = false)
      end.
Proof.
  intros Hm Hl Hmin Hsz size'.
  apply (transient_lease_outcome size m ms thread env _
           (λ t, with_free (t :: _free ms) ms) Hm).
  unfold mspace_allocate_transient_lease_to_free.
  apply (transient_lease_linked_run size m ms thread env _
           (λ t, assert_ PRODUCT 264 (acquired_by_self t thread) "invariant";;
                 assert_ PRODUCT 265 (transient <$> deref t) "invaiant";;
                 assert_ PRODUCT 266 (lease <$> deref t) "invariant";;
                 MspaceLock m (insert_free_head m t;; mret (Some t)))
           (λ t, with_free (t :: _free ms) ms) Hm Hmin Hsz eq_refl).
  intros t env1 Hm1. repeat (rewrite assert_bind; cbn beta).
  by apply locked_insert_free_head_run.
Qed.

(** X22.  The [static] of [size_adjustment] is written once.  The first
    call clamps to the [min_elem_size] of its pool; every later call, on
    whatever pool, clamps to that same value and leaves the machine as
    it is. *)
Theorem size_adjustment_sticky size1 size2 m1 m2 ms1 ms2 env :
  pools env !! m1 = Some ms1 → pools env !! m2 = Some ms2 →
  size_adjustment_static env = None →
  ∃ env1,
    size_adjustment size1 m1 env
    = Ok (Z.max size1 (_min_elem_size ms1), env1)
    ∧ size_adjustment size2 m2 env1
      = Ok (Z.max size2 (_min_elem_size ms1), env1).
Proof.
  intros Hm1 Hm2 Hstatic.
  exists (with_static (Some (_min_elem_size ms1)) env).
  rewrite (size_adjustment_run _ _ _ _ Hm1).
  rewrite (size_adjustment_run size2 m2 ms2) by done.
  unfold static_value, cache_static. rewrite Hstatic. done.
Qed.

(** X23.  Debug build.  [mspace_release_full] on a buffer of the full
    list that is not in the free list, and that is transient or else
    empty, not retired and unowned: it fails the assertion of line 352
    when the buffer has unflushed data, else that of line 354 when the
    lock is not held, and else does what the product build of
    [release_full] does, with no assertion failing. *)
Theorem mspace_release_full_debug m t ms b env :
  pools env !! m = Some ms → objects env !! t = Some b →
  t ∈ _full ms → t ∉ _free ms →
  (transient b = false →
   empty b = true ∧ retired b = false ∧ identity b = None) →
  mspace_release_full DEBUG t m env
  = if negb (unflushed_size b =? 0)
    then Fail (AssertionFailed 352 "invariant")
    else if negb (_locked ms) then Fail (AssertionFailed 354 "invariant")
    else release_full PRODUCT m t env.
Proof.
  intros Hm Hb Ht Hnot Hidle.
  assert (Hflushed : (b ← deref t; mret (unflushed_size b =? 0)) env
                     = Ok (unflushed_size b =? 0, env)).
  { unfold deref. unfold_monad. by rewrite Hb. }
  assert (Hlocked : is_locked m env = Ok (_locked ms, env)).
  { unfold is_locked, load_mspace. unfold_monad. by rewrite Hm. }
  unfold mspace_release_full.
  rewrite (assert_debug_run _ _ _ _ _ _ _ Hflushed).
  destruct (unflushed_size b =? 0); [|done].
  rewrite (assert_debug_run _ _ _ _ _ _ _ Hlocked).
  destruct (_locked ms) eqn:Hl; [|done].
  cbn [negb]. by apply (release_full_debug m t ms b).
Qed.

(** X24.  Debug build.  [mspace_release_free] on a buffer of the free
    list that is not in the full list, and that is transient or else
    empty, not retired and unowned: it fails the assertion of line 361
    when the buffer has unflushed data, else that of line 363 when the
    lock is not held, and else does what the product build of
    [release_free] does, with no assertion failing. *)
Theorem mspace_release_free_debug m t ms b env :
  pools env !! m = Some ms → objects env !! t = Some b →
  t ∈ _free ms → t ∉ _full ms →
  (transient b = false →
   empty b = true ∧ retired b = false ∧ identity b = None) →
  mspace_release_free DEBUG t m env
  = if negb (unflushed_size b =? 0)
    then Fail (AssertionFailed 361 "invariant")
    else if negb (_locked ms) then Fail (AssertionFailed 363 "invariant")
    else release_free PRODUCT m t env.
Proof.
  intros Hm Hb Ht Hnot Hidle.
  assert (Hflushed : (b ← deref t; mret (unflushed_size b =? 0)) env
                     = Ok (unflushed_size b =? 0, env)).
  { unfold deref. unfold_monad. by rewrite Hb. }
  assert (Hlocked : is_locked m env = Ok (_locked ms, env)).
  { unfold is_locked, load_mspace. unfold_monad. by rewrite Hm. }
  unfold mspace_release_free.
  rewrite (assert_debug_run _ _ _ _ _ _ _ Hflushed).
  destruct (unflushed_size b =? 0); [|done].
  rewrite (assert_debug_run _ _ _ _ _ _ _ Hlocked).
  destruct (_locked ms) eqn:Hl; [|done].
  cbn [negb]. by apply (release_free_debug m t ms b).
Qed.
End LeaseExtras.

(** *** The lists stay in order *)

Section InvariantExtras.
Context `{P : Platform} `{!RetrievalSpec P}.

(** X25.  Debug build.  The functions that work on the lists for a
    caller who holds the lock check that it is held: on a pool whose
    lock is free [release_full] fails the assertion of line 119,
    [release_free] that of line 141 and [mspace_allocate_to_full] that
    of line 223, before anything is changed. *)
Theorem lock_assertions m t ms size thread env :
  pools env !! m = Some ms → _locked ms = false →
  release_full DEBUG m t env = Fail (AssertionFailed 119 "invariant")
  ∧ release_free DEBUG m t env = Fail (AssertionFailed 141 "invariant")
  ∧ mspace_allocate_to_full DEBUG size m thread env
    = Fail (AssertionFailed 223 "invariant").
Proof.
  intros Hm Hl.
  assert (Hlocked : is_locked m env = Ok (false, env)).
  { unfold is_locked, load_mspace. unfold_monad. by rewrite Hm, Hl. }
  unfold release_full, release_free, mspace_allocate_to_full.
  by rewrite !(assert_debug_run _ _ _ _ _ _ _ Hlocked).
Qed.

Lemma fallback_outcome size' m ms1 thread envb v :
  pools envb !! m = Some ms1 →
  0 < _min_elem_size ms1 → is_size_t (_min_elem_size ms1) →
  size_adjustment_static envb = Some v → v ≤ size' →
  ∃ r env2,
    mspace_allocate_to_full PRODUCT size' m thread envb = Ok (r, env2)
    ∧ pools env2
      = <[m := match r with
               | Some t => with_full (t :: _full ms1) ms1
               | None => ms1
               end]> (pools envb)
    ∧ dom (objects envb) ⊆ dom (objects env2)
    ∧ (∀ t, r = Some t → (t ∉ dom (objects envb)) ∧ t ∈ dom (objects env2)).
Proof.
  intros Hm Hmin Hsz Hstatic Hv.
  destruct (allocate_to_full_fallback size' m ms1 thread envb v
              Hm Hmin Hsz Hstatic Hv) as (a & _ & Hrun).
  rewrite Hrun.
  destruct (2 ^ 63 <? size').
  { exists None, envb. split; [done|]. split; [by rewrite insert_id|].
    split; [done|]. by intros t [=]. }
  destruct (heap_oracle envb (heap_requests envb)).
  2: { exists None, (refused envb). split; [done|]. unfold_env.
       split; [by rewrite insert_id|]. split; [done|]. by intros t [=]. }
  eexists (Some _), _. split; [done|]. unfold_env. split; [done|].
  split; [apply dom_insert_subseteq|].
  intros t [= <-]. split; [apply is_fresh|].
  apply elem_of_dom. by rewrite lookup_insert_eq.
Qed.

(** X26.  Product build.  [mspace_get_to_full] keeps the lists in
    order: on a pool whose lock is free, whose [min_elem_size] is a
    positive [size_t] and whose lists share no buffer, hold none twice
    and hold live buffers only, it returns with lists of which the same
    is true.  No buffer is given back to the heap, and the two lists
    together hold the buffers they held before and the buffer that is
    returned. *)
Theorem mspace_get_to_full_keeps_lists size m ms thread env :
  pools env !! m = Some ms → _locked ms = false →
  0 < _min_elem_size ms → is_size_t (_min_elem_size ms) →
  lists_ok env ms →
  ∃ r env' ms',
    mspace_get_to_full PRODUCT size m thread env = Ok (r, env')
    ∧ pools env' = <[m := ms']> (pools env)
    ∧ _locked ms' = false
    ∧ lists_ok env' ms'
    ∧ dom (objects env) ⊆ dom (objects env')
    ∧ (∀ x, x ∈ _free ms' ++ _full ms'
            ↔ x ∈ _free ms ++ _full ms ∨ r = Some x).
Proof.
  intros Hm Hunlocked Hmin Hsz Hok.
  destruct (lists_ok_inv _ _ Hok) as (Hfree & Hfull & Hdisj & Hafree & Hafull).
  unfold mspace_get_to_full.
  rewrite (bind_Ok _ _ _ _ _ (size_adjustment_run _ _ _ _ Hm)).
  set (size' := Z.max size (static_value ms env)).
  set (env0 := cache_static ms env).
  set (ms1 := with_locked true ms).
  set (env1 := set_pool m ms1 env0).
  assert (Hm0 : pools env0 !! m = Some ms)
    by (unfold env0; by rewrite pools_cache_static).
  assert (Hm1 : pools env1 !! m = Some ms1)
    by (unfold env1; unfold_env; by rewrite lookup_insert_eq).
  assert (Hpools1 : pools env1 = <[m := ms1]> (pools env)).
  { unfold env1, env0. unfold_env. by rewrite pools_cache_static. }
  assert (Hstatic1 : size_adjustment_static env1 = Some (static_value ms env))
    by apply static_cache_static.
  assert (Hobj1 : objects env1 = objects env) by apply objects_cache_static.
  assert (Hv : static_value ms env ≤ size') by (unfold size'; lia).
  (* the scope of the lock *)
  assert (Hscope : ∃ r env2,
    (min ← min_elem_size m;
     if size' <=? min
     then t ← mspace_get_free_to_full PRODUCT size' m thread;
          match t with
          | Some t => mret (Some t)
          | None => mspace_allocate_to_full PRODUCT size' m thread
          end
     else mspace_allocate_to_full PRODUCT size' m thread) env1 = Ok (r, env2)
    ∧ pools env2
      = <[m := match r with
               | Some t =>
                   with_full (t :: _full ms)
                     (with_free (filter (λ x, x ≠ t) (_free ms)) ms1)
               | None => ms1
               end]> (pools env)
    ∧ dom (objects env) ⊆ dom (objects env2)
    ∧ (∀ t, r = Some t →
            t ∈ dom (objects env2)
            ∧ (t ∈ _free ms ∨ t ∉ dom (objects env)))).
  { assert (Hmin1 : min_elem_size m env1 = Ok (_min_elem_size ms, env1)).
    { unfold min_elem_size.
      by rewrite (bind_Ok _ _ _ _ _ (load_mspace_run _ _ _ Hm1)). }
    rewrite (bind_Ok _ _ _ _ _ Hmin1).
    (* the fall-back, from a machine that differs from [env1] in its
       buffer headers at most *)
    assert (Hfallback : ∀ o', dom o' = dom (objects env) →
      ∃ r env2,
        mspace_allocate_to_full PRODUCT size' m thread (with_objects o' env1)
        = Ok (r, env2)
        ∧ pools env2
          = <[m := match r with
                   | Some t =>
                       with_full (t :: _full ms)
                         (with_free (filter (λ x, x ≠ t) (_free ms)) ms1)
                   | None => ms1
                   end]> (pools env)
        ∧ dom (objects env) ⊆ dom (objects env2)
        ∧ (∀ t, r = Some t →
                t ∈ dom (objects env2)
                ∧ (t ∈ _free ms ∨ t ∉ dom (objects env)))).
    { intros o' Hdom.
      destruct (fallback_outcome size' m ms1 thread (with_objects o' env1)
                  (static_value ms env))
        as (r & env2 & Hrun & Hpools2 & Hsub & Hnew); [done..|].
      cbn [objects with_objects] in Hsub, Hnew. rewrite Hdom in Hsub, Hnew.
      exists r, env2. split; [done|]. split; [|split; [done|]].
      - rewrite Hpools2. cbn [pools with_objects].
        rewrite Hpools1, insert_insert_eq. f_equal.
        destruct r as [t|]; [|done].
        destruct (Hnew t eq_refl) as [Hfresh _].
        rewrite filter_all; [by destruct ms|].
        intros x Hx ->. apply Hfresh, elem_of_dom. auto.
      - intros t Ht. destruct (Hnew t Ht). auto. }
    destruct (size' <=? _min_elem_size ms).
    2: { destruct (Hfallback (objects env1)) as (r & env2 & Hrun & Hrest);
           [by rewrite Hobj1|].
         exists r, env2. split; [|done]. by rewrite <- Hrun. }
    pose proof (mspace_get_free_to_full_run size' m ms1 thread env1 Hm1) as Hgf.
    destruct (Retrieval_get size' thread ms1 (objects env1)) as [[t|] o'] eqn:Hget;
      rewrite (bind_Ok _ _ _ _ _ Hgf).
    - pose proof (retrieval_member _ _ _ _ _ _ Hget) as Hin.
      pose proof (retrieval_dom _ _ _ _ _ _ Hget) as Hdom.
      rewrite Hobj1 in Hdom.
      eexists (Some t), _. split; [done|]. unfold_env.
      split; [|split].
      + rewrite Hpools1, insert_insert_eq. done.
      + by rewrite Hdom.
      + intros ? [= <-]. split; [|by left].
        rewrite Hdom. apply elem_of_dom. by apply Hafree.
    - pose proof (retrieval_dom _ _ _ _ _ _ Hget) as Hdom.
      rewrite Hobj1 in Hdom. by apply Hfallback. }
  destruct Hscope as (r & env2 & Hscope & Hpools2 & Hsub & Hr).
  set (ms2 := match r with
              | Some t =>
                  with_full (t :: _full ms)
                    (with_free (filter (λ x, x ≠ t) (_free ms)) ms1)
              | None => ms1
              end) in *.
  rewrite (MspaceLock_run m ms _ env0 r env2 ms2 Hm0 Hunlocked Hscope)
    by (by rewrite Hpools2, lookup_insert_eq).
  exists r, (set_pool m (with_locked false ms2) env2), (with_locked false ms2).
  split; [done|]. unfold_env.
  split; [by rewrite Hpools2, insert_insert_eq|]. split; [done|].
  assert (Hlists : ∀ x, x ∈ _free ms2 ++ _full ms2
                        ↔ x ∈ _free ms ++ _full ms ∨ r = Some x).
  { intros x. unfold ms2. destruct r as [t|]; cbn.
    - rewrite !elem_of_app, elem_of_cons, list_elem_of_filter.
      destruct (decide (x = t)) as [->|Hne]; [tauto|].
      split; [tauto|]. intros [?|[= ->]]; [tauto|done].
    - split; [auto|]. by intros [?|[=]]. }
  split; [|split; [done|exact Hlists]].
  apply lists_ok_intro; cbn [_free _full with_locked].
  - unfold ms2. destruct r; cbn; [by apply NoDup_filter|done].
  - unfold ms2. destruct r as [t|]; cbn; [|done].
    apply NoDup_cons. split; [|done].
    destruct (Hr t eq_refl) as [_ [Hin|Hfresh]].
    + by apply Hdisj.
    + intros Hin. apply Hfresh, elem_of_dom. auto.
  - intros x Hx1 Hx2. unfold ms2 in Hx1, Hx2. destruct r as [t|]; cbn in *.
    + apply list_elem_of_filter in Hx1 as [Hne Hx1].
      apply elem_of_cons in Hx2 as [?|Hx2]; [done|]. by apply (Hdisj x).
    + by apply (Hdisj x).
  - intros x Hx. apply elem_of_dom.
    assert (Hcases : x ∈ _free ms ++ _full ms ∨ r = Some x)
      by (apply Hlists, elem_of_app; auto).
    destruct Hcases as [Hold| ->].
    + apply Hsub, elem_of_dom. apply elem_of_app in Hold as [?|?]; auto.
    + by apply Hr.
  - intros x Hx. apply elem_of_dom.
    assert (Hcases : x ∈ _free ms ++ _full ms ∨ r = Some x)
      by (apply Hlists, elem_of_app; auto).
    destruct Hcases as [Hold| ->].
    + apply Hsub, elem_of_dom. apply elem_of_app in Hold as [?|?]; auto.
    + by apply Hr.
Qed.
End InvariantExtras.

(** *** The further properties at work on the example machines *)

Ltac by_compute := apply (bool_decide_unpack _); vm_compute; exact I.

Lemma lists_ok_decide env ms :
  bool_decide (NoDup (_free ms ++ _full ms)) = true →
  forallb (λ t, bool_decide (is_Some (objects env !! t))) (_free ms ++ _full ms)
  = true →
  lists_ok env ms.
Proof.
  intros Hnodup Halive. split; [by apply bool_decide_eq_true in Hnodup|].
  intros t Ht. rewrite forallb_forall in Halive.
  apply list_elem_of_In in Ht. apply Halive in Ht.
  by apply bool_decide_eq_true in Ht.
Qed.

Lemma align_least_size_class_witness :
  ∃ k : nat,
    @align_allocation_size jfr_platform PRODUCT 5000 4096
    = Ok (size_class 4096 k)
    ∧ 5000 ≤ size_class 4096 k.
Proof.
  destruct (align_least_size_class (P:=jfr_platform) 5000 4096
              ltac:(lia) ltac:(unfold is_size_t; lia) ltac:(lia))
    as (k & Hrun & Hge & _).
  exists k. split; [exact Hrun|exact Hge].
Defined.

Lemma align_monotone_witness :
  ∃ v1 v2,
    @align_allocation_size jfr_platform PRODUCT 100 4096 = Ok v1
    ∧ @align_allocation_size jfr_platform PRODUCT 5000 4096 = Ok v2
    ∧ v1 ≤ v2.
Proof.
  apply (align_monotone (P:=jfr_platform) 100 5000 4096);
    [lia|unfold is_size_t; lia|lia|lia].
Defined.

Lemma align_power_of_two_fixed_point_witness :
  ∃ v,
    @align_allocation_size jfr_platform PRODUCT 5000 (2 ^ Z.of_nat 12) = Ok v
    ∧ v ≤ 2 ^ 63
    ∧ @align_allocation_size jfr_platform PRODUCT v (2 ^ Z.of_nat 12) = Ok v.
Proof.
  apply (align_power_of_two_fixed_point (P:=jfr_platform) 5000 12); lia.
Defined.

Lemma align_zero_minimum_diverges_witness :
  (∀ fuel, align_loop fuel 1 0 = None)
  ∧ @align_allocation_size jfr_platform DEBUG 1 0 = Fail Diverges.
Proof.
  apply (align_zero_minimum_diverges (P:=jfr_platform) DEBUG 1); lia.
Defined.

Lemma allocate_spec_witness :
  ∃ env' b (k : nat),
    @allocate jfr_platform PRODUCT 1 5000 warm_pool = Ok (Some 3%positive, env')
    ∧ pools env' = pools warm_pool
    ∧ objects env' !! 3%positive = Some b
    ∧ buf_size b = size_class 4096 k
    ∧ 5000 ≤ size_class 4096 k
    ∧ 3%positive ∉ [2; 1]%positive ++ [].
Proof.
  destruct (allocate_spec (P:=jfr_platform) 1
              (mkMspace [2; 1]%positive [] 4096 40960 2 false) 5000 warm_pool
              ltac:(vm_compute; reflexivity) ltac:(cbn; lia)
              ltac:(unfold is_size_t; cbn; lia))
    as (r & env' & Hrun & Hpools & Hr).
  assert (Hsome : ∃ e,
    @allocate jfr_platform PRODUCT 1 5000 warm_pool = Ok (Some 3%positive, e))
    by (eexists; vm_compute; reflexivity).
  destruct Hsome as [e He]. rewrite He in Hrun. injection Hrun as <- <-.
  destruct Hr as (_ & _ & _ & _ & _ & Hlists & b & k & Hb & Hsize & Hge & _).
  exists e, b, k. split; [exact He|]. split; [exact Hpools|].
  split; [exact Hb|]. split; [exact Hsize|]. split; [exact Hge|].
  apply Hlists.
  apply (lists_ok_decide warm_pool
           (mkMspace [2; 1]%positive [] 4096 40960 2 false));
    vm_compute; reflexivity.
Defined.

Lemma initialize_stops_at_first_refusal_witness :
  ∃ env' ms',
    @initialize jfr_platform PRODUCT 1 starved_pool = Ok (false, env')
    ∧ pools env' !! 1%positive = Some ms'
    ∧ JfrDoubleLinkedList.count (_free ms') = 1
    ∧ heap_requests env' = 3%nat.
Proof.
  destruct (initialize_stops_at_first_refusal (P:=jfr_platform)
              1 4096 40960 4 starved_pool 1)
    as (env' & ms' & Hrun & Hm' & Hcount & _ & _ & Hreq).
  - vm_compute; reflexivity.
  - unfold is_size_t; lia.
  - lia.
  - vm_compute. lia.
  - intros j Hj. assert (j = 0%nat) as -> by lia. vm_compute; reflexivity.
  - vm_compute; reflexivity.
  - exists env', ms'. split; [exact Hrun|]. split; [exact Hm'|].
    split; [exact Hcount|exact Hreq].
Defined.

Lemma release_full_keeps_lists_witness :
  ∃ env' ms',
    @release_full jfr_platform PRODUCT 1 3 published = Ok ((), env')
    ∧ pools env' !! 1%positive = Some ms'
    ∧ lists_ok env' ms'
    ∧ 3%positive ∉ _full ms'.
Proof.
  destruct (release_full_keeps_lists (P:=jfr_platform) 1 3
              (mkMspace [2; 1]%positive [3%positive] 4096 40960 2 false)
              (set_transient (set_identity (Some 7%positive)
                                (@fresh_buffer jfr_platform 4096)))
              published)
    as (env' & ms' & Hrun & Hm' & Hok & Hgone & _).
  - vm_compute; reflexivity.
  - vm_compute; reflexivity.
  - by_compute.
  - apply lists_ok_decide; vm_compute; reflexivity.
  - exists env', ms'. split; [exact Hrun|]. split; [exact Hm'|].
    split; [exact Hok|exact Hgone].
Defined.

Lemma release_free_keeps_lists_witness :
  ∃ env' ms',
    @release_free jfr_platform PRODUCT 1 2 published = Ok ((), env')
    ∧ pools env' !! 1%positive = Some ms'
    ∧ lists_ok env' ms'
    ∧ _full ms' = [3%positive].
Proof.
  destruct (release_free_keeps_lists (P:=jfr_platform) 1 2
              (mkMspace [2; 1]%positive [3%positive] 4096 40960 2 false)
              (@fresh_buffer jfr_platform 4096) published)
    as (env' & ms' & Hrun & Hm' & Hok & Hfull & _).
  - vm_compute; reflexivity.
  - vm_compute; reflexivity.
  - by_compute.
  - apply lists_ok_decide; vm_compute; reflexivity.
  - exists env', ms'. split; [exact Hrun|]. split; [exact Hm'|].
    split; [exact Hok|exact Hfull].
Defined.

Lemma destructor_frees_both_lists_witness :
  ∃ env',
    JfrMemorySpace_destructor DEBUG 1 published = Ok ((), env')
    ∧ pools env' !! 1%positive = Some (mkMspace [] [] 4096 40960 2 false)
    ∧ objects env' !! 3%positive = None.
Proof.
  destruct (destructor_frees_both_lists DEBUG 1
              (mkMspace [2; 1]%positive [3%positive] 4096 40960 2 false)
              published)
    as (env' & Hrun & Hpools & Hobjects & _).
  - vm_compute; reflexivity.
  - apply lists_ok_decide; vm_compute; reflexivity.
  - exists env'. split; [exact Hrun|]. split.
    + rewrite Hpools. apply lookup_insert_eq.
    + rewrite Hobjects. vm_compute. reflexivity.
Defined.

Lemma critical_release_blocks_on_held_lock_witness :
  @mspace_release_full_critical jfr_platform DEBUG 3 1 held = Fail Blocked
  ∧ @mspace_release_free_critical jfr_platform DEBUG 3 1 held = Fail Blocked.
Proof.
  apply (critical_release_blocks_on_held_lock (P:=jfr_platform) DEBUG 3 1
           (mkMspace [2; 1]%positive [3%positive] 4096 40960 2 true) held);
    [vm_compute; reflexivity|reflexivity].
Defined.

Lemma mspace_release_full_critical_spec_witness :
  ∃ env' ms',
    @mspace_release_full_critical jfr_platform PRODUCT 3 1 published
    = Ok ((), env')
    ∧ pools env' = <[1%positive := ms']> (pools published)
    ∧ _locked ms' = false
    ∧ _full ms' = []
    ∧ objects env' !! 3%positive = None.
Proof.
  destruct (mspace_release_full_critical_spec (P:=jfr_platform) 1 3
              (mkMspace [2; 1]%positive [3%positive] 4096 40960 2 false)
              (set_transient (set_identity (Some 7%positive)
                                (@fresh_buffer jfr_platform 4096)))
              published)
    as (env' & ms' & Hrun & Hpools & Hl & Hfull & _ & Hobjects & _).
  - vm_compute; reflexivity.
  - vm_compute; reflexivity.
  - by_compute.
  - reflexivity.
  - exists env', ms'. split; [exact Hrun|]. split; [exact Hpools|].
    split; [exact Hl|]. split.
    + rewrite Hfull. vm_compute. reflexivity.
    + rewrite Hobjects. vm_compute. reflexivity.
Defined.

Lemma process_full_list_empty_witness :
  process_full_list (λ _, fail Fault) 1 backward warm_pool = Ok ((), warm_pool).
Proof.
  apply (process_full_list_empty _ 1
           (mkMspace [2; 1]%positive [] 4096 40960 2 false));
    [vm_compute; reflexivity|reflexivity].
Defined.

Lemma process_free_list_empty_witness :
  process_free_list DEBUG (λ _, fail Fault) 1 forward cold_pool
  = Fail (AssertionFailed 405 "invariant")
  ∧ process_free_list PRODUCT (λ _, fail Fault) 1 forward cold_pool
    = Ok ((), cold_pool).
Proof.
  apply (process_free_list_empty _ 1 (JfrMemorySpace 4096 40960 4));
    [vm_compute; reflexivity|reflexivity].
Defined.

Lemma process_full_list_ReleaseOp_witness :
  ∃ env',
    process_full_list (@ReleaseOp_process jfr_platform PRODUCT 1 true)
      1 backward busy_pool
    = Ok ((), env')
    ∧ pools env' !! 1%positive
      = Some (mkMspace [1%positive] [2%positive] 4096 40960 2 false)
    ∧ objects env' !! 3%positive = None
    ∧ identity <$> objects env' !! 2%positive = Some None.
Proof.
  destruct (process_full_list_ReleaseOp (P:=jfr_platform) 1
              (mkMspace [1%positive] [2; 3]%positive 4096 40960 2 false)
              backward busy_pool)
    as (env' & Hrun & Hpools & Hobjects & _).
  - vm_compute; reflexivity.
  - reflexivity.
  - apply lists_ok_decide; vm_compute; reflexivity.
  - exists env'. split; [exact Hrun|]. split; [|split].
    + rewrite Hpools, lookup_insert_eq. vm_compute. reflexivity.
    + rewrite Hobjects. vm_compute. reflexivity.
    + rewrite Hobjects. vm_compute. reflexivity.
Defined.

Lemma process_free_list_ReleaseOp_witness :
  ∃ env',
    process_free_list PRODUCT (@ReleaseOp_process jfr_platform PRODUCT 1 false)
      1 forward leased_free
    = Ok ((), env')
    ∧ pools env' !! 1%positive
      = Some (mkMspace [2; 1]%positive [] 4096 40960 2 false)
    ∧ objects env' !! 3%positive = None.
Proof.
  destruct (process_free_list_ReleaseOp (P:=jfr_platform) 1
              (mkMspace [3; 2; 1]%positive [] 4096 40960 2 false)
              forward leased_free)
    as (env' & Hrun & Hpools & Hobjects & _).
  - vm_compute; reflexivity.
  - reflexivity.
  - apply lists_ok_decide; vm_compute; reflexivity.
  - exists env'. split; [exact Hrun|]. split.
    + rewrite Hpools, lookup_insert_eq. vm_compute. reflexivity.
    + rewrite Hobjects. vm_compute. reflexivity.
Defined.

Lemma deallocate_linked_witness :
  deallocate DEBUG 1 3 published = Fail (AssertionFailed 112 "invariant")
  ∧ deallocate PRODUCT 1 3 published = Ok ((), freed 3 published).
Proof.
  destruct (deallocate_linked 1 3
              (mkMspace [2; 1]%positive [3%positive] 4096 40960 2 false)
              (set_transient (set_identity (Some 7%positive)
                                (@fresh_buffer jfr_platform 4096)))
              published)
    as [Hdebug Hproduct].
  - vm_compute; reflexivity.
  - vm_compute; reflexivity.
  - by_compute.
  - split; [|exact Hproduct]. rewrite Hdebug. vm_compute. reflexivity.
Defined.

Lemma move_to_head_spec_witness :
  move_to_head DEBUG 2 [2; 1]%positive [3%positive]
  = Ok ([1%positive], [2; 3]%positive)
  ∧ move_to_head DEBUG 3 [2; 1]%positive [3%positive]
    = Fail (AssertionFailed 381 "invariant").
Proof.
  split.
  - destruct (move_to_head_spec DEBUG 2 [2; 1]%positive [3%positive])
      as [Hin _].
    destruct Hin as [Hrun _]; [by_compute|].
    rewrite Hrun. vm_compute. reflexivity.
  - destruct (move_to_head_spec DEBUG 3 [2; 1]%positive [3%positive])
      as [_ Hout].
    apply Hout. by_compute.
Defined.

Lemma mspace_get_free_with_detach_spec_witness :
  ∃ env',
    @mspace_get_free_with_detach jfr_platform 100 1 7 warm_pool
    = Ok (Some 2%positive, env')
    ∧ pools env' !! 1%positive
      = Some (mkMspace [1%positive] [] 4096 40960 2 false)
    ∧ heap_requests env' = heap_requests warm_pool.
Proof.
  destruct (@mspace_get_free_with_detach_spec jfr_platform first_fit_spec
              100 1 (mkMspace [2; 1]%positive [] 4096 40960 2 false) 7
              warm_pool ltac:(vm_compute; reflexivity))
    as (r & env' & Hrun & Hreq & _ & Hr).
  assert (Hsome : ∃ e,
    @mspace_get_free_with_detach jfr_platform 100 1 7 warm_pool
    = Ok (Some 2%positive, e)) by (eexists; vm_compute; reflexivity).
  destruct Hsome as [e He]. rewrite He in Hrun. injection Hrun as <- <-.
  destruct Hr as (_ & Hpools & _).
  exists e. split; [exact He|]. split; [|exact Hreq].
  rewrite Hpools, lookup_insert_eq. vm_compute. reflexivity.
Defined.

Lemma mspace_allocate_transient_lease_spec_witness :
  ∃ env' b,
    @mspace_allocate_transient_lease jfr_platform PRODUCT 100 1 7 warm_pool
    = Ok (Some 3%positive, env')
    ∧ pools env' !! 1%positive
      = Some (mkMspace [2; 1]%positive [] 4096 40960 2 false)
    ∧ objects env' !! 3%positive = Some b
    ∧ identity b = Some 7%positive
    ∧ transient b = true ∧ lease b = true.
Proof.
  destruct (mspace_allocate_transient_lease_spec (P:=jfr_platform) 100 1
              (mkMspace [2; 1]%positive [] 4096 40960 2 false) 7 warm_pool
              ltac:(vm_compute; reflexivity) ltac:(cbn; lia)
              ltac:(unfold is_size_t; cbn; lia))
    as (r & env' & Hrun & Hr).
  assert (Hsome : ∃ e,
    @mspace_allocate_transient_lease jfr_platform PRODUCT 100 1 7 warm_pool
    = Ok (Some 3%positive, e)) by (eexists; vm_compute; reflexivity).
  destruct Hsome as [e He]. rewrite He in Hrun. injection Hrun as <- <-.
  destruct Hr as (Hpools & _ & _ & _ & b & Hb & Hid & Htr & Hlease & _).
  exists e, b. split; [exact He|]. split; [|by repeat split].
  rewrite Hpools. apply lookup_insert_eq.
Defined.

Lemma mspace_allocate_transient_lease_to_full_spec_witness :
  ∃ env' b,
    @mspace_allocate_transient_lease_to_full jfr_platform PRODUCT 100 1 7
      warm_pool
    = Ok (Some 3%positive, env')
    ∧ pools env' !! 1%positive
      = Some (mkMspace [2; 1]%positive [3%positive] 4096 40960 2 false)
    ∧ objects env' !! 3%positive = Some b
    ∧ identity b = Some 7%positive
    ∧ transient b = true ∧ lease b = true.
Proof.
  destruct (mspace_allocate_transient_lease_to_full_spec (P:=jfr_platform)
              100 1 (mkMspace [2; 1]%positive [] 4096 40960 2 false) 7
              warm_pool
              ltac:(vm_compute; reflexivity) eq_refl ltac:(cbn; lia)
              ltac:(unfold is_size_t; cbn; lia))
    as (r & env' & Hrun & Hr).
  assert (Hsome : ∃ e,
    @mspace_allocate_transient_lease_to_full jfr_platform PRODUCT 100 1 7
      warm_pool
    = Ok (Some 3%positive, e)) by (eexists; vm_compute; reflexivity).
  destruct Hsome as [e He]. rewrite He in Hrun. injection Hrun as <- <-.
  destruct Hr as (Hpools & _ & _ & _ & b & Hb & Hid & Htr & Hlease & _).
  exists e, b. split; [exact He|]. split; [|by repeat split].
  rewrite Hpools. apply lookup_insert_eq.
Defined.

Lemma mspace_allocate_transient_lease_to_free_spec_witness :
  ∃ env' b,
    @mspace_allocate_transient_lease_to_free jfr_platform PRODUCT 100 1 7
      warm_pool
    = Ok (Some 3%positive, env')
    ∧ pools env' !! 1%positive
      = Some (mkMspace [3; 2; 1]%positive [] 4096 40960 2 false)
    ∧ objects env' !! 3%positive = Some b
    ∧ identity b = Some 7%positive
    ∧ transient b = true ∧ lease b = true.
Proof.
  destruct (mspace_allocate_transient_lease_to_free_spec (P:=jfr_platform)
              100 1 (mkMspace [2; 1]%positive [] 4096 40960 2 false) 7
              warm_pool
              ltac:(vm_compute; reflexivity) eq_refl ltac:(cbn; lia)
              ltac:(unfold is_size_t; cbn; lia))
    as (r & env' & Hrun & Hr).
  assert (Hsome : ∃ e,
    @mspace_allocate_transient_lease_to_free jfr_platform PRODUCT 100 1 7
      warm_pool
    = Ok (Some 3%positive, e)) by (eexists; vm_compute; reflexivity).
  destruct Hsome as [e He]. rewrite He in Hrun. injection Hrun as <- <-.
  destruct Hr as (Hpools & _ & _ & _ & b & Hb & Hid & Htr & Hlease & _).
  exists e, b. split; [exact He|]. split; [|by repeat split].
  rewrite Hpools. apply lookup_insert_eq.
Defined.

Lemma size_adjustment_sticky_witness :
  ∃ env1,
    size_adjustment 0 1 two_pools = Ok (8192, env1)
    ∧ size_adjustment 0 2 env1 = Ok (8192, env1).
Proof.
  destruct (size_adjustment_sticky 0 0 1 2
              (JfrMemorySpace 8192 81920 0) (JfrMemorySpace 4096 40960 0)
              two_pools)
    as (env1 & H1 & H2); [vm_compute; reflexivity..|].
  exists env1. split; [exact H1|exact H2].
Defined.

Lemma mspace_release_full_debug_witness :
  @mspace_release_full jfr_platform DEBUG 3 1 held
  = @release_full jfr_platform PRODUCT 1 3 held
  ∧ @mspace_release_full jfr_platform DEBUG 3 1 published
    = Fail (AssertionFailed 354 "invariant").
Proof.
  split.
  - exact (mspace_release_full_debug (P:=jfr_platform) 1 3
             (mkMspace [2; 1]%positive [3%positive] 4096 40960 2 true)
             (set_transient (set_identity (Some 7%positive)
                               (@fresh_buffer jfr_platform 4096)))
             held
             ltac:(vm_compute; reflexivity) ltac:(vm_compute; reflexivity)
             ltac:(by_compute) ltac:(by_compute)
             ltac:(intros H; exfalso; vm_compute in H; discriminate H)).
  - exact (mspace_release_full_debug (P:=jfr_platform) 1 3
             (mkMspace [2; 1]%positive [3%positive] 4096 40960 2 false)
             (set_transient (set_identity (Some 7%positive)
                               (@fresh_buffer jfr_platform 4096)))
             published
             ltac:(vm_compute; reflexivity) ltac:(vm_compute; reflexivity)
             ltac:(by_compute) ltac:(by_compute)
             ltac:(intros H; exfalso; vm_compute in H; discriminate H)).
Defined.

Lemma mspace_release_free_debug_witness :
  @mspace_release_free jfr_platform DEBUG 2 1 held
  = @release_free jfr_platform PRODUCT 1 2 held
  ∧ @mspace_release_free jfr_platform DEBUG 2 1 published
    = Fail (AssertionFailed 363 "invariant").
Proof.
  split.
  - exact (mspace_release_free_debug (P:=jfr_platform) 1 2
             (mkMspace [2; 1]%positive [3%positive] 4096 40960 2 true)
             (@fresh_buffer jfr_platform 4096) held
             ltac:(vm_compute; reflexivity) ltac:(vm_compute; reflexivity)
             ltac:(by_compute) ltac:(by_compute)
             ltac:(intros _; repeat split; vm_compute; reflexivity)).
  - exact (mspace_release_free_debug (P:=jfr_platform) 1 2
             (mkMspace [2; 1]%positive [3%positive] 4096 40960 2 false)
             (@fresh_buffer jfr_platform 4096) published
             ltac:(vm_compute; reflexivity) ltac:(vm_compute; reflexivity)
             ltac:(by_compute) ltac:(by_compute)
             ltac:(intros _; repeat split; vm_compute; reflexivity)).
Defined.

Lemma lock_assertions_witness :
  @release_full jfr_platform DEBUG 1 3 published
  = Fail (AssertionFailed 119 "invariant")
  ∧ @release_free jfr_platform DEBUG 1 2 published
    = Fail (AssertionFailed 141 "invariant")
  ∧ @mspace_allocate_to_full jfr_platform DEBUG 100 1 7 published
    = Fail (AssertionFailed 223 "invariant").
Proof.
  destruct (lock_assertions (P:=jfr_platform) 1 3
              (mkMspace [2; 1]%positive [3%positive] 4096 40960 2 false)
              100 7 published ltac:(vm_compute; reflexivity) eq_refl)
    as (Hfull & _ & Hallocate).
  destruct (lock_assertions (P:=jfr_platform) 1 2
              (mkMspace [2; 1]%positive [3%positive] 4096 40960 2 false)
              100 7 published ltac:(vm_compute; reflexivity) eq_refl)
    as (_ & Hfree & _).
  split; [exact Hfull|]. split; [exact Hfree|exact Hallocate].
Defined.

Lemma mspace_get_to_full_keeps_lists_witness :
  ∃ env' ms',
    @mspace_get_to_full jfr_platform PRODUCT 100 1 8 published
    = Ok (Some 2%positive, env')
    ∧ pools env' = <[1%positive := ms']> (pools published)
    ∧ lists_ok env' ms'
    ∧ 2%positive ∈ _free ms' ++ _full ms'.
Proof.
  destruct (@mspace_get_to_full_keeps_lists jfr_platform first_fit_spec
              100 1 (mkMspace [2; 1]%positive [3%positive] 4096 40960 2 false)
              8 published
              ltac:(vm_compute; reflexivity) eq_refl ltac:(cbn; lia)
              ltac:(unfold is_size_t; cbn; lia)
              ltac:(apply lists_ok_decide; vm_compute; reflexivity))
    as (r & env' & ms' & Hrun & Hpools & _ & Hok & _ & Hlists).
  assert (Hsome : ∃ e,
    @mspace_get_to_full jfr_platform PRODUCT 100 1 8 published
    = Ok (Some 2%positive, e)) by (eexists; vm_compute; reflexivity).
  destruct Hsome as [e He]. rewrite He in Hrun. injection Hrun as <- <-.
  exists e, ms'. split; [exact He|]. split; [exact Hpools|].
  split; [exact Hok|]. apply Hlists. by right.
Defined.
